(** * Verse ingestion and annotation

    A shallow embedding of the four ingestion scripts

      - [import_kjv.py]            one-pass DOM extractor for OSIS files,
      - [import_kjv_osis.py]       the "patch if empty" DOM extractor,
      - [import_kjv_usfx.py]       the streaming (milestone) extractor for USFX,
      - [etl_bibles_to_supabase.py] DOM extractor plus the annotation engine,

    followed by the properties proved about them.

    Conventions of the model.
      - Python [str] is [string]; the character classes [\s], [\d], [\w] and
        [str.strip] are given on the ASCII code points, which is the range
        the model covers.
      - An lxml element is a node of [Xml.element]: tag, attributes, text,
        children and tail.  [etree.iterparse] is the list of start/end
        events of the tree in document order.  lxml reads a file 32 KB at
        a time: [Xml.iterparse] is the event list of a file taken in one
        read, where the text of an element is on it at its start event
        and its tail at its end event; [Xml.iterparse_chunked] is the
        general case, where a text the parser has not reached yet is
        missing.  Comments and processing instructions are not part of
        the tree.
      - A generator function is the list of the rows it yields, in order.
      - Python [int] is [nat] where the code can only produce a value that
        is not negative (digits stripped of everything else), and [Z]
        where [int(...)] is applied to a raw token.
      - Python [float] values are rationals ([Q]); binary64 rounding is
        written out where the code's result depends on it
        ([Etl.familiarity_score], the fixed priors).  numpy's float32
        operations, one of which is a transcendental function, are taken
        by their contract ([Etl.numpy32], [Etl.ieee32]): a result is the
        exact one up to the rounding error of the format; these values
        live in [R]. *)

From Stdlib Require Import Bool Arith ZArith QArith Qround Qabs Reals Qreals Lia Lra.
From Stdlib Require Import List String Ascii DecimalString DecimalNat.
From Stdlib Require Import Permutation Sorted.
Import ListNotations.

Set Warnings "-register-all".

Local Open Scope string_scope.
Local Open Scope list_scope.
Local Open Scope nat_scope.

(* ================================================================== *)
(** * Part I.  Definitions                                             *)
(* ================================================================== *)

(** ** Python string primitives used by the scripts *)

Module Py.

(** [str.isspace] on ASCII: TAB..CR, FS..US and SPACE; the regular
    expression class [\s] is the same set. *)
Definition isspace (c : ascii) : bool :=
  let n := nat_of_ascii c in
  ((9 <=? n) && (n <=? 13)) || ((28 <=? n) && (n <=? 32)).

(** [\d] on ASCII. *)
Definition isdigit (c : ascii) : bool :=
  let n := nat_of_ascii c in (48 <=? n) && (n <=? 57).

(** [\w] on ASCII: letters, digits and the underscore. *)
Definition isword (c : ascii) : bool :=
  let n := nat_of_ascii c in
  ((48 <=? n) && (n <=? 57)) || ((65 <=? n) && (n <=? 90))
  || ((97 <=? n) && (n <=? 122)) || (n =? 95).

(** [str.lower] on ASCII. *)
Definition lower_char (c : ascii) : ascii :=
  let n := nat_of_ascii c in
  if (65 <=? n) && (n <=? 90) then ascii_of_nat (n + 32) else c.

Fixpoint lower (s : string) : string :=
  match s with
  | EmptyString => EmptyString
  | String c r => String (lower_char c) (lower r)
  end.

Fixpoint lstrip (s : string) : string :=
  match s with
  | EmptyString => EmptyString
  | String c r => if isspace c then lstrip r else s
  end.

Fixpoint rstrip (s : string) : string :=
  match s with
  | EmptyString => EmptyString
  | String c r =>
      match rstrip r with
      | EmptyString => if isspace c then EmptyString else String c EmptyString
      | r' => String c r'
      end
  end.

(** [s.strip()] *)
Definition strip (s : string) : string := rstrip (lstrip s).

(** [re.sub(r"\s+", " ", s)]: every maximal run of white space becomes one
    space.  [in_ws] tells that the previous character was white space. *)
Fixpoint collapse_from (in_ws : bool) (s : string) : string :=
  match s with
  | EmptyString => EmptyString
  | String c r =>
      if isspace c
      then (if in_ws then collapse_from true r
            else String " " (collapse_from true r))
      else String c (collapse_from false r)
  end.

Definition collapse_ws (s : string) : string := collapse_from false s.

(** Python truth value of a string, and of an optional string. *)
Definition nonempty (s : string) : bool :=
  match s with EmptyString => false | String _ _ => true end.

Definition truthy_str (o : option string) : bool :=
  match o with Some s => nonempty s | None => false end.

(** Python truth value of an optional integer ([None] and [0] are false). *)
Definition truthy_int (o : option nat) : bool :=
  match o with Some (S _) => true | _ => false end.

(** [sep.join(l)] *)
Fixpoint join (sep : string) (l : list string) : string :=
  match l with
  | [] => EmptyString
  | [x] => x
  | x :: r => (x ++ sep ++ join sep r)%string
  end.

Definition concat_all (l : list string) : string := join EmptyString l.

(** [s.split(sep)] for a one-character separator. *)
Fixpoint split_on (sep : ascii) (s : string) : list string :=
  match s with
  | EmptyString => [EmptyString]
  | String c r =>
      if Ascii.eqb c sep then EmptyString :: split_on sep r
      else match split_on sep r with
           | h :: t => String c h :: t
           | [] => [String c EmptyString]
           end
  end.

Fixpoint filter_chars (p : ascii -> bool) (s : string) : string :=
  match s with
  | EmptyString => EmptyString
  | String c r => if p c then String c (filter_chars p r) else filter_chars p r
  end.

(** The character [c] does not occur in [s]. *)
Definition free_of (c : ascii) (s : string) : Prop :=
  filter_chars (fun a => Ascii.eqb a c) s = EmptyString.

(** [re.sub(r"\D", "", s)] *)
Definition strip_nondigits (s : string) : string := filter_chars isdigit s.

(** [int(d)] for a string of decimal digits. *)
Definition int_of_digits (d : string) : nat :=
  match NilEmpty.uint_of_string d with
  | Some u => Nat.of_uint u
  | None => 0
  end.

(** [int(re.sub(r"\D", "", s) or "0")] *)
Definition digits_or_zero (s : string) : nat :=
  let d := strip_nondigits s in
  int_of_digits (if nonempty d then d else "0").

(** The digits of an [int] literal may be separated by single underscores. *)
Fixpoint int_body_ok (prev_digit : bool) (s : string) : bool :=
  match s with
  | EmptyString => prev_digit
  | String c r =>
      if isdigit c then int_body_ok true r
      else if Ascii.eqb c "_"
           then prev_digit
                && match r with String d _ => isdigit d | EmptyString => false end
                && int_body_ok false r
           else false
  end.

(** [int(s)] on an arbitrary token: [None] stands for [ValueError]. *)
Definition int_of_str (s : string) : option Z :=
  let t := strip s in
  let '(neg, body) :=
    match t with
    | String "-" r => (true, r)
    | String "+" r => (false, r)
    | _ => (false, t)
    end in
  if int_body_ok false body
  then let n := Z.of_nat (int_of_digits (strip_nondigits body)) in
       Some (if neg then (- n)%Z else n)
  else None.

(** [str(n)] / the [f"{n}"] rendering of an integer. *)
Definition str_of_nat (n : nat) : string := NilEmpty.string_of_uint (Nat.to_uint n).

Definition str_of_Z (z : Z) : string :=
  match z with
  | Zneg p => ("-" ++ str_of_nat (Pos.to_nat p))%string
  | _ => str_of_nat (Z.to_nat z)
  end.

(** [f"{x}"] of a value that may be [None]. *)
Definition fmt_opt (o : option string) : string :=
  match o with Some s => s | None => "None" end.

(** [len(re.findall(p+, s))] for a character class [p]: the number of
    maximal runs of characters of the class. *)
Fixpoint count_runs (p : ascii -> bool) (in_run : bool) (s : string) : nat :=
  match s with
  | EmptyString => 0
  | String c r =>
      if p c then (if in_run then 0 else 1) + count_runs p true r
      else count_runs p false r
  end.

Definition word_count (s : string) : nat := count_runs isword false s.

(** [needle in hay] *)
Fixpoint starts_with (p s : string) : bool :=
  match p, s with
  | EmptyString, _ => true
  | String a p', String b s' => Ascii.eqb a b && starts_with p' s'
  | String _ _, EmptyString => false
  end.

Fixpoint contains (needle hay : string) : bool :=
  starts_with needle hay
  || match hay with
     | EmptyString => false
     | String _ r => contains needle r
     end.

(** [d.get(k)] and [d.get(k, default)] on a dict literal. *)
Fixpoint dict_get (d : list (string * string)) (k : string) : option string :=
  match d with
  | [] => None
  | (k', v) :: r => if String.eqb k k' then Some v else dict_get r k
  end.

Definition dict_get_default (d : list (string * string)) (k dflt : string) : string :=
  match dict_get d k with Some v => v | None => dflt end.

Definition mem_str (x : string) (l : list string) : bool :=
  existsb (String.eqb x) l.

End Py.

(** ** lxml element trees *)

Module Xml.

Inductive element : Type :=
  Element (tag : string) (attrib : list (string * string))
          (text : option string) (children : list element)
          (tail : option string).

Definition tag (e : element) : string :=
  match e with Element t _ _ _ _ => t end.
Definition attrib (e : element) : list (string * string) :=
  match e with Element _ a _ _ _ => a end.
Definition text (e : element) : option string :=
  match e with Element _ _ x _ _ => x end.
Definition children (e : element) : list element :=
  match e with Element _ _ _ c _ => c end.
Definition tail (e : element) : option string :=
  match e with Element _ _ _ _ t => t end.

Definition opt_list (o : option string) : list string :=
  match o with Some s => [s] | None => [] end.

(** [node.itertext()]: the text of the node, then for each child its own
    [itertext] followed by the child's tail.  The tail of the node itself
    is not part of it. *)
Fixpoint itertext (e : element) : list string :=
  match e with
  | Element _ _ tx ch _ =>
      opt_list tx ++ flat_map (fun c => itertext c ++ opt_list (tail c)) ch
  end.

(** The node and all its descendants in document order (the axis [//]). *)
Fixpoint iter (e : element) : list element :=
  match e with
  | Element _ _ _ ch _ => e :: flat_map iter ch
  end.

Inductive event : Type := Start | End.

(** [etree.iterparse(path, events=("start","end"))] on a file that the
    parser takes in one read (lxml reads 32 KB at a time): every event
    comes with the element as the whole file has it, its text and its
    tail complete.  Larger files are [iterparse_chunked] below. *)
Fixpoint iterparse (e : element) : list (event * element) :=
  match e with
  | Element _ _ _ ch _ => (Start, e) :: flat_map iterparse ch ++ [(End, e)]
  end.

(** The part of a tag after the namespace, [{ns}name -> name]. *)
Fixpoint after_brace (s : string) : option string :=
  match s with
  | EmptyString => None
  | String c r => if Ascii.eqb c "}" then Some r else after_brace r
  end.

Definition localname (t : string) : string :=
  match after_brace t with Some r => r | None => t end.

(** lxml feeds the parser 32 KB at a time and hands out the events of
    what has been fed.  At a start event the text that follows the tag,
    and at an end event the tail, is on the element only as far as the
    parser has read: complete inside a chunk, missing or cut short when
    the chunk ends before the text does.  A delivery says, for the i-th
    event of the file and the text or tail the file has there, what the
    loop finds on the element. *)
Definition delivery : Type := nat -> option string -> option string.

Definition at_event (shown : delivery) (i : nat) (ev : event * element)
  : event * element :=
  match ev with
  | (Start, Element t a x ch tl) => (Start, Element t a (shown i x) ch tl)
  | (End, Element t a x ch tl) => (End, Element t a x ch (shown i tl))
  end.

Fixpoint deliver (shown : delivery) (i : nat) (evs : list (event * element))
  : list (event * element) :=
  match evs with
  | [] => []
  | ev :: rest => at_event shown i ev :: deliver shown (S i) rest
  end.

Definition iterparse_chunked (shown : delivery) (root : element)
  : list (event * element) :=
  deliver shown 0 (iterparse root).

(** Nothing is withheld: the file fits one chunk, or no chunk ends
    inside a text. *)
Definition complete (shown : delivery) : Prop := forall i t, shown i t = t.

Definition whole : delivery := fun _ t => t.

(** The text at the event number [k] has not been read yet. *)
Definition withheld_at (k : nat) : delivery :=
  fun i t => if Nat.eqb i k then None else t.

End Xml.

(** ** The static book tables *)

Module Books.

(** [BOOK_NAME_MAP] of the three DOM scripts and [OSIS_TO_NAME] of the
    streaming script: the same 66 entries. *)
Definition BOOK_NAME_MAP : list (string * string) :=
  [ ("Gen","Genesis"); ("Exod","Exodus"); ("Lev","Leviticus"); ("Num","Numbers");
    ("Deut","Deuteronomy"); ("Josh","Joshua"); ("Judg","Judges"); ("Ruth","Ruth");
    ("1Sam","1 Samuel"); ("2Sam","2 Samuel"); ("1Kgs","1 Kings"); ("2Kgs","2 Kings");
    ("1Chr","1 Chronicles"); ("2Chr","2 Chronicles"); ("Ezra","Ezra"); ("Neh","Nehemiah");
    ("Esth","Esther"); ("Job","Job"); ("Ps","Psalms"); ("Prov","Proverbs");
    ("Eccl","Ecclesiastes"); ("Song","Song of Solomon"); ("Isa","Isaiah"); ("Jer","Jeremiah");
    ("Lam","Lamentations"); ("Ezek","Ezekiel"); ("Dan","Daniel"); ("Hos","Hosea");
    ("Joel","Joel"); ("Amos","Amos"); ("Obad","Obadiah"); ("Jonah","Jonah");
    ("Mic","Micah"); ("Nah","Nahum"); ("Hab","Habakkuk"); ("Zeph","Zephaniah");
    ("Hag","Haggai"); ("Zech","Zechariah"); ("Mal","Malachi"); ("Matt","Matthew");
    ("Mark","Mark"); ("Luke","Luke"); ("John","John"); ("Acts","Acts");
    ("Rom","Romans"); ("1Cor","1 Corinthians"); ("2Cor","2 Corinthians"); ("Gal","Galatians");
    ("Eph","Ephesians"); ("Phil","Philippians"); ("Col","Colossians");
    ("1Thess","1 Thessalonians"); ("2Thess","2 Thessalonians"); ("1Tim","1 Timothy");
    ("2Tim","2 Timothy"); ("Titus","Titus"); ("Phlm","Philemon"); ("Heb","Hebrews");
    ("Jas","James"); ("1Pet","1 Peter"); ("2Pet","2 Peter"); ("1John","1 John");
    ("2John","2 John"); ("3John","3 John"); ("Jude","Jude"); ("Rev","Revelation") ].

Definition OSIS_TO_NAME : list (string * string) := BOOK_NAME_MAP.

(** USFX book id -> OSIS short code *)
Definition USFX_TO_OSIS : list (string * string) :=
  [ ("GEN","Gen"); ("EXO","Exod"); ("LEV","Lev"); ("NUM","Num"); ("DEU","Deut");
    ("JOS","Josh"); ("JDG","Judg"); ("RUT","Ruth"); ("1SA","1Sam"); ("2SA","2Sam");
    ("1KI","1Kgs"); ("2KI","2Kgs"); ("1CH","1Chr"); ("2CH","2Chr"); ("EZR","Ezra");
    ("NEH","Neh"); ("EST","Esth"); ("JOB","Job"); ("PSA","Ps"); ("PRO","Prov");
    ("ECC","Eccl"); ("SNG","Song"); ("ISA","Isa"); ("JER","Jer"); ("LAM","Lam");
    ("EZE","Ezek"); ("DAN","Dan"); ("HOS","Hos"); ("JOL","Joel"); ("AMO","Amos");
    ("OBA","Obad"); ("JON","Jonah"); ("MIC","Mic"); ("NAM","Nah"); ("HAB","Hab");
    ("ZEP","Zeph"); ("HAG","Hag"); ("ZEC","Zech"); ("MAL","Mal"); ("MAT","Matt");
    ("MRK","Mark"); ("LUK","Luke"); ("JHN","John"); ("ACT","Acts"); ("ROM","Rom");
    ("1CO","1Cor"); ("2CO","2Cor"); ("GAL","Gal"); ("EPH","Eph"); ("PHP","Phil");
    ("COL","Col"); ("1TH","1Thess"); ("2TH","2Thess"); ("1TI","1Tim"); ("2TI","2Tim");
    ("TIT","Titus"); ("PHM","Phlm"); ("HEB","Heb"); ("JAS","Jas"); ("1PE","1Pet");
    ("2PE","2Pet"); ("1JN","1John"); ("2JN","2John"); ("3JN","3John"); ("JUD","Jude");
    ("REV","Rev") ].

End Books.

(** ** [import_kjv_usfx.py]: the streaming extractor *)

Module ImportKjvUsfx.
Import Py Xml Books.

(** The dict built by [make_row]; [reading_grade] and [text_hash] are
    functions of [text] alone and are left out. *)
Record row : Type := mkRow {
  osis_id : string;
  translation : string;
  book : option string;
  chapter : nat;
  verse : nat;
  ref_display : string;
  text : string;
  char_count : nat;
  word_count : nat
}.

Definition SKIP_NAMES : list string :=
  ["note"; "xref"; "f"; "footnote"; "x"; "rf"; "fn"].

Definition make_row (osis_book : string) (book_name : option string)
    (chapter verse : nat) (text : string) : row :=
  let ref_display :=
    (fmt_opt book_name ++ " " ++ str_of_nat chapter ++ ":" ++ str_of_nat verse)%string in
  let clean := strip (collapse_ws text) in
  {| osis_id := (osis_book ++ "." ++ str_of_nat chapter ++ "." ++ str_of_nat verse)%string;
     translation := "KJV";
     book := book_name;
     chapter := chapter;
     verse := verse;
     ref_display := ref_display;
     text := clean;
     char_count := String.length clean;
     word_count := Py.word_count clean |}.

(** The local variables of [parse_usfx_stream]. *)
Record state : Type := mkState {
  current_book_code : option string;
  current_book_name : option string;
  current_osis_book : option string;
  current_chapter : option nat;
  current_verse : option nat;
  buffer : list string
}.

Definition initial : state :=
  {| current_book_code := None; current_book_name := None;
     current_osis_book := None; current_chapter := None;
     current_verse := None; buffer := [] |}.

(** [elem.attrib.get("id") or elem.attrib.get("number") or ""] *)
Definition marker_number (e : element) : string :=
  match dict_get (attrib e) "id" with
  | Some (String c r) => String c r
  | _ => match dict_get (attrib e) "number" with
         | Some (String c r) => String c r
         | _ => EmptyString
         end
  end.

(** [" ".join(s.strip() for s in buffer if s and s.strip())] *)
Definition joined (buf : list string) : string :=
  join " " (map strip (filter (fun s => nonempty s && nonempty (strip s)) buf)).

(** The guarded [yield make_row(...)] that occurs three times in the loop:
    [if current_verse is not None and buffer and current_osis_book and
     current_chapter]. *)
Definition flush (st : state) : list row :=
  match current_verse st, buffer st, current_osis_book st, current_chapter st with
  | Some v, _ :: _, Some (String a b), Some (S c) =>
      [make_row (String a b) (current_book_name st) (S c) v (joined (buffer st))]
  | _, _, _, _ => []
  end.

(** [if current_verse and current_chapter and name not in SKIP_NAMES] *)
Definition capturing (st : state) (name : string) : bool :=
  truthy_int (current_verse st) && truthy_int (current_chapter st)
  && negb (mem_str name SKIP_NAMES).

(** [if s and s.strip(): buffer.append(s)] *)
Definition append_if_text (st : state) (o : option string) : state :=
  match o with
  | Some s =>
      if nonempty s && nonempty (strip s)
      then {| current_book_code := current_book_code st;
              current_book_name := current_book_name st;
              current_osis_book := current_osis_book st;
              current_chapter := current_chapter st;
              current_verse := current_verse st;
              buffer := buffer st ++ [s] |}
      else st
  | None => st
  end.

Definition capture (st : state) (name : string) (o : option string) : state :=
  if capturing st name then append_if_text st o else st.

Definition is_none {A} (o : option A) : bool :=
  match o with None => true | Some _ => false end.

(** [USFX_TO_OSIS.get(code)] for the value of [elem.attrib.get("id")]. *)
Definition lookup_osis (code : option string) : option string :=
  match code with Some k => dict_get USFX_TO_OSIS k | None => None end.

(** One iteration of the [for event, elem in etree.iterparse(...)] loop:
    the next state and the rows yielded during the iteration. *)
Definition step (st : state) (ev : event * element) : state * list row :=
  let '(kind, elem) := ev in
  let name := localname (tag elem) in
  match kind with
  | Start =>
      if String.eqb name "book" && is_none (current_osis_book st) then
        let code := dict_get (attrib elem) "id" in
        let osis := lookup_osis code in
        let bname :=
          if truthy_str osis
          then match osis with
               | Some o => Some (dict_get_default OSIS_TO_NAME o o)
               | None => None
               end
          else None in
        ({| current_book_code := code; current_book_name := bname;
            current_osis_book := osis;
            current_chapter := current_chapter st;
            current_verse := current_verse st;
            buffer := buffer st |}, [])
      else if mem_str name ["c"; "chapter"] then
        let chap := digits_or_zero (marker_number elem) in
        if 0 <? chap then
          ({| current_book_code := current_book_code st;
              current_book_name := current_book_name st;
              current_osis_book := current_osis_book st;
              current_chapter := Some chap;
              current_verse := None;
              buffer := [] |}, flush st)
        else (st, [])
      else if mem_str name ["v"; "verse"] then
        let vnum := digits_or_zero (marker_number elem) in
        let '(st1, out) :=
          if 0 <? vnum then
            ({| current_book_code := current_book_code st;
                current_book_name := current_book_name st;
                current_osis_book := current_osis_book st;
                current_chapter := current_chapter st;
                current_verse := Some vnum;
                buffer := [] |}, flush st)
          else (st, []) in
        (capture st1 name (Xml.text elem), out)
      else (capture st name (Xml.text elem), [])
  | End =>
      let st1 := capture st name (tail elem) in
      if String.eqb name "book" then (initial, flush st1) else (st1, [])
  end.

(** The whole loop over a list of events: final state and rows yielded. *)
Fixpoint exec (st : state) (evs : list (event * element)) : state * list row :=
  match evs with
  | [] => (st, [])
  | ev :: rest =>
      let '(st1, out1) := step st ev in
      let '(st2, out2) := exec st1 rest in
      (st2, out1 ++ out2)
  end.

Definition run (st : state) (evs : list (event * element)) : list row :=
  snd (exec st evs).

(** [parse_usfx_stream(path)] for a file whose document element is [root]. *)
Definition parse_usfx_stream (root : element) : list row :=
  run initial (iterparse root).

(** [parse_usfx_stream(path)] for a file of any size, under a delivery. *)
Definition parse_usfx_chunked (shown : delivery) (root : element) : list row :=
  run initial (iterparse_chunked shown root).

(** The loop of [main]: rows with an empty text are skipped, the others
    are written. *)
Definition written (root : element) : list row :=
  filter (fun r => nonempty (text r)) (parse_usfx_stream root).

(** The events at which a row can be yielded: the start of a chapter or
    verse marker and the end of a book. *)
Definition is_boundary (ev : event * element) : bool :=
  let '(kind, elem) := ev in
  let name := localname (tag elem) in
  match kind with
  | Start => mem_str name ["c"; "chapter"; "v"; "verse"]
  | End => String.eqb name "book"
  end.

(** The state a flush at event [ev] looks at: at an end event the tail
    has been collected first. *)
Definition at_flush (st : state) (ev : event * element) : state :=
  let '(kind, elem) := ev in
  match kind with
  | Start => st
  | End => capture st (localname (tag elem)) (tail elem)
  end.

(** The event does not open a book of the table: if its element is a
    book, the id is not a key of [USFX_TO_OSIS]. *)
Definition unknown_book (ev : event * element) : Prop :=
  localname (tag (snd ev)) = "book" ->
  lookup_osis (dict_get (attrib (snd ev)) "id") = None.

(** Every buffered piece has something left after trimming. *)
Definition buffer_ok (st : state) : Prop :=
  Forall (fun s => nonempty (strip s) = true) (buffer st).

(** Sample documents. *)

Definition milestone (t : string) (n : string) (tl : option string) : element :=
  Element t [("id", n)] None [] tl.

(** <book id="GEN"><c id="1"/><v id="1"/>In the beginning
      <f>a note <b>bold</b> more</f> God created.</book> *)
Definition doc_note : element :=
  Element "book" [("id", "GEN")] None
    [ milestone "c" "1" None;
      milestone "v" "1" (Some "In the beginning");
      Element "f" [] (Some "a note ")
        [Element "b" [] (Some "bold") [] (Some " more")]
        (Some " God created.") ]
    None.

(** <book id="u"><c id="c"/><v id="v1"/><v id="v2"/>t</book> *)
Definition blank_then_text (u : string) (c v1 v2 : nat) (t : string) : element :=
  Element "book" [("id", u)] None
    [ milestone "c" (str_of_nat c) None;
      milestone "v" (str_of_nat v1) None;
      milestone "v" (str_of_nat v2) (Some t) ]
    None.

(** <book id="XYZ"><c id="1"/><v id="1"/>Some text</book> *)
Definition doc_unknown_book : element :=
  Element "book" [("id", "XYZ")] None
    [ milestone "c" "1" None;
      milestone "v" "1" (Some "Some text") ]
    None.

End ImportKjvUsfx.

(** ** [import_kjv.py]: the one-pass DOM extractor *)

Module ImportKjv.
Import Py Xml Books.

(** The dict yielded by [parse_osis]; [reading_grade] and [text_hash] are
    functions of [text] alone and are left out. *)
Record row : Type := mkRow {
  osis_id : string;
  translation : string;
  book : string;
  chapter : nat;
  verse : nat;
  ref_display : string;
  text : string;
  char_count : nat;
  word_count : nat
}.

(** [re.sub(r"\s+", " ", "".join(node.itertext())).strip()] *)
Definition extract_plain_text (node : element) : string :=
  strip (collapse_ws (concat_all (itertext node))).

(** [tree.xpath("//verse[@osisID]")]: the elements named [verse], in no
    namespace, that carry the attribute, each with the attribute's value
    ([v.attrib["osisID"]]). *)
Definition select_verses (root : element) : list (element * string) :=
  flat_map (fun e =>
    if String.eqb (tag e) "verse"
    then match dict_get (attrib e) "osisID" with
         | Some i => [(e, i)]
         | None => []
         end
    else []) (iter root).

(** The body of the [for v in ...] loop; [None] is [continue]. *)
Definition verse_row (v : element) (osis_id : string) : option row :=
  let parts := split_on "." osis_id in
  if List.length parts <? 3 then None
  else
    let book_code := nth 0 parts EmptyString in
    let chapter := digits_or_zero (nth 1 parts EmptyString) in
    let verse := digits_or_zero (nth 2 parts EmptyString) in
    let book := dict_get_default BOOK_NAME_MAP book_code book_code in
    let ref_display :=
      (book ++ " " ++ str_of_nat chapter ++ ":" ++ str_of_nat verse)%string in
    let text := extract_plain_text v in
    Some {| osis_id := osis_id; translation := "KJV"; book := book;
            chapter := chapter; verse := verse; ref_display := ref_display;
            text := text; char_count := String.length text;
            word_count := Py.word_count text |}.

Definition yielded {A} (o : option A) : list A :=
  match o with Some x => [x] | None => [] end.

Definition parse_osis (root : element) : list row :=
  flat_map (fun '(v, i) => yielded (verse_row v i)) (select_verses root).

(** <osis><verse osisID="Gen.1.1">  </verse>
          <verse osisID="Gen.1.2">And the earth</verse></osis> *)
Definition doc_blank_verse : element :=
  Element "osis" [] None
    [ Element "verse" [("osisID", "Gen.1.1")] (Some "  ") [] None;
      Element "verse" [("osisID", "Gen.1.2")] (Some "And the earth") [] None ]
    None.

End ImportKjv.

(** ** [import_kjv_osis.py]: the patch-if-empty DOM extractor *)

Module ImportKjvOsis.
Import Py Xml Books.

(** [tree.xpath("//*[local-name()='verse' and @osisID]")] *)
Definition select_verses (root : element) : list (element * string) :=
  flat_map (fun e =>
    if String.eqb (localname (tag e)) "verse"
    then match dict_get (attrib e) "osisID" with
         | Some i => [(e, i)]
         | None => []
         end
    else []) (iter root).

Definition extract_plain_text (node : element) : string :=
  let text := concat_all (itertext node) in
  strip (collapse_ws text).

(** The loop body: as in [import_kjv.py], with the extra
    [if not text: continue]. *)
Definition verse_row (v : element) (osis_id : string) : option ImportKjv.row :=
  let parts := split_on "." osis_id in
  if List.length parts <? 3 then None
  else
    let book_code := nth 0 parts EmptyString in
    let chapter := digits_or_zero (nth 1 parts EmptyString) in
    let verse := digits_or_zero (nth 2 parts EmptyString) in
    let book := dict_get_default BOOK_NAME_MAP book_code book_code in
    let ref_display :=
      (book ++ " " ++ str_of_nat chapter ++ ":" ++ str_of_nat verse)%string in
    let text := extract_plain_text v in
    if negb (nonempty text) then None
    else
      Some {| ImportKjv.osis_id := osis_id; ImportKjv.translation := "KJV";
              ImportKjv.book := book; ImportKjv.chapter := chapter;
              ImportKjv.verse := verse; ImportKjv.ref_display := ref_display;
              ImportKjv.text := text; ImportKjv.char_count := String.length text;
              ImportKjv.word_count := Py.word_count text |}.

Definition parse_osis (root : element) : list ImportKjv.row :=
  flat_map (fun '(v, i) => ImportKjv.yielded (verse_row v i)) (select_verses root).

End ImportKjvOsis.

(** ** IEEE-754 binary64 arithmetic, as far as [familiarity_score] needs it *)

Module Float64.
Local Open Scope Q_scope.

(** Nearest integer, ties to the even one. *)
Definition round_half_even (q : Q) : Z :=
  let f := Qfloor q in
  let r := q - inject_Z f in
  match Qcompare r (1 # 2) with
  | Lt => f
  | Gt => (f + 1)%Z
  | Eq => if Z.even f then f else (f + 1)%Z
  end.

(** [floor (log2 q)] for a positive rational. *)
Definition ilog2 (q : Q) : Z :=
  let e := (Z.log2 (Qnum q) - Z.log2 (Zpos (Qden q)))%Z in
  if Qle_bool (2 ^ e) q then e else (e - 1)%Z.

(** The binary64 value nearest to [q], ties to even (53-bit significand).
    Overflow and subnormal numbers are out of the model's range. *)
Definition rn (q : Q) : Q :=
  match Qnum q with
  | Z0 => 0
  | _ =>
      let a := Qabs q in
      let e := ilog2 a in
      let m := round_half_even (a * 2 ^ (52 - e)) in
      let r := Qred (inject_Z m * 2 ^ (e - 52)) in
      if Qle_bool 0 q then r else - r
  end.

Definition fadd (x y : Q) : Q := rn (x + y).
Definition fdiv (x y : Q) : Q := rn (x / y).

(** [round(x, 3)] of CPython: the decimal with three places nearest to the
    exact value of [x], ties to even, read back as a binary64 value. *)
Definition round3 (x : Q) : Q :=
  rn (inject_Z (round_half_even (x * 1000)) / 1000).

Definition fmin (x y : Q) : Q := if Qle_bool x y then x else y.
Definition fmax (x y : Q) : Q := if Qle_bool y x then x else y.

End Float64.

(** ** [etl_bibles_to_supabase.py]: DOM extractor and annotation engine *)

Module Etl.
Import Py Xml Books.

(** *** Configuration *)

Definition THEME_DESCRIPTIONS : list (string * string) :=
  [ ("comfort", "assurance of God's care and relief from worry and burdens");
    ("hope", "expectation of God's future goodness and promises");
    ("trust", "placing confidence in God rather than self or fear");
    ("wisdom", "guidance, understanding, prudence, counsel for living");
    ("forgiveness", "pardoning sin, mercy, letting go of offense");
    ("love", "love of God and neighbor, compassion, kindness");
    ("joy", "gladness, rejoicing, praise, thanksgiving");
    ("strength", "courage, perseverance, endurance through trials");
    ("guidance", "direction, path, lamp, shepherding and leading");
    ("peace", "rest, calm, stillness, absence of turmoil");
    ("repentance", "turning from sin, confession, renewal");
    ("healing", "restoration, recovery, God's care in sickness");
    ("generosity", "giving, sharing, kindness to others in need");
    ("patience", "waiting, longsuffering, self-control, restraint");
    ("perseverance", "steadfastness under pressure, not giving up") ].

(** *** Safety patterns

    Each pattern has the shape [\b(a1|a2|...)\b] with [re.I]; it is given
    by the list of its alternatives. *)

Definition RE_VIOLENCE : list string :=
  ["slay"; "sword"; "blood"; "war"; "kill"; "stone"; "smite"; "spear"; "battle"; "strike"].
Definition RE_SEXUAL : list string :=
  ["adulter"; "fornication"; "prostitut"; "lust"; "naked"; "whore"; "harlot"].
Definition RE_REBUKE : list string :=
  ["woe"; "hypocrite"; "wrath"; "abomination"; "rebuke"; "condemn"].
Definition RE_SLAVERY : list string :=
  ["slave"; "bondservant"; "slave-master"; "slaves"; "bondservants"].

Definition isword_opt (o : option ascii) : bool :=
  match o with Some c => isword c | None => false end.

(** [\b] between the character before a position and the one after it
    (the ends of the text count as non-word). *)
Definition word_boundary (before after : option ascii) : bool :=
  xorb (isword_opt before) (isword_opt after).

Definition head_char (s : string) : option ascii :=
  match s with String c _ => Some c | EmptyString => None end.

Fixpoint last_char (s : string) : option ascii :=
  match s with
  | EmptyString => None
  | String c EmptyString => Some c
  | String _ r => last_char r
  end.

(** Matches the literal [p] at the start of [s], ignoring case; returns the
    last character consumed (or [before] when [p] is empty) and the rest. *)
Fixpoint match_literal (p s : string) (before : option ascii)
  : option (option ascii * string) :=
  match p, s with
  | EmptyString, _ => Some (before, s)
  | String a p', String b s' =>
      if Ascii.eqb (lower_char a) (lower_char b)
      then match_literal p' s' (Some b)
      else None
  | String _ _, EmptyString => None
  end.

(** [\b alt \b] anchored at a position whose preceding character is
    [before]. *)
Definition match_at (before : option ascii) (s : string) (alt : string) : bool :=
  word_boundary before (head_char s)
  && match match_literal alt s before with
     | Some (last, rest) => word_boundary last (head_char rest)
     | None => false
     end.

(** [bool(pattern.search(s))]: some position matches some alternative. *)
Fixpoint search_from (alts : list string) (before : option ascii) (s : string) : bool :=
  existsb (match_at before s) alts
  || match s with
     | EmptyString => false
     | String c r => search_from alts (Some c) r
     end.

Definition re_search (alts : list string) (s : string) : bool :=
  search_from alts None s.

Record safety : Type := mkSafety {
  violence : bool;
  sexual : bool;
  slavery : bool;
  harsh_rebuke : bool;
  kid_safe : bool
}.

Definition safety_flags (text : string) : safety :=
  let t := text in
  let violence := re_search RE_VIOLENCE t in
  let sexual := re_search RE_SEXUAL t in
  let rebuke := re_search RE_REBUKE t in
  let slavery := re_search RE_SLAVERY t in
  let kid_safe := negb (violence || sexual) in
  {| violence := violence; sexual := sexual; slavery := slavery;
     harsh_rebuke := rebuke; kid_safe := kid_safe |}.

(** *** OSIS parsing *)

Record row : Type := mkRow {
  osis_id : string;
  book : string;
  chapter : Z;
  verse : nat;
  ref_display : string;
  text : string
}.

Definition extract_plain_text (node : element) : string :=
  let text := concat_all (itertext node) in
  strip (collapse_ws text).

(** The loop body of [parse_osis]; [None] is [continue].  The chapter is
    [int(parts[1])], and on [ValueError] the digits of the token. *)
Definition verse_row (v : element) (osis_id : string) : option row :=
  let text := extract_plain_text v in
  let parts := split_on "." osis_id in
  if List.length parts <? 3 then None
  else
    let book_code := nth 0 parts EmptyString in
    let chapter :=
      match int_of_str (nth 1 parts EmptyString) with
      | Some z => z
      | None => Z.of_nat (digits_or_zero (nth 1 parts EmptyString))
      end in
    let verse_num := digits_or_zero (nth 2 parts EmptyString) in
    let book := dict_get_default BOOK_NAME_MAP book_code book_code in
    let ref_display :=
      (book ++ " " ++ str_of_Z chapter ++ ":" ++ str_of_nat verse_num)%string in
    Some {| osis_id := osis_id; book := book; chapter := chapter;
            verse := verse_num; ref_display := ref_display; text := text |}.

Definition parse_osis (root : element) : list row :=
  flat_map (fun '(v, i) => ImportKjv.yielded (verse_row v i))
           (ImportKjv.select_verses root).

(** *** Familiarity *)

(** [familiarity_score]: [L = len(text)],
    [base = 0.5 + max(0, 140 - L) / 400.0],
    [max(0.0, min(1.0, round(base, 3)))], in binary64 arithmetic.
    [familiarity_of_k] is the part after [max(0, 140 - L)]. *)
Definition familiarity_of_k (k : Z) : Q :=
  let base := Float64.fadd (1 # 2) (Float64.fdiv (inject_Z k) 400) in
  Float64.fmax 0 (Float64.fmin 1 (Float64.round3 base)).

Definition familiarity_of_len (L : nat) : Q :=
  familiarity_of_k (Z.max 0 (140 - Z.of_nat L)).

Definition familiarity_score (text : string) : Q :=
  familiarity_of_len (String.length text).

(** The words of the spec: [clamp(0.5 + max(0, 140 - L)/400, 0, 1)],
    rounded to 3 decimals, in the same arithmetic; and the value of the
    formula in exact arithmetic. *)
Definition clamp01 (x : Q) : Q := Float64.fmax 0 (Float64.fmin 1 x).

Definition familiarity_spec_of_k (k : Z) : Q :=
  Float64.round3 (clamp01 (Float64.fadd (1 # 2) (Float64.fdiv (inject_Z k) 400))).

Definition familiarity_spec (L : nat) : Q :=
  familiarity_spec_of_k (Z.max 0 (140 - Z.of_nat L)).

Definition familiarity_exact_of_k (k : Z) : Q :=
  ((1 # 2) + inject_Z k / 400)%Q.

Definition familiarity_exact (L : nat) : Q :=
  familiarity_exact_of_k (Z.max 0 (140 - Z.of_nat L)).

(** The checks made on each value of [k = max(0, 140 - L)]. *)
Definition familiarity_checks (n : nat) : bool :=
  Qeq_bool (familiarity_of_k (Z.of_nat n)) (familiarity_spec_of_k (Z.of_nat n))
  && Qle_bool 0 (familiarity_of_k (Z.of_nat n))
  && Qle_bool (familiarity_of_k (Z.of_nat n)) 1
  && Qle_bool (familiarity_of_k (Z.of_nat n)) (familiarity_of_k (Z.of_nat n + 1))
  && Qle_bool (Qabs (familiarity_of_k (Z.of_nat n)
                     - familiarity_exact_of_k (Z.of_nat n))) (501 # 1000000).

(** The words of the spec, in exact arithmetic:
    [clamp(0.5 + max(0, 140 - L)/400, 0, 1)], and what it is to be that
    value rounded to 3 decimals: [s] is, up to the spacing of binary64
    numbers below 1, a count [n] of thousandths, and [n/1000] is a
    nearest three-decimal value of [y]. *)
Definition clamp_exact (x : Q) : Q :=
  if Qle_bool x 0 then 0 else if Qle_bool 1 x then 1 else x.

Definition familiarity_formula_of_k (k : Z) : Q :=
  clamp_exact ((1 # 2) + inject_Z k / 400)%Q.

Definition familiarity_formula (L : nat) : Q :=
  familiarity_formula_of_k (Z.max 0 (140 - Z.of_nat L)).

Definition rounded_to_3_decimals (s y : Q) : Prop :=
  exists n : Z,
    (Qabs (inject_Z n / 1000 - y) <= 1 # 2000)%Q
    /\ (Qabs (s - inject_Z n / 1000) <= 1 # 18014398509481984)%Q.

(** The check of [rounded_to_3_decimals] on a value of [k], with the
    nearest count of thousandths of the score as [n]. *)
Definition thousandths (s : Q) : Z := Qfloor (s * 1000 + (1 # 2))%Q.

Definition decimals_check (n : nat) : bool :=
  let s := familiarity_of_k (Z.of_nat n) in
  let t := (inject_Z (thousandths s) / 1000)%Q in
  Qle_bool (Qabs (t - familiarity_formula_of_k (Z.of_nat n))) (1 # 2000)
  && Qle_bool (Qabs (s - t)) (1 # 18014398509481984).

(** Two sample verses: 26 characters, and 150 characters. *)
Definition short_text : string := "In the beginning bold more".
Definition long_text : string :=
  String.concat EmptyString (repeat "0123456789" 15).

(** *** Similarity and classification *)

(** A fingerprint: a row of float values. *)
Definition vec : Type := list Q.

Fixpoint dot (a b : vec) : Q :=
  match a, b with
  | x :: a', y :: b' => (x * y + dot a' b')%Q
  | _, _ => 0%Q
  end.

(** [(M @ v).tolist()], in exact arithmetic. *)
Definition matvec (M : list vec) (v : vec) : list Q :=
  map (fun r => dot r v) M.

(** A stable ascending sort of the indices by value: one admissible
    [np.argsort]. *)
Fixpoint insert_idx (xs : list Q) (i : nat) (l : list nat) : list nat :=
  match l with
  | [] => [i]
  | j :: r =>
      if Qle_bool (nth j xs 0%Q) (nth i xs 0%Q) then j :: insert_idx xs i r
      else i :: j :: r
  end.

Definition argsort_stable (xs : list Q) : list nat :=
  fold_left (fun acc i => insert_idx xs i acc) (seq 0 (List.length xs)) [].

Definition DAYPART_LABELS : list string :=
  [ "morning: dawn, new mercies, light, beginning";
    "day: labor, walking, sunshine, activity";
    "evening: rest from labor, sunset, reflection";
    "night: darkness, fear, protection, rest, peace in the night" ].

Definition TONE_LABELS_DESC : list string :=
  [ "calming: gentle reassurance, peace, rest, comfort";
    "encouraging: hope, promise, joy, uplift";
    "corrective: rebuke, warning, command to change";
    "celebratory: praise, thanksgiving, rejoicing";
    "contemplative: wisdom, meditate, ponder, understanding" ].

Definition MOOD_LABELS : list string :=
  [ "anxious: worry, fear, burdened, need reassurance";
    "tired: weary, exhausted, need strength and rest";
    "grateful: thankful, praise, appreciation";
    "hopeful: expectation of good, trust in future";
    "sad: sorrowful, downcast, lament";
    "lonely: alone, abandoned, need presence";
    "guilty: ashamed, confession, repentance";
    "angry: wrath, frustration, need gentleness";
    "bereaved: grief, loss, mourning" ].

(** [l.split(":")[0]] *)
Definition before_colon (l : string) : string :=
  nth 0 (split_on ":" l) EmptyString.

Definition sum_R (l : list R) : R := fold_right Rplus 0%R l.

Definition max_Q (l : list Q) : Q :=
  match l with
  | [] => 0%Q
  | x :: r => fold_left (fun m y => if Qle_bool m y then y else m) r x
  end.

(** *** numpy's float32 arithmetic

    [softmax] computes on float32 arrays.  The operations it uses are
    taken by their contract, the standard model of IEEE-754 arithmetic:
    subtraction, summation and division return the exact result up to a
    relative error of the unit roundoff [u32 = 2^-24] per operation (a
    quotient also up to [tiny32 = 2^-150], half the smallest subnormal
    number); [np.exp], which need not be correctly rounded, returns a
    value that is never negative and, on [-4, 0], within the relative
    error [exp_err = 2^-20] (16 units in the last place) of the
    exponential.  Overflow is outside the model. *)
Record numpy32 : Type := mkNumpy {
  np_sub : R -> R -> R;
  np_exp : R -> R;
  np_sum : list R -> R;
  np_div : R -> R -> R
}.

Definition u32 : R := (/ 16777216)%R.
Definition tiny32 : R := (/ 1427247692705959881058285969449495136382746624)%R.
Definition exp_err : R := (/ 1048576)%R.

Record ieee32 (np : numpy32) : Prop := mkIeee {
  sub_ok : forall a b,
    (Rabs (np_sub np a b - (a - b)) <= u32 * Rabs (a - b))%R;
  exp_nonneg : forall x, (0 <= np_exp np x)%R;
  exp_ok : forall x,
    (-4 <= x <= 0)%R -> (Rabs (np_exp np x - exp x) <= exp_err * exp x)%R;
  sum_ok : forall l,
    Forall (fun x => (0 <= x)%R) l -> List.length l <= 8 ->
    (Rabs (np_sum np l - sum_R l) <= INR (List.length l) * u32 * sum_R l)%R;
  div_ok : forall a b,
    (0 <= a)%R -> (0 < b)%R ->
    (0 <= np_div np a b)%R
    /\ (Rabs (np_div np a b - a / b) <= u32 * (a / b) + tiny32)%R
}.

(** Arithmetic without rounding error, for evaluation. *)
Definition exact_numpy : numpy32 :=
  {| np_sub := Rminus; np_exp := exp; np_sum := sum_R; np_div := Rdiv |}.

(** [softmax(x)]: [x = np.asarray(x, dtype="float32")] (the scores are
    float32 values already), [x = x - x.max()], [e = np.exp(x)],
    [(e / e.sum()).tolist()]. *)
Definition softmax (np : numpy32) (x : list Q) : list R :=
  let m := Q2R (max_Q x) in
  let x := map (fun xi => np_sub np (Q2R xi) m) x in
  let e := map (np_exp np) x in
  let s := np_sum np e in
  map (fun ei => np_div np ei s) e.

(** The words of the spec: the softmax of a score vector, in exact
    arithmetic. *)
Definition softmax_spec (x : list Q) : list R :=
  map (fun xi => (exp (Q2R xi) / sum_R (map (fun y => exp (Q2R y)) x))%R) x.

(** Scores that are cosines: between -1 and 1. *)
Definition cosines (x : list Q) : Prop :=
  Forall (fun s => (-1 <= Q2R s <= 1)%R) x.

(** Every entry of [ps] is positive and within a hundred-thousandth of
    the entry of [qs], relative to it. *)
Definition close_to (ps qs : list R) : Prop :=
  Forall2 (fun p q => (0 < p)%R /\ (Rabs (p - q) <= q / 100000)%R) ps qs.

(** The fixed priors [[0.3,0.4,0.2,0.1]] and [[0.4,0.3,0.1,0.1,0.1]]:
    binary64 literals. *)
Definition DAYPART_PRIOR : list Q :=
  map Float64.rn [3 # 10; 4 # 10; 2 # 10; 1 # 10]%Q.
Definition TONE_PRIOR : list Q :=
  map Float64.rn [4 # 10; 3 # 10; 1 # 10; 1 # 10; 1 # 10]%Q.

Section Provider.

(** [embed_texts], whichever branch it takes, maps a list of texts to one
    row per text; [np.argsort] returns a permutation of the indices that
    puts the values in ascending order. *)
Variable np : numpy32.
Variable embed_texts : list string -> list vec.
Variable argsort : list Q -> list nat.

(** The global [_tag_centroids]: [None], or the dict built on first use. *)
Definition centroids : Type := list (string * vec).

Definition build_tag_centroids (cache : option centroids)
  : centroids * option centroids :=
  match cache with
  | Some c => (c, cache)
  | None =>
      let labels := map (fun '(tag, desc) => (tag ++ ": " ++ desc)%string)
                        THEME_DESCRIPTIONS in
      let theme_vecs := embed_texts labels in
      let c := combine (map fst THEME_DESCRIPTIONS) theme_vecs in
      (c, Some c)
  end.

Definition daypart_probs_from_semantics (v_embed : option vec) : list R :=
  match v_embed with
  | None => map Q2R DAYPART_PRIOR
  | Some v =>
      let cents := embed_texts DAYPART_LABELS in
      let sims := matvec cents v in
      softmax np sims
  end.

Definition tone_probs_from_semantics (v_embed : option vec) : list R :=
  match v_embed with
  | None => map Q2R TONE_PRIOR
  | Some v =>
      let cents := embed_texts TONE_LABELS_DESC in
      let sims := matvec cents v in
      softmax np sims
  end.

Definition any_in (ws : list string) (t : string) : bool :=
  existsb (fun w => contains w t) ws.

Definition push_if (b : bool) (x : string) (l : list string) : list string :=
  if b then l ++ [x] else l.

(** The test of the [for idx in order[:top_k]] loop: an index is kept
    unless [sims[idx] < 0.25]. *)
Definition above_floor (sims : list Q) (idx : nat) : bool :=
  Qle_bool (1 # 4) (nth idx sims 0%Q).

Definition theme_tags_from_semantics (cache : option centroids)
    (v_embed : option vec) (text : string) (top_k : nat)
  : list string * option centroids :=
  match v_embed with
  | None =>
      let t := lower text in
      let picks := [] in
      let picks := push_if (any_in ["peace"; "rest"; "refuge"; "care"; "burden"; "anxiety"] t)
                           "comfort" picks in
      let picks := push_if (contains "hope" t || contains "promise" t) "hope" picks in
      let picks := push_if (contains "trust" t || contains "refuge" t || contains "shield" t)
                           "trust" picks in
      let picks := push_if (contains "wisdom" t || contains "understanding" t)
                           "wisdom" picks in
      let picks := match picks with [] => ["comfort"] | _ => picks end in
      (firstn top_k picks, cache)
  | Some v =>
      let '(cents, cache') := build_tag_centroids cache in
      let names := map fst cents in
      let M := map snd cents in
      let sims := matvec M v in
      let order := rev (argsort sims) in
      let out := map (fun idx => nth idx names EmptyString)
                     (filter (above_floor sims) (firstn top_k order)) in
      (match out with [] => ["comfort"] | _ => out end, cache')
  end.

Definition mood_tags_from_semantics (v_embed : option vec) (text : string)
    (top_k : nat) : list string :=
  let labels := MOOD_LABELS in
  let names := map before_colon labels in
  match v_embed with
  | None =>
      let t := lower text in
      let picks := [] in
      let picks := push_if (any_in ["fear"; "anxiety"; "care"; "trouble"] t) "anxious" picks in
      let picks := push_if (contains "weary" t || contains "rest" t) "tired" picks in
      let picks := push_if (contains "praise" t || contains "thanks" t) "grateful" picks in
      let picks := push_if (contains "hope" t || contains "joy" t) "hopeful" picks in
      firstn top_k (match picks with [] => ["hopeful"] | _ => picks end)
  | Some v =>
      let cents := embed_texts labels in
      let sims := matvec cents v in
      let order := rev (argsort sims) in
      map (fun i => nth i names EmptyString) (firstn top_k order)
  end.

(** The dict [ann] built for one verse by [process_annotations]. *)
Record annotation : Type := mkAnn {
  themes : list string;
  moods : list string;
  daypart_probs : list R;
  tone_probs : list R;
  safety_of : safety;
  familiarity : Q
}.

Definition annotate (cache : option centroids) (v_embed : option vec)
    (text : string) : annotation * option centroids :=
  let '(th, cache') := theme_tags_from_semantics cache v_embed text 3 in
  ({| themes := th;
      moods := mood_tags_from_semantics v_embed text 2;
      daypart_probs := daypart_probs_from_semantics v_embed;
      tone_probs := tone_probs_from_semantics v_embed;
      safety_of := safety_flags text;
      familiarity := familiarity_score text |}, cache').

(** [process_annotations]: [vecs = embed_texts(texts)] when embeddings are
    in use, and [v_embed = vecs[i]] for the i-th verse. *)
Fixpoint annotate_all (cache : option centroids) (vecs : option (list vec))
    (i : nat) (texts : list string) : list annotation * option centroids :=
  match texts with
  | [] => ([], cache)
  | t :: rest =>
      let v_embed := match vecs with
                     | Some vs => Some (nth i vs [])
                     | None => None
                     end in
      let '(a, cache1) := annotate cache v_embed t in
      let '(r, cache2) := annotate_all cache1 vecs (S i) rest in
      (a :: r, cache2)
  end.

Definition process_annotations (cache : option centroids)
    (texts : list string) (use_embeddings : bool)
  : list annotation * option centroids :=
  let vecs := if use_embeddings then Some (embed_texts texts) else None in
  annotate_all cache vecs 0 texts.

End Provider.

(** The contract of a fingerprint provider: one row per text. *)
Definition embed_rows (embed_texts : list string -> list vec) : Prop :=
  forall ts, List.length (embed_texts ts) = List.length ts.

Definition score (xs : list Q) (i : nat) : Q := nth i xs 0%Q.

(** The contract of [np.argsort]: a permutation of the indices that puts
    the values in ascending order (the order among equal values is not
    specified). *)
Definition argsort_ok (argsort : list Q -> list nat) : Prop :=
  forall xs,
    Permutation (argsort xs) (seq 0 (List.length xs))
    /\ StronglySorted Qle (map (score xs) (argsort xs)).

(** The global cache is empty or holds what [build_tag_centroids] built. *)
Definition cache_ok (embed_texts : list string -> list vec)
    (cache : option centroids) : Prop :=
  cache = None \/ cache = Some (fst (build_tag_centroids embed_texts None)).

Definition theme_names : list string := map fst THEME_DESCRIPTIONS.

(** A toy provider, for evaluation: one coordinate, the length of the
    text in hundredths. *)
Definition toy_embed (ts : list string) : list vec :=
  map (fun t => [Z.of_nat (String.length t) # 100]) ts.

End Etl.

(** ** The same verses in both dialects *)

Module CrossDialect.
Import Py Xml Books.

(** A verse: its number and its content, which is a leading text followed
    by inline elements (each with its own text, children and tail). *)
Record verse_src : Type := mkVerse {
  vs_num : nat;
  vs_text : string;
  vs_inline : list element
}.

Record chapter_src : Type := mkChapter {
  cs_num : nat;
  cs_verses : list verse_src
}.

(** A book is named by its USFX id in one dialect and by its OSIS code in
    the other. *)
Record book_src : Type := mkBook {
  bs_usfx : string;
  bs_osis : string;
  bs_chapters : list chapter_src
}.

(** A parsed file has no empty text node. *)
Definition text_node (t : string) : option string :=
  if nonempty t then Some t else None.

Definition verse_id (o : string) (c v : nat) : string :=
  (o ++ "." ++ str_of_nat c ++ "." ++ str_of_nat v)%string.

(** DOM dialect: <verse osisID="Book.C.V">content</verse>, inside one
    <chapter> per chapter and one <div> per book. *)
Definition osis_verse (o : string) (c : nat) (v : verse_src) : element :=
  Element "verse" [("osisID", verse_id o c (vs_num v))]
          (text_node (vs_text v)) (vs_inline v) None.

Definition osis_chapter (o : string) (c : chapter_src) : element :=
  Element "chapter" [("osisID", (o ++ "." ++ str_of_nat (cs_num c))%string)] None
          (map (osis_verse o (cs_num c)) (cs_verses c)) None.

Definition osis_book (b : book_src) : element :=
  Element "div" [("type", "book"); ("osisID", bs_osis b)] None
          (map (osis_chapter (bs_osis b)) (bs_chapters b)) None.

Definition encode_osis (bs : list book_src) : element :=
  Element "osisText" [] None (map osis_book bs) None.

(** Milestone dialect: <book id="XXX"> holding, per chapter, <c id="C"/>
    and, per verse, <v id="V"/> followed by the content as siblings. *)
Definition usfx_verse (v : verse_src) : list element :=
  Element "v" [("id", str_of_nat (vs_num v))] None [] (text_node (vs_text v))
  :: vs_inline v.

Definition usfx_chapter (c : chapter_src) : list element :=
  Element "c" [("id", str_of_nat (cs_num c))] None [] None
  :: flat_map usfx_verse (cs_verses c).

Definition usfx_book (b : book_src) : element :=
  Element "book" [("id", bs_usfx b)] None
          (flat_map usfx_chapter (bs_chapters b)) None.

Definition encode_usfx (bs : list book_src) : element :=
  Element "usfx" [] None (map usfx_book bs) None.

(** The two codes name the same book, and chapter and verse numbers are
    positive. *)
Definition same_book (b : book_src) : bool :=
  match dict_get USFX_TO_OSIS (bs_usfx b) with
  | Some o => String.eqb o (bs_osis b)
  | None => false
  end.

Definition positive_numbers (b : book_src) : bool :=
  forallb (fun c => (0 <? cs_num c)
                    && forallb (fun v => 0 <? vs_num v) (cs_verses c))
          (bs_chapters b).

Definition well_formed (bs : list book_src) : bool :=
  forallb (fun b => same_book b && positive_numbers b) bs.

(** Every verse is plain text: no inline element. *)
Definition plain_verse (v : verse_src) : bool :=
  match vs_inline v with [] => true | _ => false end.

Definition plain (bs : list book_src) : bool :=
  forallb (fun b =>
    forallb (fun c => forallb plain_verse (cs_verses c)) (bs_chapters b)) bs.

(** The rows each extractor is expected to yield for plain-text verses. *)
Definition book_name_of (o : string) : string := dict_get_default OSIS_TO_NAME o o.

Definition usfx_rows_verse (o : string) (nm : option string) (c : nat)
    (v : verse_src) : list ImportKjvUsfx.row :=
  if nonempty (strip (vs_text v))
  then [ImportKjvUsfx.make_row o nm c (vs_num v) (strip (vs_text v))]
  else [].

Definition usfx_rows_book (b : book_src) : list ImportKjvUsfx.row :=
  flat_map (fun c =>
    flat_map (usfx_rows_verse (bs_osis b) (Some (book_name_of (bs_osis b))) (cs_num c))
             (cs_verses c))
    (bs_chapters b).



(** What the two extractors are compared on. *)
Definition key : Type := (string * option string * nat * nat * string)%type.







(** Genesis 1:1-2 as plain text, the second verse blank. *)
Definition sample_plain : list book_src :=
  [ mkBook "GEN" "Gen"
      [ mkChapter 1
          [ mkVerse 1 "In the beginning  God created" [];
            mkVerse 2 "  " [];
            mkVerse 3 " And God said, Let there be light " [] ] ] ].

End CrossDialect.

(** ** Well-formed rows and states of the streaming extractor *)

Module UsfxInvariants.
Import Py Xml Books ImportKjvUsfx.

(** A row as the table and the markers determine it: a book of
    [USFX_TO_OSIS], positive chapter and verse, the identifier
    [Book.Chapter.Verse], the display name of the book, and a text that
    is not empty with its counts. *)
Definition row_ok (r : row) : Prop :=
  exists u o nm c v,
    dict_get USFX_TO_OSIS u = Some o
    /\ dict_get OSIS_TO_NAME o = Some nm
    /\ 0 < c /\ 0 < v
    /\ osis_id r = (o ++ "." ++ str_of_nat c ++ "." ++ str_of_nat v)%string
    /\ split_on "." (osis_id r) = [o; str_of_nat c; str_of_nat v]
    /\ translation r = "KJV"
    /\ book r = Some nm
    /\ chapter r = c /\ verse r = v
    /\ ref_display r = (nm ++ " " ++ str_of_nat c ++ ":" ++ str_of_nat v)%string
    /\ text r <> EmptyString
    /\ char_count r = String.length (text r)
    /\ 0 < char_count r.

(** What the loop keeps true of its variables. *)
Definition book_ok (st : state) : Prop :=
  current_osis_book st = None
  \/ exists u o,
       current_book_code st = Some u
       /\ dict_get USFX_TO_OSIS u = Some o
       /\ current_osis_book st = Some o
       /\ current_book_name st = Some (dict_get_default OSIS_TO_NAME o o).

Definition positive_or_none (o : option nat) : Prop :=
  o = None \/ exists n, o = Some (S n).

Definition state_ok (st : state) : Prop :=
  book_ok st
  /\ positive_or_none (current_chapter st)
  /\ positive_or_none (current_verse st)
  /\ buffer_ok st.

(** <book id="GEN"><c id="3"/><p><v id="1"/>Now the serpent</p>
      <v id="x"/> was more subtil<c id="0"/> than any beast</book> *)
Definition doc_odd_markers : element :=
  Element "book" [("id", "GEN")] None
    [ Element "c" [("id", "3")] None [] None;
      Element "p" [] None
        [Element "v" [("id", "1")] None [] (Some "Now the serpent")] None;
      Element "v" [("id", "x")] None [] (Some " was more subtil");
      Element "c" [("id", "0")] None [] (Some " than any beast") ]
    None.

End UsfxInvariants.

(** ** Sample OSIS documents *)

Module OsisSamples.
Import Xml.

(** <osis xmlns="urn:osis"><verse osisID="Gen.1.1">In the beginning</verse></osis>,
    as lxml names its elements. *)
Definition doc_namespaced : element :=
  Element "{urn:osis}osis" [] None
    [ Element "{urn:osis}verse" [("osisID", "Gen.1.1")]
              (Some "In the beginning") [] None ]
    None.

(** <osis><verse osisID="Gen.-3.1">a</verse><verse osisID="Gen.ch2.v1b">b</verse>
          <verse osisID="Gen.1">c</verse><verse osisID="Gen.1.2"> </verse></osis> *)
Definition doc_odd_ids : element :=
  Element "osis" [] None
    [ Element "verse" [("osisID", "Gen.-3.1")] (Some "a") [] None;
      Element "verse" [("osisID", "Gen.ch2.v1b")] (Some "b") [] None;
      Element "verse" [("osisID", "Gen.1")] (Some "c") [] None;
      Element "verse" [("osisID", "Gen.1.2")] (Some " ") [] None ]
    None.

(** <osis xmlns="urn:osis"><verse osisID="Gen.1.1">  </verse></osis>:
    a namespaced verse with a blank text. *)
Definition blank_namespaced_verse : element :=
  Element "{urn:osis}verse" [("osisID", "Gen.1.1")] (Some "  ") [] None.

Definition doc_namespaced_blank : element :=
  Element "{urn:osis}osis" [] None [blank_namespaced_verse] None.

End OsisSamples.

(** ** Whole-word occurrences *)

Module WholeWord.
Import Py Etl.

Fixpoint all_chars (p : ascii -> bool) (s : string) : bool :=
  match s with
  | EmptyString => true
  | String c r => p c && all_chars p r
  end.

(** A keyword that begins and ends with a word character. *)
Definition word_ended (alt : string) : bool :=
  isword_opt (head_char alt) && isword_opt (last_char alt).

Definition lower_opt (o : option ascii) : option ascii := option_map lower_char o.

(** The last character seen after reading [w] from a position preceded
    by [before]. *)
Definition last_or (w : string) (before : option ascii) : option ascii :=
  match last_char w with Some c => Some c | None => before end.

(** [alt] occurs in [s], in any letter case, with no word character right
    before it and none right after it. *)
Definition whole_word (alt s : string) : Prop :=
  exists pre w post,
    s = (pre ++ w ++ post)%string
    /\ lower w = lower alt
    /\ isword_opt (last_char pre) = false
    /\ isword_opt (head_char post) = false.

End WholeWord.

(** ** Labels of the keyword tagging *)

Module Tagging.
Import Py Etl.

Definition MOODS : list string :=
  ["anxious"; "tired"; "grateful"; "hopeful"; "sad"; "lonely"; "guilty"; "angry"; "bereaved"].
Definition TONE_LABELS : list string :=
  ["calming"; "encouraging"; "corrective"; "celebratory"; "contemplative"].
Definition DAYPARTS : list string := ["morning"; "day"; "evening"; "night"].

(** One of the keywords [kws] occurs in [text] as a substring, in any
    letter case. *)
Definition mentions (kws : list string) (text : string) : Prop :=
  exists pre w post, text = (pre ++ w ++ post)%string /\ In (lower w) kws.

(** The keyword lists of the tagging without a fingerprint. *)
Definition COMFORT_WORDS : list string :=
  ["peace"; "rest"; "refuge"; "care"; "burden"; "anxiety"].
Definition HOPE_WORDS : list string := ["hope"; "promise"].
Definition TRUST_WORDS : list string := ["trust"; "refuge"; "shield"].
Definition WISDOM_WORDS : list string := ["wisdom"; "understanding"].

Definition ANXIOUS_WORDS : list string := ["fear"; "anxiety"; "care"; "trouble"].
Definition TIRED_WORDS : list string := ["weary"; "rest"].
Definition GRATEFUL_WORDS : list string := ["praise"; "thanks"].
Definition HOPEFUL_WORDS : list string := ["hope"; "joy"].

End Tagging.

(** ** [etl_bibles_to_supabase.py]: the loop of [main] *)

Module EtlMain.
Import Py Xml Etl.

(** What [main] does to the database, in order: [upsert_verse],
    [process_annotations] on the queued batch, [conn.commit()].  The
    messages printed, and the counter they show, are left out. *)
Inductive action : Type :=
| UpsertVerse (tr : string) (r : row)
| ProcessAnnotations (texts : list string) (metas : list (string * string * row))
| Commit.

(** The queue: [batch_texts] and [batch_meta]. *)
Record queue : Type := mkQueue {
  batch_texts : list string;
  batch_meta : list (string * string * row)
}.

(** The body of [for row in parse_osis(path)], for a row of the
    translation [tr]. *)
Definition visit (commit_size : Z) (tr : string)
    (st : queue * list action) (r : row) : queue * list action :=
  let '(q, log) := st in
  let log := log ++ [UpsertVerse tr r] in
  let texts := batch_texts q ++ [text r] in
  let metas := batch_meta q ++ [(tr, osis_id r, r)] in
  if (commit_size <=? Z.of_nat (List.length texts))%Z then
    ({| batch_texts := []; batch_meta := [] |},
     log ++ [ProcessAnnotations texts metas; Commit])
  else ({| batch_texts := texts; batch_meta := metas |}, log).

(** [for tr, path in files]: a file that does not exist ([None]) is
    skipped. *)
Definition visit_file (commit_size : Z) (st : queue * list action)
    (f : string * option element) : queue * list action :=
  match snd f with
  | None => st
  | Some root => fold_left (visit commit_size (fst f)) (parse_osis root) st
  end.

Definition main (commit_size : Z) (files : list (string * option element))
  : list action :=
  let '(q, log) :=
    fold_left (visit_file commit_size) files
              ({| batch_texts := []; batch_meta := [] |}, []) in
  match batch_texts q with
  | [] => log
  | _ :: _ => log ++ [ProcessAnnotations (batch_texts q) (batch_meta q); Commit]
  end.

(** The rows of the files that exist, each with its translation. *)
Definition all_rows (files : list (string * option element))
  : list (string * row) :=
  flat_map (fun f => match snd f with
                     | None => []
                     | Some root => map (pair (fst f)) (parse_osis root)
                     end) files.

(** Readings of a log. *)
Definition upserts (log : list action) : list (string * row) :=
  flat_map (fun a => match a with UpsertVerse tr r => [(tr, r)] | _ => [] end) log.

Definition batches (log : list action)
  : list (list string * list (string * string * row)) :=
  flat_map (fun a => match a with
                     | ProcessAnnotations ts ms => [(ts, ms)]
                     | _ => []
                     end) log.

Definition commits (log : list action) : nat :=
  List.length (filter (fun a => match a with Commit => true | _ => false end) log).

Definition meta_of (x : string * row) : string * string * row :=
  (fst x, osis_id (snd x), snd x).

Definition texts_of (ms : list (string * string * row)) : list string :=
  map (fun m => text (snd m)) ms.

(** A batch handed to [process_annotations]: the two lists are in step
    and hold [n] rows. *)
Definition full_batch (n : nat)
    (b : list string * list (string * string * row)) : Prop :=
  fst b = texts_of (snd b) /\ List.length (snd b) = n.

Definition visit_pair (commit_size : Z) (st : queue * list action)
    (x : string * row) : queue * list action :=
  visit commit_size (fst x) st (snd x).

(** What [main] does for one batch of rows: the verse upsert of each
    row, then [process_annotations] on the batch, then the commit. *)
Definition upsert_of (x : string * row) : action := UpsertVerse (fst x) (snd x).

Definition block (b : list (string * row)) : list action :=
  map upsert_of b
  ++ [ProcessAnnotations (map (fun x => text (snd x)) b) (map meta_of b); Commit].

Definition queue_of (pend : list (string * row)) : queue :=
  {| batch_texts := map (fun x => text (snd x)) pend;
     batch_meta := map meta_of pend |}.

(** <osis><verse osisID="Gen.1.n">t</verse> ... </osis> *)
Definition doc_verses (ts : list (string * string)) : element :=
  Element "osis" [] None
    (map (fun '(i, t) => Element "verse" [("osisID", i)] (Some t) [] None) ts)
    None.

Definition three_verses : element :=
  doc_verses [("Gen.1.1", "a"); ("Gen.1.2", "b"); ("Gen.1.3", "c")].

End EtlMain.

(** ** The table [public.verses] and the two upsert statements *)

Module Verses.
Import Py.

(** A line of the table, with the columns the import scripts write.
    [reading_grade] and [text_hash] are set by the same clauses as
    [char_count] and [word_count] and are left out, as in the rows.
    A column that can be NULL is an option. *)
Record line : Type := mkLine {
  osis_id : string;
  translation : string;
  book : option string;
  chapter : nat;
  verse : nat;
  ref_display : string;
  text : option string;
  char_count : option nat;
  word_count : option nat
}.

(** The parameters of the statement, from the row dict. *)
Definition line_of_usfx (r : ImportKjvUsfx.row) : line :=
  {| osis_id := ImportKjvUsfx.osis_id r;
     translation := ImportKjvUsfx.translation r;
     book := ImportKjvUsfx.book r;
     chapter := ImportKjvUsfx.chapter r;
     verse := ImportKjvUsfx.verse r;
     ref_display := ImportKjvUsfx.ref_display r;
     text := Some (ImportKjvUsfx.text r);
     char_count := Some (ImportKjvUsfx.char_count r);
     word_count := Some (ImportKjvUsfx.word_count r) |}.

Definition line_of_osis (r : ImportKjv.row) : line :=
  {| osis_id := ImportKjv.osis_id r;
     translation := ImportKjv.translation r;
     book := Some (ImportKjv.book r);
     chapter := ImportKjv.chapter r;
     verse := ImportKjv.verse r;
     ref_display := ImportKjv.ref_display r;
     text := Some (ImportKjv.text r);
     char_count := Some (ImportKjv.char_count r);
     word_count := Some (ImportKjv.word_count r) |}.

(** The conflict target [(osis_id, translation)]. *)
Definition key (l : line) : string * string := (osis_id l, translation l).

Definition same_key (a b : line) : bool :=
  String.eqb (osis_id a) (osis_id b) && String.eqb (translation a) (translation b).

(** [set text = excluded.text, char_count = excluded.char_count,
     word_count = excluded.word_count, ...]: the other columns of the
    existing line stay. *)
Definition overwrite (old excluded : line) : line :=
  {| osis_id := osis_id old;
     translation := translation old;
     book := book old;
     chapter := chapter old;
     verse := verse old;
     ref_display := ref_display old;
     text := text excluded;
     char_count := char_count excluded;
     word_count := word_count excluded |}.

(** PostgreSQL's [trim(s)]: the space characters at both ends removed. *)
Definition is_space (c : ascii) : bool := Ascii.eqb c " ".

Fixpoint ltrim (s : string) : string :=
  match s with
  | EmptyString => EmptyString
  | String c r => if is_space c then ltrim r else s
  end.

Fixpoint rtrim (s : string) : string :=
  match s with
  | EmptyString => EmptyString
  | String c r =>
      match rtrim r with
      | EmptyString => if is_space c then EmptyString else String c EmptyString
      | r' => String c r'
      end
  end.

Definition trim (s : string) : string := rtrim (ltrim s).

(** [coalesce(length(trim(public.verses.text)),0)=0] *)
Definition text_is_empty (old : line) : bool :=
  match text old with
  | None => true
  | Some t => String.length (trim t) =? 0
  end.

(** The [set] clauses of [UPSERT_IF_EMPTY]: every column has the same
    [case when ... then excluded.c else public.verses.c end]. *)
Definition patch (old excluded : line) : line :=
  if text_is_empty old then overwrite old excluded else old.

(** [insert ... on conflict (osis_id, translation) do update set ...]:
    the line with the key of [x] is updated, or [x] is added. *)
Fixpoint execute (on_conflict : line -> line -> line)
    (tbl : list line) (x : line) : list line :=
  match tbl with
  | [] => [x]
  | l :: rest =>
      if same_key l x then on_conflict l x :: rest
      else l :: execute on_conflict rest x
  end.

Definition UPSERT_SQL : list line -> line -> list line := execute overwrite.
Definition UPSERT_IF_EMPTY : list line -> line -> list line := execute patch.

(** The unique constraint behind the conflict target. *)
Definition unique (tbl : list line) : Prop := NoDup (map key tbl).

(** The table after [main] of [import_kjv_usfx.py], [import_kjv.py] and
    [import_kjv_osis.py], when no statement fails; the commits every 2000
    rows do not show in the final table. *)
Definition usfx_main (root : Xml.element) (tbl : list line) : list line :=
  fold_left UPSERT_SQL (map line_of_usfx (ImportKjvUsfx.written root)) tbl.

Definition kjv_main (root : Xml.element) (tbl : list line) : list line :=
  fold_left UPSERT_SQL (map line_of_osis (ImportKjv.parse_osis root)) tbl.

Definition osis_main (root : Xml.element) (tbl : list line) : list line :=
  fold_left UPSERT_IF_EMPTY (map line_of_osis (ImportKjvOsis.parse_osis root)) tbl.

(** The last of the lines [xs] with the key of [l]. *)
Definition last_for (xs : list line) (l : line) : option line :=
  find (fun x => same_key x l) (rev xs).

(** The columns no [set] clause names. *)
Definition reference (l : line)
  : string * string * option string * nat * nat * string :=
  (osis_id l, translation l, book l, chapter l, verse l, ref_display l).

(** What a conflict clause may do: keep the columns it does not name. *)
Definition keeps_reference (f : line -> line -> line) : Prop :=
  forall l x, reference (f l x) = reference l.

(** The line as the rows [xs] leave it under [UPSERT_SQL]. *)
Definition settled (xs : list line) (l : line) : line :=
  match last_for xs l with
  | Some x => overwrite l x
  | None => l
  end.

(** A table with one line, under an older book name. *)
Definition sample_line : line :=
  {| osis_id := "Gen.1.1"; translation := "KJV"; book := Some "First Book";
     chapter := 1; verse := 1; ref_display := "First Book 1:1";
     text := Some "old"; char_count := Some 3; word_count := Some 1 |}.

Definition blank_line : line :=
  {| osis_id := "Gen.1.2"; translation := "KJV"; book := Some "Genesis";
     chapter := 1; verse := 2; ref_display := "Genesis 1:2";
     text := Some "  "; char_count := Some 2; word_count := Some 0 |}.

Definition sample_table : list line := [sample_line; blank_line].

End Verses.

(** ** Verses as containers *)

Module Containers.
Import Py Xml CrossDialect.

(** The container form of the milestone dialect: <book id="XXX"> holding
    one <chapter number="C"> per chapter, which holds one
    <verse number="V">content</verse> per verse. *)
Definition container_verse (v : verse_src) : element :=
  Element "verse" [("number", str_of_nat (vs_num v))]
          (text_node (vs_text v)) (vs_inline v) None.

Definition container_chapter (c : chapter_src) : element :=
  Element "chapter" [("number", str_of_nat (cs_num c))] None
          (map container_verse (cs_verses c)) None.

Definition container_book (b : book_src) : element :=
  Element "book" [("id", bs_usfx b)] None
          (map container_chapter (bs_chapters b)) None.

Definition encode_containers (bs : list book_src) : element :=
  Element "usfx" [] None (map container_book bs) None.

End Containers.

(** ** The table [verse_annotations] *)

Module EtlStore.
Import Py Etl.

(** A line of the table: the key, and the seven columns the statement
    of [upsert_annotation] sets (six of them in [ann]). *)
Record stored : Type := mkStored {
  s_osis_id : string;
  s_translation : string;
  s_ann : annotation;
  s_embedding : option vec
}.

Definition has_key (tr osis_id : string) (l : stored) : bool :=
  String.eqb (s_osis_id l) osis_id && String.eqb (s_translation l) tr.

(** [insert ... on conflict (osis_id, translation) do update set
     themes=excluded.themes, ..., embedding=excluded.embedding]:
    every column but the key is replaced; [embed_param] is [None] when
    there is no fingerprint. *)
Fixpoint upsert_annotation (tbl : list stored) (tr osis_id : string)
    (ann : annotation) (embed_vec : option vec) : list stored :=
  let embed_param := embed_vec in
  match tbl with
  | [] => [mkStored osis_id tr ann embed_param]
  | l :: rest =>
      if has_key tr osis_id l
      then mkStored (s_osis_id l) (s_translation l) ann embed_param :: rest
      else l :: upsert_annotation rest tr osis_id ann embed_vec
  end.

(** The line of a key. *)
Definition lookup (tbl : list stored) (tr osis_id : string) : option stored :=
  find (has_key tr osis_id) tbl.

Section Provider.
Variable np : numpy32.
Variable embed_texts : list string -> list vec.
Variable argsort : list Q -> list nat.

(** The loop of [process_annotations], with the table it writes to. *)
Fixpoint annotate_store (cache : option centroids) (vecs : option (list vec))
    (i : nat) (metas : list (string * string * row)) (tbl : list stored)
  : list stored * option centroids :=
  match metas with
  | [] => (tbl, cache)
  | (tr, osis_id, row) :: rest =>
      let v_embed := match vecs with
                     | Some vs => Some (nth i vs [])
                     | None => None
                     end in
      let '(ann, cache1) := annotate np embed_texts argsort cache v_embed (text row) in
      annotate_store cache1 vecs (S i) rest
                     (upsert_annotation tbl tr osis_id ann v_embed)
  end.

Definition process_annotations (cache : option centroids) (tbl : list stored)
    (texts : list string) (metas : list (string * string * row))
    (use_embeddings : bool) : list stored * option centroids :=
  let vecs := if use_embeddings then Some (embed_texts texts) else None in
  annotate_store cache vecs 0 metas tbl.

End Provider.

Definition meta_key (m : string * string * row) : string * string :=
  (fst (fst m), snd (fst m)).

Definition stored_key (l : stored) : string * string :=
  (s_translation l, s_osis_id l).

(** A line with a fingerprint, and the meta of a row with its key. *)
Definition sample_row : row :=
  {| osis_id := "John.11.35"; book := "John"; chapter := 11%Z; verse := 35;
     ref_display := "John 11:35"; text := "Jesus wept." |}.

Definition sample_stored : stored :=
  mkStored "John.11.35" "KJV"
    (fst (annotate exact_numpy toy_embed argsort_stable None (Some [1%Q]) "Jesus wept."))
    (Some [1%Q]).

End EtlStore.

(* ================================================================== *)
(** * Part II.  Properties                                             *)
(* ================================================================== *)

(** ** Facts about the string primitives *)

Module PyFacts.
Import Py.

Lemma nonempty_true (s : string) : nonempty s = true <-> s <> EmptyString.
Proof. destruct s; simpl; split; congruence. Qed.

Lemma nonempty_false (s : string) : nonempty s = false <-> s = EmptyString.
Proof. destruct s; simpl; split; congruence. Qed.

Lemma rstrip_cons_nonspace c r :
  isspace c = false -> rstrip (String c r) = String c (rstrip r).
Proof. intros H. simpl. rewrite H. destruct (rstrip r); reflexivity. Qed.

Lemma rstrip_cons_space c r :
  isspace c = true ->
  rstrip (String c r) =
  match rstrip r with EmptyString => EmptyString | r' => String c r' end.
Proof. intros H. simpl. rewrite H. reflexivity. Qed.

Lemma lstrip_head s c r : lstrip s = String c r -> isspace c = false.
Proof.
  induction s as [|a s IH]; simpl; [discriminate|].
  destruct (isspace a) eqn:E; [exact IH|].
  intros [= <- _]. exact E.
Qed.

Lemma lstrip_idem s : lstrip (lstrip s) = lstrip s.
Proof.
  induction s as [|a s IH]; simpl; [reflexivity|].
  destruct (isspace a) eqn:E; [exact IH|]. simpl. now rewrite E.
Qed.

Lemma rstrip_empty_iff s : rstrip s = EmptyString <-> lstrip s = EmptyString.
Proof.
  induction s as [|a s IH]; simpl; [tauto|].
  destruct (isspace a) eqn:E.
  - rewrite <- IH. destruct (rstrip s); split; congruence.
  - destruct (rstrip s); split; discriminate.
Qed.

Lemma strip_empty_iff s : strip s = EmptyString <-> lstrip s = EmptyString.
Proof. unfold strip. rewrite rstrip_empty_iff. now rewrite lstrip_idem. Qed.

Lemma lstrip_rstrip s : lstrip (rstrip s) = rstrip (lstrip s).
Proof.
  induction s as [|a s IH]; [reflexivity|].
  destruct (isspace a) eqn:E.
  - rewrite rstrip_cons_space by exact E. simpl lstrip at 2. rewrite E.
    rewrite <- IH. destruct (rstrip s) eqn:R; [reflexivity|].
    simpl. now rewrite E.
  - rewrite rstrip_cons_nonspace by exact E. simpl. rewrite E.
    now rewrite rstrip_cons_nonspace.
Qed.

Lemma lstrip_collapse b s :
  lstrip (collapse_from b s) = collapse_from false (lstrip s).
Proof.
  revert b. induction s as [|a s IH]; intros b; simpl; [reflexivity|].
  destruct (isspace a) eqn:E.
  - destruct b; simpl; apply IH.
  - simpl. now rewrite E.
Qed.

Lemma rstrip_collapse b s :
  rstrip (collapse_from b s) = rstrip (collapse_from b (rstrip s)).
Proof.
  revert b. induction s as [|a s IH]; intros b; [reflexivity|].
  destruct (isspace a) eqn:E.
  - rewrite (rstrip_cons_space a s E).
    destruct (rstrip s) as [|x r] eqn:R.
    + simpl. rewrite E. destruct b.
      * rewrite IH. reflexivity.
      * rewrite rstrip_cons_space by reflexivity. rewrite IH. reflexivity.
    + simpl collapse_from at 1 2. rewrite E. destruct b.
      * apply IH.
      * rewrite !(rstrip_cons_space " ") by reflexivity. now rewrite IH.
  - rewrite (rstrip_cons_nonspace a s E). simpl. rewrite E.
    rewrite !rstrip_cons_nonspace by exact E. now rewrite IH.
Qed.

(** Trimming first does not change the canonical text. *)
Lemma clean_strip s : strip (collapse_ws (strip s)) = strip (collapse_ws s).
Proof.
  unfold strip, collapse_ws.
  rewrite <- (lstrip_rstrip (collapse_from false (rstrip (lstrip s)))).
  rewrite <- rstrip_collapse.
  rewrite lstrip_rstrip.
  rewrite !lstrip_collapse. now rewrite !lstrip_idem.
Qed.

Lemma collapse_blank b s :
  lstrip (collapse_from b s) = EmptyString <-> lstrip s = EmptyString.
Proof.
  rewrite lstrip_collapse.
  destruct (lstrip s) as [|c r] eqn:L; [simpl; tauto|].
  simpl. rewrite (lstrip_head _ _ _ L). split; discriminate.
Qed.

(** The canonical text is empty exactly when the trimmed text is. *)
Lemma clean_nonempty s :
  nonempty (strip (collapse_ws s)) = nonempty (strip s).
Proof.
  destruct (nonempty (strip s)) eqn:E.
  - apply nonempty_true. apply nonempty_true in E.
    rewrite strip_empty_iff in *. unfold collapse_ws. now rewrite collapse_blank.
  - apply nonempty_false. apply nonempty_false in E.
    rewrite strip_empty_iff in *. unfold collapse_ws. now rewrite collapse_blank.
Qed.

Lemma lstrip_app_nonblank x y :
  lstrip x <> EmptyString -> lstrip (x ++ y) = (lstrip x ++ y)%string.
Proof.
  induction x as [|a x IH]; simpl; [congruence|].
  destruct (isspace a); [exact IH | reflexivity].
Qed.

Lemma lstrip_strip s : lstrip (strip s) = strip s.
Proof. unfold strip. now rewrite lstrip_rstrip, lstrip_idem. Qed.

(** *** Decimal rendering and parsing *)

Lemma uint_digits d :
  filter_chars isdigit (NilEmpty.string_of_uint d) = NilEmpty.string_of_uint d.
Proof. induction d; simpl; try rewrite IHd; reflexivity. Qed.

Lemma uint_no_char d c :
  isdigit c = false ->
  filter_chars (fun a => Ascii.eqb a c) (NilEmpty.string_of_uint d) = EmptyString.
Proof.
  intros H. induction d; cbn [NilEmpty.string_of_uint filter_chars];
    try reflexivity;
    match goal with
    | |- (if Ascii.eqb ?a c then _ else _) = _ =>
        destruct (Ascii.eqb_spec a c) as [<-|_]; [discriminate H | exact IHd]
    end.
Qed.

Lemma to_uint_nonnil n : Nat.to_uint n <> Decimal.Nil.
Proof.
  rewrite <- (Unsigned.of_to n) at 1. rewrite Unsigned.to_of.
  unfold Decimal.unorm. destruct (Decimal.nzhead (Nat.to_uint n)); discriminate.
Qed.

Lemma str_of_nat_nonempty n : nonempty (str_of_nat n) = true.
Proof.
  unfold str_of_nat. generalize (to_uint_nonnil n).
  destruct (Nat.to_uint n); simpl; congruence.
Qed.

Lemma str_of_nat_digits n : strip_nondigits (str_of_nat n) = str_of_nat n.
Proof. apply uint_digits. Qed.

Lemma int_of_digits_str n : int_of_digits (str_of_nat n) = n.
Proof.
  unfold int_of_digits, str_of_nat. rewrite NilEmpty.usu. apply Unsigned.of_to.
Qed.

(** Reading back a rendered number gives the number. *)
Lemma digits_or_zero_str n : digits_or_zero (str_of_nat n) = n.
Proof.
  unfold digits_or_zero. rewrite str_of_nat_digits, str_of_nat_nonempty.
  apply int_of_digits_str.
Qed.

(** *** Splitting *)

Lemma free_of_cons c a s :
  free_of c (String a s) -> Ascii.eqb a c = false /\ free_of c s.
Proof.
  unfold free_of. simpl. destruct (Ascii.eqb a c); [discriminate|]. auto.
Qed.

Lemma split_on_free c s : free_of c s -> split_on c s = [s].
Proof.
  induction s as [|a s IH]; intros H; [reflexivity|].
  apply free_of_cons in H as [E H]. simpl. rewrite E, (IH H). reflexivity.
Qed.

Lemma split_on_app c x y :
  free_of c x -> split_on c (x ++ String c y) = x :: split_on c y.
Proof.
  induction x as [|a x IH]; intros H; simpl.
  - now rewrite Ascii.eqb_refl.
  - apply free_of_cons in H as [E H]. rewrite E, (IH H). reflexivity.
Qed.

Lemma str_of_nat_free n c : isdigit c = false -> free_of c (str_of_nat n).
Proof. intros H. apply uint_no_char, H. Qed.

(** *** Lookup in a dict literal *)

Lemma dict_get_In d k v : dict_get d k = Some v -> In (k, v) d.
Proof.
  induction d as [|[k' v'] d IH]; simpl; [discriminate|].
  destruct (String.eqb_spec k k') as [->|_].
  - intros [= ->]. now left.
  - intros H. right. now apply IH.
Qed.

End PyFacts.

(** ** Facts about the streaming extractor *)

Module UsfxFacts.
Import Py Xml Books ImportKjvUsfx PyFacts.

Lemma exec_app st evs1 evs2 :
  exec st (evs1 ++ evs2) =
  let '(st1, out1) := exec st evs1 in
  let '(st2, out2) := exec st1 evs2 in
  (st2, out1 ++ out2).
Proof.
  revert st. induction evs1 as [|ev evs1 IH]; intros st; simpl.
  - destruct (exec st evs2); reflexivity.
  - destruct (step st ev) as [sa oa]. rewrite IH.
    destruct (exec sa evs1) as [sb ob]. destruct (exec sb evs2) as [sc oc].
    now rewrite app_assoc.
Qed.

Lemma join_cons sep x l : exists y, join sep (x :: l) = (x ++ y)%string.
Proof.
  destruct l as [|z l]; simpl.
  - exists EmptyString. clear. induction x; simpl; congruence.
  - eexists. reflexivity.
Qed.

Lemma strip_nonempty_arg s : nonempty (strip s) = true -> nonempty s = true.
Proof. destruct s; [discriminate | reflexivity]. Qed.

(** What a flush yields: at most one row, for an open verse whose buffered
    text is not blank, with that text made canonical. *)
Lemma flush_spec st r :
  buffer_ok st -> In r (flush st) ->
  current_verse st <> None
  /\ strip (joined (buffer st)) <> EmptyString
  /\ text r = strip (collapse_ws (joined (buffer st)))
  /\ text r <> EmptyString.
Proof.
  intros Hok Hin. unfold flush in Hin.
  destruct (current_verse st) as [v|] eqn:Ev; [|contradiction].
  destruct (buffer st) as [|s buf] eqn:Eb; [contradiction|].
  destruct (current_osis_book st) as [[|a b]|]; try contradiction.
  destruct (current_chapter st) as [[|c]|]; try contradiction.
  destruct Hin as [<-|[]]. simpl text.
  assert (Hj : strip (joined (s :: buf)) <> EmptyString).
  { unfold buffer_ok in Hok. rewrite Eb in Hok. inversion Hok as [|? ? Hs _]; subst.
    unfold joined. cbn [filter]. rewrite Hs, (strip_nonempty_arg _ Hs).
    cbn [andb map].
    destruct (join_cons " " (strip s)
                (map strip (filter (fun s0 => nonempty s0 && nonempty (strip s0)) buf)))
      as [y ->].
    rewrite strip_empty_iff, lstrip_app_nonblank; rewrite lstrip_strip.
    - apply nonempty_true in Hs. destruct (strip s); [congruence | discriminate].
    - now apply nonempty_true. }
  repeat split; try congruence.
  apply nonempty_true. rewrite clean_nonempty. now apply nonempty_true.
Qed.

Lemma append_if_text_ok st o : buffer_ok st -> buffer_ok (append_if_text st o).
Proof.
  intros H. unfold append_if_text. destruct o as [s|]; [|exact H].
  destruct (nonempty s && nonempty (strip s)) eqn:E; [|exact H].
  unfold buffer_ok. simpl. apply Forall_app. split; [exact H|].
  constructor; [|constructor]. now apply andb_true_iff in E.
Qed.

Lemma capture_ok st name o : buffer_ok st -> buffer_ok (capture st name o).
Proof.
  intros H. unfold capture. destruct (capturing st name); [|exact H].
  now apply append_if_text_ok.
Qed.

Lemma initial_ok : buffer_ok initial.
Proof. constructor. Qed.

Lemma step_ok st ev : buffer_ok st -> buffer_ok (fst (step st ev)).
Proof.
  intros H. destruct ev as [[|] e]; unfold step.
  - destruct (_ && _); [exact H|].
    destruct (mem_str _ ["c"; "chapter"]).
    { destruct (0 <? _); [constructor | exact H]. }
    destruct (mem_str _ ["v"; "verse"]).
    { destruct (0 <? _); simpl; apply capture_ok; [constructor | exact H]. }
    simpl. now apply capture_ok.
  - destruct (String.eqb _ "book"); simpl; [apply initial_ok | now apply capture_ok].
Qed.

Lemma exec_ok st evs : buffer_ok st -> buffer_ok (fst (exec st evs)).
Proof.
  revert st. induction evs as [|ev evs IH]; intros st H; simpl; [exact H|].
  pose proof (step_ok st ev H) as H1. destruct (step st ev) as [s1 o1].
  specialize (IH s1 H1). destruct (exec s1 evs); exact IH.
Qed.

(** A row comes out of one step only by a flush at a boundary. *)
Lemma step_out st ev r :
  In r (snd (step st ev)) ->
  is_boundary ev = true /\ In r (flush (at_flush st ev)).
Proof.
  destruct ev as [[|] e]; unfold step, is_boundary, at_flush.
  - destruct (_ && _); [intros []|].
    destruct (mem_str _ ["c"; "chapter"]) eqn:Ec.
    { destruct (0 <? _); simpl; [|intros []].
      intros H. split; [|exact H]. unfold mem_str in *. simpl in *.
      rewrite !orb_false_r in *. apply orb_true_iff in Ec as [->| ->];
        now rewrite ?orb_true_r. }
    destruct (mem_str _ ["v"; "verse"]) eqn:Ev.
    { destruct (0 <? _); simpl; [|intros []].
      intros H. split; [|exact H]. unfold mem_str in *. simpl in *.
      rewrite !orb_false_r in *. apply orb_true_iff in Ev as [->| ->];
        now rewrite ?orb_true_r. }
    intros [].
  - destruct (String.eqb _ "book"); simpl; [tauto | intros []].
Qed.

Lemma exec_out st evs r :
  buffer_ok st -> In r (snd (exec st evs)) -> text r <> EmptyString.
Proof.
  revert st. induction evs as [|ev evs IH]; intros st Hok; simpl; [intros []|].
  pose proof (step_ok st ev Hok) as H1.
  pose proof (step_out st ev r) as H2.
  destruct (step st ev) as [s1 o1]. simpl in *.
  specialize (IH s1 H1). destruct (exec s1 evs) as [s2 o2]. simpl in *.
  intros Hin. apply in_app_or in Hin as [Hin|Hin]; [|now apply IH].
  destruct (H2 Hin) as [_ Hf].
  apply flush_spec in Hf; [tauto|].
  destruct ev as [[|] e]; simpl; [exact Hok | now apply capture_ok].
Qed.

(** *** The markers of the milestone dialect *)

Lemma marker_number_id t n x ch tl :
  marker_number (Element t [("id", str_of_nat n)] x ch tl) = str_of_nat n.
Proof.
  unfold marker_number. cbn [attrib dict_get]. rewrite String.eqb_refl.
  generalize (str_of_nat_nonempty n). destruct (str_of_nat n); [discriminate | reflexivity].
Qed.

Lemma marker_value t n x ch tl :
  digits_or_zero (marker_number (Element t [("id", str_of_nat n)] x ch tl)) = n.
Proof. rewrite marker_number_id. apply digits_or_zero_str. Qed.

Lemma step_c_start st n :
  0 < n ->
  step st (Start, Element "c" [("id", str_of_nat n)] None [] None)
  = ({| current_book_code := current_book_code st;
        current_book_name := current_book_name st;
        current_osis_book := current_osis_book st;
        current_chapter := Some n; current_verse := None; buffer := [] |},
     flush st).
Proof.
  intros Hn. unfold step. rewrite marker_value.
  destruct n; [lia | reflexivity].
Qed.

Lemma capture_none st name : capture st name None = st.
Proof. unfold capture. now destruct (capturing st name). Qed.

Lemma step_c_end st a x ch :
  step st (End, Element "c" a x ch None) = (st, []).
Proof. unfold step. cbn [Xml.tail]. rewrite capture_none. reflexivity. Qed.

Lemma step_v_start st n tl :
  0 < n ->
  step st (Start, Element "v" [("id", str_of_nat n)] None [] tl)
  = ({| current_book_code := current_book_code st;
        current_book_name := current_book_name st;
        current_osis_book := current_osis_book st;
        current_chapter := current_chapter st;
        current_verse := Some n; buffer := [] |},
     flush st).
Proof.
  intros Hn. unfold step. rewrite marker_value.
  destruct n; [lia|]. cbn -[flush capture]. rewrite capture_none. reflexivity.
Qed.

Lemma step_v_end st a tl :
  step st (End, Element "v" a None [] tl) = (capture st "v" tl, []).
Proof. reflexivity. Qed.

(** Every OSIS code of the table is a non-empty word without a dot. *)
Lemma usfx_table_ok u o :
  dict_get USFX_TO_OSIS u = Some o -> nonempty o = true /\ free_of "." o.
Proof.
  intros H. apply dict_get_In in H.
  assert (A : forallb (fun p => nonempty (snd p)
                && negb (nonempty (filter_chars (fun a => Ascii.eqb a ".") (snd p))))
                USFX_TO_OSIS = true) by (vm_compute; reflexivity).
  rewrite forallb_forall in A. specialize (A _ H). simpl in A.
  apply andb_true_iff in A as [A B]. split; [exact A|].
  apply negb_true_iff, nonempty_false in B. exact B.
Qed.

Lemma step_book_start u o x ch tl code0 name0 chap cur buf :
  dict_get USFX_TO_OSIS u = Some o ->
  step (mkState code0 name0 None chap cur buf)
       (Start, Element "book" [("id", u)] x ch tl)
  = (mkState (Some u) (Some (dict_get_default OSIS_TO_NAME o o)) (Some o) chap cur buf, []).
Proof.
  intros H. unfold step. cbn [tag attrib dict_get current_osis_book is_none].
  rewrite String.eqb_refl. cbn [localname after_brace Ascii.eqb Bool.eqb andb].
  change (localname "book") with "book". cbn [String.eqb Ascii.eqb Bool.eqb andb].
  unfold lookup_osis. rewrite H. cbn [truthy_str].
  destruct (usfx_table_ok _ _ H) as [-> _]. reflexivity.
Qed.

Lemma step_book_end st a x ch :
  step st (End, Element "book" a x ch None) = (initial, flush st).
Proof. unfold step. cbn [Xml.tail]. rewrite capture_none. reflexivity. Qed.

Lemma exec_cons st ev evs :
  exec st (ev :: evs) =
  let '(s1, o1) := step st ev in
  let '(s2, o2) := exec s1 evs in (s2, o1 ++ o2).
Proof. reflexivity. Qed.

Lemma capture_open code nm o c n buf name tl :
  mem_str name SKIP_NAMES = false ->
  capture (mkState code nm o (Some (S c)) (Some (S n)) buf) name tl
  = append_if_text (mkState code nm o (Some (S c)) (Some (S n)) buf) tl.
Proof.
  intros H. unfold capture, capturing.
  cbn [truthy_int current_verse current_chapter andb]. now rewrite H.
Qed.

Lemma joined_single t :
  nonempty (strip t) = true -> joined [t] = strip t.
Proof.
  intros H. unfold joined. cbn [filter]. rewrite H, (strip_nonempty_arg _ H).
  reflexivity.
Qed.

End UsfxFacts.

(** ** The flush rule of the streaming extractor *)

Module FlushRule.
Import Py Xml Books ImportKjvUsfx PyFacts UsfxFacts.

(** C3.  A row is yielded only at a chapter, verse or book boundary, and
    only when the text buffered for the open verse is not empty once joined
    and trimmed; no yielded row has an empty text.  For a book fragment
    with an empty verse marker followed by a verse marker with text,
    exactly one row is yielded, numbered by the second marker.  The
    filter of [main] on empty texts therefore removes nothing. *)
Theorem C3_flush_rule :
  (forall evs ev r,
      In r (snd (step (fst (exec initial evs)) ev)) ->
      is_boundary ev = true
      /\ current_verse (at_flush (fst (exec initial evs)) ev) <> None
      /\ strip (joined (buffer (at_flush (fst (exec initial evs)) ev))) <> EmptyString
      /\ text r
         = strip (collapse_ws (joined (buffer (at_flush (fst (exec initial evs)) ev)))))
  /\ (forall root r, In r (parse_usfx_stream root) -> text r <> EmptyString)
  /\ (forall root, written root = parse_usfx_stream root)
  /\ (forall u o c v1 v2 t,
        dict_get USFX_TO_OSIS u = Some o ->
        0 < c -> 0 < v1 -> 0 < v2 -> strip t <> EmptyString ->
        parse_usfx_stream (blank_then_text u c v1 v2 t)
        = [make_row o (Some (dict_get_default OSIS_TO_NAME o o)) c v2 (strip t)]
        /\ map verse (parse_usfx_stream (blank_then_text u c v1 v2 t)) = [v2]).
Proof.
  assert (N : forall root r, In r (parse_usfx_stream root) -> text r <> EmptyString).
  { intros root r. unfold parse_usfx_stream, run. apply exec_out, initial_ok. }
  split; [|split; [exact N|split]].
  - intros evs ev r Hin.
    pose proof (exec_ok initial evs initial_ok) as Hok.
    destruct (step_out _ _ _ Hin) as [Hb Hf]. split; [exact Hb|].
    apply flush_spec in Hf; [tauto|].
    destruct ev as [[|] e]; simpl; [exact Hok | now apply capture_ok].
  - intros root. unfold written. apply forallb_filter_id.
    apply forallb_forall. intros r Hr. apply nonempty_true. now apply (N root).
  - intros u o c v1 v2 t Hu Hc Hv1 Hv2 Ht.
    assert (E : parse_usfx_stream (blank_then_text u c v1 v2 t)
                = [make_row o (Some (dict_get_default OSIS_TO_NAME o o)) c v2 (strip t)]).
    { unfold parse_usfx_stream, run, blank_then_text, milestone, initial.
      cbn [iterparse flat_map app].
      rewrite exec_cons, (step_book_start _ _ _ _ _ _ _ _ _ _ Hu).
      rewrite exec_cons, (step_c_start _ _ Hc). cbn [current_book_code
        current_book_name current_osis_book current_chapter current_verse buffer flush].
      rewrite exec_cons, step_c_end.
      rewrite exec_cons, (step_v_start _ _ _ Hv1). cbn [current_book_code
        current_book_name current_osis_book current_chapter current_verse buffer flush].
      rewrite exec_cons, step_v_end, capture_none.
      rewrite exec_cons, (step_v_start _ _ _ Hv2). cbn [current_book_code
        current_book_name current_osis_book current_chapter current_verse buffer flush].
      rewrite exec_cons, step_v_end.
      destruct c as [|c]; [lia|]. destruct v2 as [|v2]; [lia|].
      rewrite capture_open by reflexivity.
      apply nonempty_true in Ht. unfold append_if_text.
      rewrite Ht, (strip_nonempty_arg _ Ht). cbn [andb current_book_code
        current_book_name current_osis_book current_chapter current_verse buffer app].
      rewrite exec_cons, step_book_end. cbn [exec].
      destruct (usfx_table_ok _ _ Hu) as [Hne _].
      destruct o as [|a b]; [discriminate|].
      cbn [flush current_book_code current_book_name current_osis_book
           current_chapter current_verse buffer app snd].
      rewrite (joined_single _ Ht). destruct v1; reflexivity. }
    split; [exact E|]. rewrite E. reflexivity.
Qed.

(** The sample fragment of C3: Genesis, chapter 1, verse 1 blank, verse 2
    with text. *)
Lemma C3_flush_rule_witness :
  parse_usfx_stream (blank_then_text "GEN" 1 1 2 "And the earth")
  = [make_row "Gen" (Some "Genesis") 1 2 "And the earth"].
Proof.
  destruct C3_flush_rule as [_ [_ [_ H]]].
  destruct (H "GEN" "Gen" 1 1 2 "And the earth") as [E _];
    [reflexivity | lia | lia | lia | discriminate |].
  exact E.
Defined.

End FlushRule.

(** ** Notes and cross-references in the streaming extractor *)

Module NoteSkipping.
Import Py Xml Books ImportKjvUsfx PyFacts UsfxFacts.

(** The text and the tail of an element whose own name is in [SKIP_NAMES]
    are not collected. *)
Lemma capture_skip st name o :
  mem_str name SKIP_NAMES = true -> capture st name o = st.
Proof.
  intros H. unfold capture, capturing. rewrite H.
  now rewrite andb_false_r.
Qed.

(** C1.  On the sample document, whose verse holds the footnote
    [<f>a note <b>bold</b> more</f>] followed by the words
    [God created.], the yielded text contains the words of the element
    [<b>] nested in the footnote and its tail, and lacks the words of the
    verse that follow the footnote. *)
Theorem C1_note_subtree_leaks :
  map text (parse_usfx_stream doc_note) = ["In the beginning bold more"]
  /\ contains "bold" (concat_all (map text (parse_usfx_stream doc_note))) = true
  /\ contains "God created" (concat_all (map text (parse_usfx_stream doc_note))) = false.
Proof. repeat split; vm_compute; reflexivity. Qed.

End NoteSkipping.

(** ** Book codes outside the table *)

Module UnknownBook.
Import Py Xml Books PyFacts UsfxFacts.

Lemma flush_no_book st :
  ImportKjvUsfx.current_osis_book st = None -> ImportKjvUsfx.flush st = [].
Proof.
  intros H. unfold ImportKjvUsfx.flush. rewrite H.
  destruct (ImportKjvUsfx.current_verse st); [|reflexivity].
  destruct (ImportKjvUsfx.buffer st); reflexivity.
Qed.

Lemma capture_book st name o :
  ImportKjvUsfx.current_osis_book (ImportKjvUsfx.capture st name o)
  = ImportKjvUsfx.current_osis_book st.
Proof.
  unfold ImportKjvUsfx.capture, ImportKjvUsfx.append_if_text.
  destruct (ImportKjvUsfx.capturing st name); [|reflexivity].
  destruct o as [s|]; [|reflexivity]. destruct (_ && _); reflexivity.
Qed.

Lemma step_no_book st ev :
  ImportKjvUsfx.current_osis_book st = None -> ImportKjvUsfx.unknown_book ev ->
  ImportKjvUsfx.current_osis_book (fst (ImportKjvUsfx.step st ev)) = None
  /\ snd (ImportKjvUsfx.step st ev) = [].
Proof.
  intros H U. destruct ev as [[|] e]; unfold ImportKjvUsfx.step, ImportKjvUsfx.unknown_book in *;
    simpl snd in U.
  - rewrite H. cbn [ImportKjvUsfx.is_none]. rewrite andb_true_r.
    destruct (String.eqb_spec (localname (tag e)) "book") as [Eb|_].
    { simpl. split; [now apply U | reflexivity]. }
    destruct (mem_str (localname (tag e)) ["c"; "chapter"]).
    { destruct (0 <? _); simpl; split; auto using flush_no_book. }
    destruct (mem_str (localname (tag e)) ["v"; "verse"]).
    { destruct (0 <? _); simpl; rewrite capture_book; simpl;
        split; auto using flush_no_book. }
    simpl. rewrite capture_book. auto.
  - destruct (String.eqb (localname (tag e)) "book"); simpl.
    + split; [reflexivity|]. apply flush_no_book. now rewrite capture_book.
    + rewrite capture_book. auto.
Qed.

Lemma exec_no_book st evs :
  ImportKjvUsfx.current_osis_book st = None ->
  (forall ev, In ev evs -> ImportKjvUsfx.unknown_book ev) ->
  snd (ImportKjvUsfx.exec st evs) = [].
Proof.
  revert st. induction evs as [|ev evs IH]; intros st H U; [reflexivity|].
  simpl. destruct (step_no_book st ev H (U ev (or_introl eq_refl))) as [H1 H2].
  destruct (ImportKjvUsfx.step st ev) as [s1 o1]. simpl in *. subst o1.
  specialize (IH s1 H1 (fun e He => U e (or_intror He))).
  destruct (ImportKjvUsfx.exec s1 evs). simpl in *. exact IH.
Qed.

(** In the streaming extractor the pass-through does not hold: the verse
    of the sample book [XYZ] has text, and no row is yielded for it. *)
Lemma C4_stream_counterexample :
  ~ (exists r, In r (ImportKjvUsfx.parse_usfx_stream ImportKjvUsfx.doc_unknown_book)
               /\ ImportKjvUsfx.book r = Some "XYZ").
Proof. intros [r [H _]]. vm_compute in H. exact H. Qed.

(** What the XPath [//verse[@osisID]] selects: the elements named
    [verse], in no namespace, that carry the attribute. *)
Lemma selected root v id :
  In v (iter root) -> tag v = "verse" ->
  dict_get (attrib v) "osisID" = Some id ->
  In (v, id) (ImportKjv.select_verses root).
Proof.
  intros Hin Ht Ha. unfold ImportKjv.select_verses. apply in_flat_map.
  exists v. split; [exact Hin|]. rewrite Ht, Ha. now left.
Qed.

(** C4, amended.  In the DOM extractors, a verse element that the XPath
    [//verse[@osisID]] selects (its tag is [verse], in no namespace, and
    it carries the attribute) and whose identifier has at least three
    dot-separated segments still yields its row when its book code is
    not a key of the book table, with the code itself as the book name.
    The streaming extractor does not fail either, but while no book of
    its table is open it yields nothing: the events of books whose ids
    are outside the table, and so a document made of such books, yield
    no row. *)
Theorem C4_unknown_book_code :
  (forall root v id code,
      In v (iter root) -> tag v = "verse" ->
      dict_get (attrib v) "osisID" = Some id ->
      3 <= List.length (split_on "." id) ->
      code = nth 0 (split_on "." id) EmptyString ->
      dict_get BOOK_NAME_MAP code = None ->
      (exists r, In r (Etl.parse_osis root)
                 /\ Etl.verse_row v id = Some r
                 /\ Etl.osis_id r = id /\ Etl.book r = code)
      /\ (exists r, In r (ImportKjv.parse_osis root)
                    /\ ImportKjv.verse_row v id = Some r
                    /\ ImportKjv.osis_id r = id /\ ImportKjv.book r = code))
  /\ (forall st evs,
        ImportKjvUsfx.current_osis_book st = None ->
        (forall ev, In ev evs -> ImportKjvUsfx.unknown_book ev) ->
        snd (ImportKjvUsfx.exec st evs) = [])
  /\ (forall root,
        (forall ev, In ev (iterparse root) -> ImportKjvUsfx.unknown_book ev) ->
        ImportKjvUsfx.parse_usfx_stream root = []).
Proof.
  split; [|split; [exact exec_no_book|]].
  - intros root v id code Hin Ht Ha Hlen -> Hget.
    pose proof (selected root v id Hin Ht Ha) as Hsel.
    assert (L : (List.length (split_on "." id) <? 3) = false)
      by (apply Nat.ltb_ge; exact Hlen).
    split.
    + eexists. split; [|split; [unfold Etl.verse_row; rewrite L; reflexivity|]].
      * unfold Etl.parse_osis. apply in_flat_map.
        exists (v, id). split; [exact Hsel|]. unfold Etl.verse_row. rewrite L.
        now left.
      * split; [reflexivity|].
        unfold dict_get_default; cbn [Etl.book]; now rewrite Hget.
    + eexists. split; [|split; [unfold ImportKjv.verse_row; rewrite L; reflexivity|]].
      * unfold ImportKjv.parse_osis. apply in_flat_map.
        exists (v, id). split; [exact Hsel|]. unfold ImportKjv.verse_row. rewrite L.
        now left.
      * split; [reflexivity|].
        unfold dict_get_default; cbn [ImportKjv.book]; now rewrite Hget.
  - intros root U. unfold ImportKjvUsfx.parse_usfx_stream, ImportKjvUsfx.run.
    now apply exec_no_book.
Qed.

(** A verse of the unknown book [Foo] in the DOM dialect, and the sample
    book [XYZ] in the milestone dialect. *)
Lemma C4_unknown_book_code_witness :
  (exists r, In r (Etl.parse_osis
                     (Element "osis" [] None
                        [Element "verse" [("osisID", "Foo.1.2")] (Some "text") [] None]
                        None))
             /\ Etl.book r = "Foo")
  /\ ImportKjvUsfx.parse_usfx_stream ImportKjvUsfx.doc_unknown_book = [].
Proof.
  destruct C4_unknown_book_code as [Hdom [_ Hstream]]. split.
  - destruct (Hdom (Element "osis" [] None
                      [Element "verse" [("osisID", "Foo.1.2")] (Some "text") [] None]
                      None)
                   (Element "verse" [("osisID", "Foo.1.2")] (Some "text") [] None)
                   "Foo.1.2" "Foo") as [[r [H1 [_ [_ H2]]]] _];
      [simpl; auto | reflexivity | reflexivity | simpl; lia | reflexivity
       | reflexivity |].
    exists r. split; assumption.
  - apply Hstream. intros ev H. simpl in H.
    repeat (destruct H as [<-|H]; [intros E; first [reflexivity | discriminate E]|]).
    destruct H.
Defined.

End UnknownBook.

(** ** Blank verses in the two DOM extractors *)

Module BlankVerse.
Import Py Xml Books PyFacts.

Lemma select_both root v id :
  In (v, id) (ImportKjv.select_verses root) ->
  In (v, id) (ImportKjvOsis.select_verses root).
Proof.
  unfold ImportKjv.select_verses, ImportKjvOsis.select_verses.
  rewrite !in_flat_map. intros [e [He Hin]]. exists e. split; [exact He|].
  destruct (String.eqb_spec (tag e) "verse") as [->|_]; [exact Hin | destruct Hin].
Qed.

Lemma patch_rows_nonempty v id r :
  ImportKjvOsis.verse_row v id = Some r -> ImportKjv.text r <> EmptyString.
Proof.
  unfold ImportKjvOsis.verse_row. destruct (_ <? 3); [discriminate|].
  destruct (nonempty (ImportKjvOsis.extract_plain_text v)) eqn:E; [|discriminate].
  intros [= <-]. simpl. now apply nonempty_true.
Qed.

(** The claim fails on a namespaced file: the verse of the sample is a
    verse element with a three-segment identifier and a blank text, and
    the one-pass extractor yields no row at all, so none for it. *)
Lemma C9_namespaced_counterexample :
  In OsisSamples.blank_namespaced_verse (iter OsisSamples.doc_namespaced_blank)
  /\ localname (tag OsisSamples.blank_namespaced_verse) = "verse"
  /\ dict_get (attrib OsisSamples.blank_namespaced_verse) "osisID" = Some "Gen.1.1"
  /\ List.length (split_on "." "Gen.1.1") = 3
  /\ ImportKjv.extract_plain_text OsisSamples.blank_namespaced_verse = EmptyString
  /\ ~ (exists r, In r (ImportKjv.parse_osis OsisSamples.doc_namespaced_blank)
                  /\ ImportKjv.text r = EmptyString).
Proof.
  split; [right; now left|]. split; [reflexivity|]. split; [reflexivity|].
  split; [reflexivity|]. split; [reflexivity|].
  intros [r [H _]]. vm_compute in H. exact H.
Qed.

(** C9, amended.  For a verse element in no namespace (its tag is
    [verse], as the XPath [//verse[@osisID]] of [import_kjv.py] asks)
    that carries an identifier of at least three segments and whose
    flattened, collapsed and trimmed text is empty,
    [import_kjv.parse_osis] yields a row for it with [text = ""] and
    [char_count = 0]; the patch variant selects the same element and its
    loop body yields nothing for it, and no row it ever yields has an
    empty text. *)
Theorem C9_blank_verse_kept_or_skipped :
  forall root v id,
    In v (iter root) -> tag v = "verse" ->
    dict_get (attrib v) "osisID" = Some id ->
    3 <= List.length (split_on "." id) ->
    ImportKjv.extract_plain_text v = EmptyString ->
    (exists r, ImportKjv.verse_row v id = Some r
               /\ In r (ImportKjv.parse_osis root)
               /\ ImportKjv.osis_id r = id
               /\ ImportKjv.text r = EmptyString
               /\ ImportKjv.char_count r = 0)
    /\ In (v, id) (ImportKjvOsis.select_verses root)
    /\ ImportKjvOsis.verse_row v id = None
    /\ (forall r, In r (ImportKjvOsis.parse_osis root) ->
                  ImportKjv.text r <> EmptyString).
Proof.
  intros root v id Hin Ht Ha Hlen Hblank.
  assert (Hsel : In (v, id) (ImportKjv.select_verses root)).
  { unfold ImportKjv.select_verses. apply in_flat_map.
    exists v. split; [exact Hin|]. rewrite Ht, Ha. now left. }
  assert (L : (List.length (split_on "." id) <? 3) = false)
    by (apply Nat.ltb_ge; exact Hlen).
  split; [|split; [|split]].
  - unfold ImportKjv.verse_row. rewrite L, Hblank. eexists.
    split; [reflexivity|]. split; [|repeat split].
    unfold ImportKjv.parse_osis. apply in_flat_map. exists (v, id).
    split; [exact Hsel|]. unfold ImportKjv.verse_row. rewrite L, Hblank. now left.
  - now apply select_both.
  - unfold ImportKjvOsis.verse_row. rewrite L.
    change (ImportKjvOsis.extract_plain_text v) with (ImportKjv.extract_plain_text v).
    rewrite Hblank. reflexivity.
  - intros r Hin'. unfold ImportKjvOsis.parse_osis in Hin'.
    apply in_flat_map in Hin' as [[v' id'] [_ Hin']].
    destruct (ImportKjvOsis.verse_row v' id') eqn:E; [|destruct Hin'].
    destruct Hin' as [<-|[]]. now apply patch_rows_nonempty in E.
Qed.

(** The blank verse Gen.1.1 of the sample document. *)
Lemma C9_blank_verse_kept_or_skipped_witness :
  (exists r, In r (ImportKjv.parse_osis ImportKjv.doc_blank_verse)
             /\ ImportKjv.osis_id r = "Gen.1.1"
             /\ ImportKjv.text r = EmptyString
             /\ ImportKjv.char_count r = 0)
  /\ map ImportKjv.osis_id (ImportKjvOsis.parse_osis ImportKjv.doc_blank_verse)
     = ["Gen.1.2"].
Proof.
  split; [|reflexivity].
  destruct (C9_blank_verse_kept_or_skipped ImportKjv.doc_blank_verse
              (Element "verse" [("osisID", "Gen.1.1")] (Some "  ") [] None) "Gen.1.1")
    as [[r [_ H]] _];
    [simpl; auto | reflexivity | reflexivity | simpl; lia | reflexivity |].
  exists r. exact H.
Defined.

End BlankVerse.

(** ** The two dialects side by side *)

Module CrossFacts.
Import Py Xml Books ImportKjvUsfx CrossDialect PyFacts UsfxFacts.

Lemma flat_map_flat_map {A B C} (f : B -> list C) (g : A -> list B) l :
  flat_map f (flat_map g l) = flat_map (fun x => flat_map f (g x)) l.
Proof.
  induction l as [|x l IH]; simpl; [reflexivity|].
  now rewrite flat_map_app, IH.
Qed.




Lemma filter_flat_map {A B} (p : B -> bool) (g : A -> list B) l :
  filter p (flat_map g l) = flat_map (fun x => filter p (g x)) l.
Proof.
  induction l as [|x l IH]; simpl; [reflexivity|]. now rewrite filter_app, IH.
Qed.

Lemma flat_map_ext_in {A B} (f g : A -> list B) l :
  (forall x, In x l -> f x = g x) -> flat_map f l = flat_map g l.
Proof.
  induction l as [|x l IH]; intros H; simpl; [reflexivity|].
  rewrite (H x) by now left. rewrite IH; [reflexivity|].
  intros y Hy. apply H. now right.
Qed.


(** *** The streaming side *)

Lemma exec_verse code nm o c cur buf v :
  plain_verse v = true -> 0 < vs_num v ->
  exec (mkState code nm o (Some (S c)) cur buf) (flat_map iterparse (usfx_verse v))
  = (mkState code nm o (Some (S c)) (Some (vs_num v))
       (if nonempty (strip (vs_text v)) then [vs_text v] else []),
     flush (mkState code nm o (Some (S c)) cur buf)).
Proof.
  intros Hp Hn. unfold usfx_verse, plain_verse in *.
  destruct (vs_inline v); [clear Hp | discriminate].
  cbn [flat_map iterparse app].
  rewrite exec_cons, (step_v_start _ _ _ Hn).
  cbn [current_book_code current_book_name current_osis_book current_chapter].
  rewrite exec_cons, step_v_end. cbn [exec].
  destruct (vs_num v) as [|n]; [lia|].
  rewrite capture_open by reflexivity. rewrite !app_nil_r.
  unfold text_node, append_if_text.
  destruct (nonempty (strip (vs_text v))) eqn:E.
  - pose proof (strip_nonempty_arg _ E) as T. rewrite T. cbn iota.
    rewrite T, E. reflexivity.
  - destruct (nonempty (vs_text v)) eqn:T; cbn iota; [rewrite T, E|]; reflexivity.
Qed.

Lemma flush_open code nm a b c v :
  flush (mkState code nm (Some (String a b)) (Some (S c)) (Some (vs_num v))
           (if nonempty (strip (vs_text v)) then [vs_text v] else []))
  = usfx_rows_verse (String a b) nm (S c) v.
Proof.
  unfold usfx_rows_verse. destruct (nonempty (strip (vs_text v))) eqn:E.
  - cbn [flush current_verse buffer current_osis_book current_chapter current_book_name].
    now rewrite (joined_single _ E).
  - reflexivity.
Qed.

Lemma exec_verses code nm a b c vs :
  forallb plain_verse vs = true ->
  forallb (fun v => 0 <? vs_num v) vs = true ->
  forall cur buf, exists cur' buf' out,
    exec (mkState code nm (Some (String a b)) (Some (S c)) cur buf)
         (flat_map iterparse (flat_map usfx_verse vs))
    = (mkState code nm (Some (String a b)) (Some (S c)) cur' buf', out)
    /\ out ++ flush (mkState code nm (Some (String a b)) (Some (S c)) cur' buf')
       = flush (mkState code nm (Some (String a b)) (Some (S c)) cur buf)
         ++ flat_map (usfx_rows_verse (String a b) nm (S c)) vs.
Proof.
  induction vs as [|v vs IH]; intros Hp Hn cur buf.
  - exists cur, buf, []. split; [reflexivity|]. simpl. now rewrite app_nil_r.
  - simpl in Hp, Hn. apply andb_true_iff in Hp as [Hp Hps].
    apply andb_true_iff in Hn as [Hn Hns]. apply Nat.ltb_lt in Hn.
    cbn [flat_map]. rewrite flat_map_app, exec_app.
    rewrite (exec_verse _ _ _ _ _ _ _ Hp Hn).
    destruct (IH Hps Hns (Some (vs_num v))
                (if nonempty (strip (vs_text v)) then [vs_text v] else []))
      as [cur' [buf' [out [E1 E2]]]].
    rewrite E1. exists cur', buf'. eexists. split; [reflexivity|].
    rewrite <- app_assoc, E2, flush_open. reflexivity.
Qed.

Lemma exec_chapters code nm a b cs :
  forallb (fun c => (0 <? cs_num c)
                    && forallb (fun v => 0 <? vs_num v) (cs_verses c)) cs = true ->
  forallb (fun c => forallb plain_verse (cs_verses c)) cs = true ->
  forall ch cur buf, exists ch' cur' buf' out,
    exec (mkState code nm (Some (String a b)) ch cur buf)
         (flat_map iterparse (flat_map usfx_chapter cs))
    = (mkState code nm (Some (String a b)) ch' cur' buf', out)
    /\ out ++ flush (mkState code nm (Some (String a b)) ch' cur' buf')
       = flush (mkState code nm (Some (String a b)) ch cur buf)
         ++ flat_map (fun c => flat_map (usfx_rows_verse (String a b) nm (cs_num c))
                                        (cs_verses c)) cs.
Proof.
  induction cs as [|c cs IH]; intros Hn Hp ch cur buf.
  - exists ch, cur, buf, []. split; [reflexivity|]. simpl. now rewrite app_nil_r.
  - simpl in Hp, Hn. apply andb_true_iff in Hp as [Hp Hps].
    apply andb_true_iff in Hn as [Hn Hns]. apply andb_true_iff in Hn as [Hc Hv].
    apply Nat.ltb_lt in Hc.
    cbn [flat_map]. rewrite flat_map_app, exec_app.
    unfold usfx_chapter at 1. cbn [flat_map iterparse app].
    rewrite exec_cons, (step_c_start _ _ Hc).
    cbn [current_book_code current_book_name current_osis_book].
    rewrite exec_cons, step_c_end.
    destruct (cs_num c) as [|n] eqn:En; [lia|].
    destruct (exec_verses code nm a b n _ Hp Hv None []) as [cur1 [buf1 [o1 [E1 E2]]]].
    rewrite E1.
    destruct (IH Hns Hps (Some (S n)) cur1 buf1) as [ch' [cur' [buf' [o2 [E3 E4]]]]].
    rewrite E3. exists ch', cur', buf'. eexists. split; [reflexivity|].
    cbn [app]. rewrite <- !app_assoc, E4.
    rewrite (app_assoc o1), E2. cbn [flush current_verse app].
    reflexivity.
Qed.

Lemma exec_book b :
  same_book b = true -> positive_numbers b = true ->
  forallb (fun c => forallb plain_verse (cs_verses c)) (bs_chapters b) = true ->
  exec initial (iterparse (usfx_book b)) = (initial, usfx_rows_book b).
Proof.
  intros Hs Hn Hp. unfold same_book in Hs.
  destruct (dict_get USFX_TO_OSIS (bs_usfx b)) as [o|] eqn:Hu; [|discriminate].
  apply String.eqb_eq in Hs. subst o.
  destruct (usfx_table_ok _ _ Hu) as [Hne _].
  unfold usfx_book, usfx_rows_book, initial. cbn [iterparse].
  rewrite exec_cons, (step_book_start _ _ _ _ _ _ _ _ _ _ Hu).
  destruct (bs_osis b) as [|x y] eqn:Eo; [discriminate|].
  rewrite exec_app.
  destruct (exec_chapters (Some (bs_usfx b))
              (Some (dict_get_default OSIS_TO_NAME (String x y) (String x y)))
              x y _ Hn Hp None None []) as [ch' [cur' [buf' [out [E1 E2]]]]].
  rewrite E1. rewrite exec_cons, step_book_end. cbn [exec app].
  rewrite app_nil_r. unfold initial. f_equal.
  rewrite E2. reflexivity.
Qed.

Lemma exec_books bs :
  well_formed bs = true -> plain bs = true ->
  exec initial (flat_map iterparse (map usfx_book bs))
  = (initial, flat_map usfx_rows_book bs).
Proof.
  induction bs as [|b bs IH]; intros Hw Hp; [reflexivity|].
  simpl in Hw, Hp. apply andb_true_iff in Hw as [Hb Hw].
  apply andb_true_iff in Hb as [Hs Hn]. apply andb_true_iff in Hp as [Hpb Hp].
  cbn [map flat_map]. rewrite exec_app, (exec_book b Hs Hn Hpb), (IH Hw Hp).
  reflexivity.
Qed.

(** The rows of the streaming extractor on plain-text content. *)
Lemma stream_plain bs :
  well_formed bs = true -> plain bs = true ->
  parse_usfx_stream (encode_usfx bs) = flat_map usfx_rows_book bs.
Proof.
  intros Hw Hp. unfold parse_usfx_stream, run, encode_usfx. cbn [iterparse].
  rewrite exec_cons. change (step initial (Start, Element "usfx" [] None (map usfx_book bs) None))
    with (initial, @nil row).
  cbn iota. rewrite exec_app, (exec_books bs Hw Hp). cbn. now rewrite app_nil_r.
Qed.

(** *** The DOM side *)






(** *** Verse by verse *)



End CrossFacts.

(** ** Cross-dialect equivalence *)

Module CrossDialectEquivalence.
Import Py Xml Books CrossDialect PyFacts CrossFacts.


Lemma deliver_complete shown evs :
  complete shown -> forall i, deliver shown i evs = evs.
Proof.
  intros H. induction evs as [|[[|] [t a x ch tl]] evs IH]; intros i;
    [reflexivity| |]; cbn [deliver at_event]; now rewrite H, IH.
Qed.

Lemma chunked_complete shown root :
  complete shown ->
  ImportKjvUsfx.parse_usfx_chunked shown root = ImportKjvUsfx.parse_usfx_stream root.
Proof.
  intros H. unfold ImportKjvUsfx.parse_usfx_chunked, iterparse_chunked.
  now rewrite (deliver_complete shown _ H).
Qed.

(** When a chunk ends between a verse marker and the end of its text,
    the loop finds no tail on the marker and the verse is lost: the
    streaming extractor yields nothing where the DOM extractor yields the
    row. *)
Lemma withheld_tail_loses_verse :
  ImportKjvUsfx.parse_usfx_chunked
    (withheld_at 5)
    (encode_usfx [mkBook "GEN" "Gen" [mkChapter 1 [mkVerse 1 "In the beginning" []]]])
  = []
  /\ map ImportKjv.osis_id
         (ImportKjv.parse_osis
            (encode_osis
               [mkBook "GEN" "Gen" [mkChapter 1 [mkVerse 1 "In the beginning" []]]]))
     = ["Gen.1.1"].
Proof. split; vm_compute; reflexivity. Qed.



End CrossDialectEquivalence.

(** ** Safety flags *)

Module SafetyFacts.
Import Py Etl.

Lemma last_char_cons c r :
  last_char (String c r)
  = match last_char r with Some x => Some x | None => Some c end.
Proof.
  destruct r as [|a r]; [reflexivity|].
  change (last_char (String c (String a r))) with (last_char (String a r)).
  assert (H : exists x, last_char (String a r) = Some x).
  { clear c. revert a. induction r as [|b r IH]; intros a.
    - now exists a.
    - destruct (IH b) as [x Hx]. exists x. exact Hx. }
  destruct H as [x ->]. reflexivity.
Qed.

(** A match found after a prefix is found by the search from the start. *)
Lemma search_after_prefix alts pre s before :
  search_from alts
    (match last_char pre with Some c => Some c | None => before end) s = true ->
  search_from alts before (pre ++ s) = true.
Proof.
  revert before. induction pre as [|c pre IH]; intros before H; [exact H|].
  cbn [append search_from]. apply orb_true_iff. right. apply IH.
  rewrite last_char_cons in H. destruct (last_char pre); exact H.
Qed.

Lemma search_here alts before s alt :
  In alt alts -> match_at before s alt = true -> search_from alts before s = true.
Proof.
  intros Hin Hm. destruct s; cbn [search_from]; apply orb_true_iff; left;
    apply existsb_exists; exists alt; auto.
Qed.

Lemma lower_char_word c : isword (lower_char c) = true -> isword c = true.
Proof.
  destruct c as [[] [] [] [] [] [] [] []]; vm_compute; auto.
Qed.

(** A word that reads [sword] in lower case is matched as a literal. *)
Lemma match_sword w post before :
  lower w = "sword" ->
  exists c0 c4 : ascii,
    head_char (w ++ post) = Some c0 /\ isword c0 = true /\ isword c4 = true
    /\ match_literal "sword" (w ++ post) before = Some (Some c4, post).
Proof.
  intros H.
  destruct w as [|c0 [|c1 [|c2 [|c3 [|c4 [|c5 w]]]]]]; try discriminate H.
  cbn [lower] in H. injection H as H0 H1 H2 H3 H4.
  exists c0, c4. cbn [append head_char match_literal].
  assert (W : forall c x, lower_char c = x -> isword x = true -> isword c = true)
    by (intros c x <-; apply lower_char_word).
  repeat split; [eapply W; eauto; reflexivity | eapply W; eauto; reflexivity |].
  rewrite H0, H1, H2, H3, H4. reflexivity.
Qed.

Lemma sword_matches pre w post :
  lower w = "sword" ->
  isword_opt (last_char pre) = false ->
  isword_opt (head_char post) = false ->
  re_search RE_VIOLENCE (pre ++ w ++ post) = true.
Proof.
  intros Hw Hpre Hpost. unfold re_search. apply search_after_prefix.
  apply (search_here _ _ _ "sword"); [simpl; auto|].
  set (before := match last_char pre with Some c => Some c | None => None end).
  assert (Hb : isword_opt before = false)
    by (unfold before; destruct (last_char pre); assumption).
  destruct (match_sword w post before Hw) as [c0 [c4 [Hh [W0 [W4 Hm]]]]].
  unfold match_at. rewrite Hh, Hm. unfold word_boundary.
  rewrite Hb, Hpost. cbn [isword_opt]. now rewrite W0, W4.
Qed.

Lemma annotate_safety np embed argsort cache v text :
  safety_of (fst (annotate np embed argsort cache v text)) = safety_flags text.
Proof.
  unfold annotate.
  destruct (theme_tags_from_semantics embed argsort cache v text 3). reflexivity.
Qed.

Lemma annotate_all_safety np embed argsort texts :
  forall cache vecs i,
    map safety_of (fst (annotate_all np embed argsort cache vecs i texts))
    = map safety_flags texts.
Proof.
  induction texts as [|t texts IH]; intros cache vecs i; [reflexivity|].
  cbn [annotate_all].
  set (v := match vecs with Some vs => Some (nth i vs []) | None => None end).
  pose proof (annotate_safety np embed argsort cache v t) as H.
  destruct (annotate np embed argsort cache v t) as [a c1].
  specialize (IH c1 vecs (S i)).
  destruct (annotate_all np embed argsort c1 vecs (S i) texts) as [r c2].
  cbn [fst map] in *. now rewrite H, IH.
Qed.

(** C7.  The safety flags are a function of the text alone: whatever the
    fingerprint provider, the cache and the use of embeddings, the safety
    record of each annotation is [safety_flags] of the verse text;
    [kid_safe] is the negation of (violence or sexual); and a text in which
    the word [sword], in any letter case, stands between non-word
    characters (or the ends of the text) has [violence = true] and
    [kid_safe = false]. *)
Theorem C7_safety_flags :
  (forall np embed argsort cache texts use_embeddings,
      map safety_of
          (fst (process_annotations np embed argsort cache texts use_embeddings))
      = map safety_flags texts)
  /\ (forall text,
        kid_safe (safety_flags text)
        = negb (violence (safety_flags text) || sexual (safety_flags text)))
  /\ (forall pre w post,
        lower w = "sword" ->
        isword_opt (last_char pre) = false ->
        isword_opt (head_char post) = false ->
        violence (safety_flags (pre ++ w ++ post)) = true
        /\ kid_safe (safety_flags (pre ++ w ++ post)) = false).
Proof.
  split; [|split].
  - intros. unfold process_annotations. apply annotate_all_safety.
  - reflexivity.
  - intros pre w post Hw Hpre Hpost.
    pose proof (sword_matches pre w post Hw Hpre Hpost) as H.
    unfold safety_flags. cbn [violence kid_safe]. rewrite H. split; reflexivity.
Qed.

(** "They shall beat their Swords into plowshares." *)
Lemma C7_safety_flags_witness :
  violence (safety_flags "They shall beat their Swords into plowshares") = false
  /\ violence (safety_flags "Put up thy Sword, into the sheath") = true
  /\ kid_safe (safety_flags "Put up thy Sword, into the sheath") = false.
Proof.
  split; [reflexivity|].
  destruct C7_safety_flags as [_ [_ H]].
  apply (H "Put up thy " "Sword" ", into the sheath"); reflexivity.
Defined.

End SafetyFacts.


(** ** Familiarity *)

Module FamiliarityFacts.
Import Py Etl.
Local Open Scope Q_scope.

(** All 141 values of [k = max(0, 140 - L)], checked by evaluation. *)
Lemma familiarity_table :
  forallb familiarity_checks (seq 0 141) = true.
Proof. vm_compute. reflexivity. Qed.

Lemma familiarity_at_0 : familiarity_of_k 0 = 1 # 2.
Proof. vm_compute. reflexivity. Qed.

Lemma decimals_table : forallb decimals_check (seq 0 141) = true.
Proof. vm_compute. reflexivity. Qed.

Local Opaque familiarity_of_k familiarity_spec_of_k familiarity_exact_of_k
  familiarity_formula_of_k.

Lemma familiarity_decimals n :
  (n <= 140)%nat ->
  rounded_to_3_decimals (familiarity_of_k (Z.of_nat n))
                        (familiarity_formula_of_k (Z.of_nat n)).
Proof.
  intros H. pose proof decimals_table as T. rewrite forallb_forall in T.
  assert (I : In n (seq 0 141)) by (apply in_seq; lia).
  specialize (T n I). unfold decimals_check in T.
  apply andb_true_iff in T as [T1 T2]. apply Qle_bool_iff in T1, T2.
  exists (thousandths (familiarity_of_k (Z.of_nat n))).
  split; [exact T1 | exact T2].
Qed.

Lemma familiarity_k n :
  (n <= 140)%nat ->
  familiarity_of_k (Z.of_nat n) == familiarity_spec_of_k (Z.of_nat n)
  /\ 0 <= familiarity_of_k (Z.of_nat n) <= 1
  /\ familiarity_of_k (Z.of_nat n) <= familiarity_of_k (Z.of_nat n + 1)
  /\ Qabs (familiarity_of_k (Z.of_nat n) - familiarity_exact_of_k (Z.of_nat n))
     <= 501 # 1000000.
Proof.
  intros H. pose proof familiarity_table as T. rewrite forallb_forall in T.
  assert (I : In n (seq 0 141)) by (apply in_seq; lia).
  specialize (T n I). unfold familiarity_checks in T.
  apply andb_true_iff in T as [T T5]. apply andb_true_iff in T as [T T4].
  apply andb_true_iff in T as [T T3]. apply andb_true_iff in T as [T1 T2].
  apply Qeq_bool_iff in T1. apply Qle_bool_iff in T2, T3, T4, T5.
  split; [exact T1|]. split; [split; [exact T2 | exact T3]|]. split; [exact T4 | exact T5].
Qed.

Lemma k_of_len L : Z.max 0 (140 - Z.of_nat L) = Z.of_nat (140 - L).
Proof. lia. Qed.

Lemma familiarity_flat L : (140 <= L)%nat -> familiarity_of_len L = familiarity_of_k 0.
Proof. intros H. unfold familiarity_of_len. f_equal. lia. Qed.

Lemma familiarity_k_mono n m :
  (n <= m)%nat -> (m <= 140)%nat ->
  familiarity_of_k (Z.of_nat n) <= familiarity_of_k (Z.of_nat m).
Proof.
  induction 1 as [|m Hle IH]; intros Hm; [apply Qle_refl|].
  eapply Qle_trans; [apply IH; lia|].
  replace (Z.of_nat (S m)) with (Z.of_nat m + 1)%Z by lia.
  apply familiarity_k. lia.
Qed.

Lemma familiarity_mono L1 L2 :
  (L1 <= L2)%nat -> familiarity_of_len L2 <= familiarity_of_len L1.
Proof.
  intros H. unfold familiarity_of_len. rewrite !k_of_len.
  apply familiarity_k_mono; lia.
Qed.

(** C8.  For every text of length [L], [familiarity_score] is the formula
    [clamp(0.5 + max(0, 140 - L)/400, 0, 1)] rounded to 3 decimals: it is
    a count of thousandths (up to the spacing of binary64 numbers, 2^-54)
    that is a nearest three-decimal value of the exact value of the
    formula; clamping before rounding, as the spec has it, or after, as
    the code does, gives the same number.  The score lies in [0, 1], does
    not increase with [L], and is 0.5 for every [L >= 140]. *)
Theorem C8_familiarity_score :
  forall text,
    rounded_to_3_decimals (familiarity_score text)
                          (familiarity_formula (String.length text))
    /\ familiarity_score text == familiarity_spec (String.length text)
    /\ Qabs (familiarity_score text - familiarity_exact (String.length text))
       <= 501 # 1000000
    /\ 0 <= familiarity_score text <= 1
    /\ (forall text', (String.length text <= String.length text')%nat ->
                      familiarity_score text' <= familiarity_score text)
    /\ ((140 <= String.length text)%nat -> familiarity_score text = 1 # 2).
Proof.
  intros text. unfold familiarity_score, familiarity_spec, familiarity_exact,
    familiarity_formula, familiarity_of_len.
  rewrite !k_of_len.
  destruct (familiarity_k (140 - String.length text)) as [A1 [A2 [_ A4]]]; [lia|].
  split; [apply familiarity_decimals; lia|].
  split; [exact A1|]. split; [exact A4|]. split; [exact A2|]. split.
  - intros text' H. rewrite <- !k_of_len. now apply familiarity_mono.
  - intros H. replace (140 - String.length text)%nat with 0%nat by lia.
    exact familiarity_at_0.
Qed.

(** A text of 26 characters against one of 150. *)
Lemma C8_familiarity_score_witness :
  familiarity_score long_text
  <= familiarity_score short_text
  /\ familiarity_score long_text = 1 # 2.
Proof.
  destruct (C8_familiarity_score short_text) as [_ [_ [_ [_ [M _]]]]].
  destruct (C8_familiarity_score long_text)
    as [_ [_ [_ [_ [_ F]]]]].
  split.
  - apply M. vm_compute. lia.
  - apply F. vm_compute. lia.
Defined.

End FamiliarityFacts.

(** ** Theme classification *)

Module ThemeFacts.
Import Py Etl.
Local Open Scope Q_scope.

(** *** The stable argsort meets the contract *)

Lemma insert_idx_In xs i l x :
  In x (insert_idx xs i l) <-> x = i \/ In x l.
Proof.
  induction l as [|j r IH]; simpl; [intuition|].
  destruct (Qle_bool _ _); simpl; [rewrite IH|]; intuition.
Qed.

Lemma insert_idx_perm xs i l : Permutation (insert_idx xs i l) (i :: l).
Proof.
  induction l as [|j r IH]; simpl; [reflexivity|].
  destruct (Qle_bool _ _); [|reflexivity].
  rewrite IH. apply perm_swap.
Qed.

Lemma insert_idx_sorted xs i l :
  StronglySorted Qle (map (score xs) l) ->
  StronglySorted Qle (map (score xs) (insert_idx xs i l)).
Proof.
  induction l as [|j r IH]; intros H; simpl.
  - constructor; constructor.
  - inversion H as [|? ? Hr Hj]; subst.
    fold (score xs j) (score xs i).
    destruct (Qle_bool (score xs j) (score xs i)) eqn:E; simpl.
    + constructor; [now apply IH|].
      apply Forall_forall. intros y Hy. apply in_map_iff in Hy as [x [<- Hx]].
      apply insert_idx_In in Hx as [->|Hx].
      * now apply Qle_bool_iff.
      * rewrite Forall_forall in Hj. apply Hj. now apply in_map.
    + assert (L : score xs i <= score xs j).
      { apply Qlt_le_weak, Qnot_le_lt. intros C.
        apply Qle_bool_iff in C. congruence. }
      constructor; [exact H|]. constructor; [exact L|].
      eapply Forall_impl; [|exact Hj]. intros y Hy. eapply Qle_trans; eauto.
Qed.

Lemma fold_insert_perm xs l acc :
  Permutation (fold_left (fun a i => insert_idx xs i a) l acc) (l ++ acc).
Proof.
  revert acc. induction l as [|i l IH]; intros acc; simpl; [reflexivity|].
  rewrite IH, insert_idx_perm. symmetry. apply Permutation_middle.
Qed.

Lemma fold_insert_sorted xs l acc :
  StronglySorted Qle (map (score xs) acc) ->
  StronglySorted Qle (map (score xs) (fold_left (fun a i => insert_idx xs i a) l acc)).
Proof.
  revert acc. induction l as [|i l IH]; intros acc H; simpl; [exact H|].
  apply IH, insert_idx_sorted, H.
Qed.

Lemma argsort_stable_ok : argsort_ok argsort_stable.
Proof.
  intros xs. unfold argsort_stable. split.
  - rewrite fold_insert_perm. now rewrite app_nil_r.
  - apply fold_insert_sorted. constructor.
Qed.

(** *** Sorted lists *)

Lemma sorted_app_single {A} (R : A -> A -> Prop) l a :
  StronglySorted R l -> Forall (fun x => R x a) l -> StronglySorted R (l ++ [a]).
Proof.
  induction l as [|x l IH]; intros Hs Hf; simpl.
  - constructor; constructor.
  - inversion Hs; subst. inversion Hf; subst.
    constructor; [now apply IH|]. apply Forall_app. split; [assumption|].
    constructor; [assumption | constructor].
Qed.

Lemma sorted_rev {A} (R : A -> A -> Prop) l :
  StronglySorted R l -> StronglySorted (fun a b => R b a) (rev l).
Proof.
  induction 1 as [|a l Hs IH Hf]; simpl; [constructor|].
  apply sorted_app_single; [exact IH|].
  apply Forall_forall. intros x Hx. apply in_rev in Hx.
  rewrite Forall_forall in Hf. now apply Hf.
Qed.

Lemma sorted_app_inv {A} (R : A -> A -> Prop) l1 l2 :
  StronglySorted R (l1 ++ l2) ->
  StronglySorted R l1 /\ forall a b, In a l1 -> In b l2 -> R a b.
Proof.
  induction l1 as [|x l1 IH]; simpl; intros H.
  - split; [constructor | intros a b []].
  - inversion H as [|? ? Hs Hf]; subst. destruct (IH Hs) as [S1 S2].
    apply Forall_app in Hf as [F1 F2]. split; [now constructor|].
    intros a b [<-|Ha] Hb; [|now apply S2].
    rewrite Forall_forall in F2. now apply F2.
Qed.

(** *** The centroid table *)

Lemma map_fst_combine {A B} (l : list A) (l' : list B) :
  List.length l = List.length l' -> map fst (combine l l') = l.
Proof.
  revert l'. induction l as [|a l IH]; intros [|b l'] H; simpl in *;
    try discriminate; [reflexivity|]. f_equal. apply IH. congruence.
Qed.

Lemma map_snd_combine {A B} (l : list A) (l' : list B) :
  List.length l = List.length l' -> map snd (combine l l') = l'.
Proof.
  revert l'. induction l as [|a l IH]; intros [|b l'] H; simpl in *;
    try discriminate; [reflexivity|]. f_equal. apply IH. congruence.
Qed.

Section Centroids.
Variable embed : list string -> list vec.
Hypothesis rows : embed_rows embed.

Let cents := fst (build_tag_centroids embed None).

Lemma cents_shape :
  List.length (map fst THEME_DESCRIPTIONS)
  = List.length (embed (map (fun '(tag, desc) => (tag ++ ": " ++ desc)%string)
                            THEME_DESCRIPTIONS)).
Proof. rewrite rows. rewrite !length_map. reflexivity. Qed.

Lemma cents_names : map fst cents = theme_names.
Proof.
  unfold cents, build_tag_centroids. cbn [fst].
  apply map_fst_combine, cents_shape.
Qed.

Lemma cents_count : List.length (map snd cents) = 15%nat.
Proof.
  unfold cents, build_tag_centroids. cbn [fst].
  rewrite (map_snd_combine _ _ cents_shape), rows, length_map. reflexivity.
Qed.

Lemma build_cached cache :
  cache_ok embed cache -> build_tag_centroids embed cache = (cents, Some cents).
Proof. intros [->| ->]; reflexivity. Qed.

End Centroids.

Lemma length_matvec M v : List.length (matvec M v) = List.length M.
Proof. apply length_map. Qed.

Lemma above_floor_iff sims i : above_floor sims i = true <-> 1 # 4 <= score sims i.
Proof. unfold above_floor, score. apply Qle_bool_iff. Qed.

(** The [k] first indices of the reversed argsort: the [k] best. *)
Lemma top_k_spec argsort xs k :
  argsort_ok argsort -> (k <= List.length xs)%nat ->
  let top := firstn k (rev (argsort xs)) in
  List.length top = k
  /\ NoDup top
  /\ (forall i, In i top -> (i < List.length xs)%nat)
  /\ StronglySorted (fun a b => b <= a) (map (score xs) top)
  /\ (forall i j, In i top -> (j < List.length xs)%nat -> ~ In j top ->
                  score xs j <= score xs i).
Proof.
  intros Hok Hk top. destruct (Hok xs) as [Hp Hs].
  set (order := rev (argsort xs)) in *.
  assert (Po : Permutation order (seq 0 (List.length xs)))
    by (unfold order; now rewrite <- Permutation_rev).
  assert (Lo : List.length order = List.length xs)
    by (rewrite (Permutation_length Po); apply length_seq).
  assert (No : NoDup order)
    by (eapply Permutation_NoDup; [symmetry; exact Po | apply seq_NoDup]).
  assert (So : StronglySorted (fun a b => b <= a) (map (score xs) order))
    by (unfold order; rewrite map_rev; now apply sorted_rev).
  assert (Eo : order = top ++ skipn k order)
    by (unfold top; now rewrite firstn_skipn).
  split; [unfold top; apply firstn_length_le; lia|].
  rewrite Eo in No, So. rewrite map_app in So.
  apply sorted_app_inv in So as [S1 S2].
  split; [now apply NoDup_app_remove_r in No|].
  split.
  { intros i Hi. assert (In i order) by (rewrite Eo; apply in_or_app; now left).
    apply (Permutation_in _ Po) in H. apply in_seq in H. lia. }
  split; [exact S1|].
  intros i j Hi Hj Hn.
  assert (Ij : In j order)
    by (apply (Permutation_in _ (Permutation_sym Po)); apply in_seq; lia).
  rewrite Eo in Ij. apply in_app_or in Ij as [Ij|Ij]; [contradiction|].
  apply S2; now apply in_map.
Qed.

End ThemeFacts.

Module ThemeClassification.
Import Py Etl ThemeFacts.
Local Open Scope Q_scope.

(** C5.  With a fingerprint [v], [theme_tags_from_semantics] scores the
    15 theme centroids by similarity, takes the 3 indices with the highest
    scores (three distinct indices in descending order of score, every
    other index scoring no higher), keeps those whose score is at least
    0.25 and returns their labels in that order; when none is kept, in
    particular when no label of the vocabulary reaches 0.25, it returns
    the single label [comfort].  The result has between 1 and 3 labels,
    all from the 15-entry vocabulary. *)
Theorem C5_theme_tags :
  forall embed argsort cache v text,
    embed_rows embed -> argsort_ok argsort -> cache_ok embed cache ->
    let cents := fst (build_tag_centroids embed None) in
    let sims := matvec (map snd cents) v in
    let top := firstn 3 (rev (argsort sims)) in
    let kept := filter (above_floor sims) top in
    let result :=
      fst (theme_tags_from_semantics embed argsort cache (Some v) text 3) in
    List.length theme_names = 15%nat
    /\ List.length sims = 15%nat
    /\ List.length top = 3%nat
    /\ NoDup top
    /\ (forall i, In i top -> (i < 15)%nat)
    /\ StronglySorted (fun a b => b <= a) (map (score sims) top)
    /\ (forall i j, In i top -> (j < 15)%nat -> ~ In j top ->
                    score sims j <= score sims i)
    /\ (forall i, In i kept <-> In i top /\ 1 # 4 <= score sims i)
    /\ result = match kept with
                | [] => ["comfort"]
                | _ => map (fun i => nth i theme_names EmptyString) kept
                end
    /\ ((forall j, (j < 15)%nat -> score sims j < 1 # 4) -> result = ["comfort"])
    /\ (1 <= List.length result <= 3)%nat
    /\ (forall l, In l result -> In l theme_names).
Proof.
  intros embed argsort cache v text Hrows Hsort Hcache cents sims top kept result.
  assert (Ls : List.length sims = 15%nat)
    by (unfold sims; rewrite length_matvec; now apply cents_count).
  destruct (top_k_spec argsort sims 3 Hsort) as [T1 [T2 [T3 [T4 T5]]]];
    [rewrite Ls; lia|]. fold top in T1, T2, T3, T4, T5. rewrite Ls in T3, T5.
  assert (K : forall i, In i kept <-> In i top /\ 1 # 4 <= score sims i).
  { intros i. unfold kept. rewrite filter_In, above_floor_iff. tauto. }
  assert (R : result = match kept with
                       | [] => ["comfort"]
                       | _ => map (fun i => nth i theme_names EmptyString) kept
                       end).
  { unfold result, theme_tags_from_semantics.
    rewrite (build_cached embed cache Hcache). cbn [fst].
    rewrite (cents_names embed Hrows). fold cents. fold sims. fold top. fold kept.
    destruct kept; reflexivity. }
  assert (Lk : (List.length kept <= 3)%nat).
  { unfold kept. rewrite <- T1. apply filter_length_le. }
  split; [reflexivity|]. split; [exact Ls|]. split; [exact T1|].
  split; [exact T2|]. split; [exact T3|]. split; [exact T4|].
  split; [exact T5|]. split; [exact K|]. split; [exact R|].
  split; [|split].
  - intros Hlow. rewrite R.
    destruct kept as [|i r] eqn:E; [reflexivity|]. exfalso.
    assert (Hi : In i (i :: r)) by now left.
    apply K in Hi as [Hi Hge]. apply T3 in Hi.
    apply (Qlt_not_le _ _ (Hlow i Hi)), Hge.
  - rewrite R. destruct kept as [|i r] eqn:E; [simpl; lia|].
    rewrite length_map. simpl in *. lia.
  - intros l Hl. rewrite R in Hl.
    destruct kept as [|i r] eqn:E.
    + destruct Hl as [<-|[]]. simpl. auto.
    + apply in_map_iff in Hl as [j [<- Hj]].
      apply K in Hj as [Hj _]. apply T3 in Hj.
      apply nth_In. exact Hj.
Qed.

(** The toy provider and the stable argsort: a fingerprint that scores
    high on every theme, and one that scores low on all. *)
Lemma C5_theme_tags_witness :
  fst (theme_tags_from_semantics toy_embed argsort_stable None
         (Some [1]) EmptyString 3)
  = ["comfort"; "wisdom"; "perseverance"]
  /\ fst (theme_tags_from_semantics toy_embed argsort_stable None
            (Some [1 # 10]) EmptyString 3)
     = ["comfort"].
Proof.
  assert (Hrows : embed_rows toy_embed) by (intros ts; apply length_map).
  split.
  - destruct (C5_theme_tags toy_embed argsort_stable None [1] EmptyString
                Hrows argsort_stable_ok (or_introl eq_refl))
      as [_ [_ [_ [_ [_ [_ [_ [_ [R _]]]]]]]]].
    etransitivity; [exact R|]. vm_compute. reflexivity.
  - destruct (C5_theme_tags toy_embed argsort_stable None [1 # 10] EmptyString
                Hrows argsort_stable_ok (or_introl eq_refl))
      as [_ [_ [_ [_ [_ [_ [_ [_ [_ [F _]]]]]]]]]].
    apply F. intros j Hj.
    do 15 (destruct j as [|j]; [vm_compute; reflexivity|]). lia.
Defined.

End ThemeClassification.

(** ** Tone and daypart distributions *)

Module SoftmaxFacts.
Import Py Etl ThemeFacts.
Local Open Scope R_scope.

(** *** Sums *)

Lemma sum_R_nil : sum_R [] = 0.
Proof. reflexivity. Qed.

Lemma sum_R_cons x l : sum_R (x :: l) = x + sum_R l.
Proof. reflexivity. Qed.

Lemma Rabs_le_elim a b : Rabs a <= b -> - b <= a <= b.
Proof. unfold Rabs. destruct (Rcase_abs a); lra. Qed.

Lemma sum_R_nonneg l : Forall (fun x => 0 <= x) l -> 0 <= sum_R l.
Proof.
  induction 1 as [|x l Hx _ IH]; rewrite ?sum_R_nil, ?sum_R_cons; lra.
Qed.

Lemma sum_R_ge_in l x : Forall (fun y => 0 <= y) l -> In x l -> x <= sum_R l.
Proof.
  induction 1 as [|y l Hy Hl IH]; intros Hin; [destruct Hin|].
  rewrite sum_R_cons. pose proof (sum_R_nonneg l Hl).
  destruct Hin as [->|Hin]; [lra|]. specialize (IH Hin). lra.
Qed.

Lemma sum_R_scale {A} (f : A -> R) c xs :
  sum_R (map (fun x => f x * c) xs) = sum_R (map f xs) * c.
Proof.
  induction xs as [|x xs IH]; cbn [map]; rewrite ?sum_R_cons, ?sum_R_nil;
    [ring|]. rewrite IH. ring.
Qed.

Lemma sum_R_between {A} (f g : A -> R) lo hi xs :
  (forall x, In x xs -> lo * g x <= f x <= hi * g x) ->
  lo * sum_R (map g xs) <= sum_R (map f xs) <= hi * sum_R (map g xs).
Proof.
  induction xs as [|x xs IH]; intros H; cbn [map];
    rewrite ?sum_R_cons, ?sum_R_nil; [lra|].
  pose proof (H x (or_introl eq_refl)).
  assert (IH' := IH (fun y Hy => H y (or_intror Hy))). lra.
Qed.

Lemma sum_R_near {A} (f g : A -> R) a t xs :
  (forall x, In x xs -> Rabs (f x - g x) <= a * g x + t) ->
  Rabs (sum_R (map f xs) - sum_R (map g xs))
  <= a * sum_R (map g xs) + INR (List.length xs) * t.
Proof.
  induction xs as [|x xs IH]; intros H; cbn [map List.length];
    rewrite ?sum_R_cons, ?sum_R_nil.
  - cbn [INR]. replace (0 - 0) with 0 by ring. rewrite Rabs_R0. lra.
  - rewrite S_INR.
    pose proof (Rabs_le_elim _ _ (H x (or_introl eq_refl))).
    pose proof (Rabs_le_elim _ _ (IH (fun y Hy => H y (or_intror Hy)))).
    apply Rabs_le. lra.
Qed.

Lemma sum_exp_pos {A} (f : A -> R) xs :
  xs <> [] -> 0 < sum_R (map (fun x => exp (f x)) xs).
Proof.
  destruct xs as [|x xs]; [congruence|]. intros _. cbn [map].
  rewrite sum_R_cons. pose proof (exp_pos (f x)).
  assert (0 <= sum_R (map (fun x => exp (f x)) xs)); [|lra].
  apply sum_R_nonneg, Forall_forall. intros y Hy.
  apply in_map_iff in Hy as [z [<- _]]. left. apply exp_pos.
Qed.

Lemma sum_R_Q2R l : sum_R (map Q2R l) = Q2R (fold_right Qplus 0%Q l).
Proof.
  induction l as [|q l IH]; cbn [map fold_right]; rewrite ?sum_R_cons, ?sum_R_nil.
  - unfold Q2R. cbn. lra.
  - now rewrite Q2R_plus, IH.
Qed.

(** *** The maximum *)

Lemma fold_max r :
  forall x,
    let m := fold_left (fun m y => if Qle_bool m y then y else m) r x in
    (m = x \/ In m r) /\ (x <= m)%Q /\ (forall y, In y r -> (y <= m)%Q).
Proof.
  induction r as [|a r IH]; intros x m.
  - unfold m. cbn. split; [now left|]. split; [apply Qle_refl|]. intros y [].
  - unfold m. cbn [fold_left].
    destruct (IH (if Qle_bool x a then a else x)) as [I1 [I2 I3]].
    set (m' := fold_left _ r _) in *.
    destruct (Qle_bool x a) eqn:E.
    + apply Qle_bool_iff in E. split; [|split].
      * destruct I1 as [->|I1]; right; [now left | now right].
      * now apply Qle_trans with a.
      * intros y [<-|Hy]; [exact I2 | now apply I3].
    + assert (a <= x)%Q.
      { apply Qlt_le_weak, Qnot_le_lt. intros C.
        apply Qle_bool_iff in C. congruence. }
      split; [|split].
      * destruct I1 as [->|I1]; [now left | right; now right].
      * exact I2.
      * intros y [<-|Hy]; [now apply Qle_trans with x | now apply I3].
Qed.

Lemma max_Q_in x : x <> [] -> In (max_Q x) x.
Proof.
  destruct x as [|a r]; [congruence|]. intros _. unfold max_Q.
  destruct (fold_max r a) as [[->|H] _]; [now left | now right].
Qed.

Lemma max_Q_ge x y : In y x -> Q2R y <= Q2R (max_Q x).
Proof.
  destruct x as [|a r]; [intros []|]. unfold max_Q. intros H. apply Qle_Rle.
  destruct (fold_max r a) as [_ [H1 H2]].
  destruct H as [<-|H]; [exact H1 | now apply H2].
Qed.

(** *** One entry: the error of each step *)

(** [exp] near 0. *)
Lemma exp_near d :
  Rabs d <= / 8388608 ->
  1 - / 8388608 <= exp d /\ exp d * (1 - / 8388608) <= 1.
Proof.
  intros H. apply Rabs_le_elim in H.
  pose proof (exp_ineq1_le d). split; [lra|].
  pose proof (exp_ineq1_le (- d)) as H1. rewrite exp_Ropp in H1.
  pose proof (exp_pos d) as P.
  assert (E : exp d * / exp d = 1) by (field; lra).
  assert (exp d * (1 - / 8388608) <= exp d * / exp d); [|lra].
  apply Rmult_le_compat_l; lra.
Qed.

(** The shifted score [d], computed from the exact difference [t], and its
    exponential [e]. *)
Lemma exp_entry t d e :
  -2 <= t <= 0 ->
  Rabs (d - t) <= u32 * Rabs t ->
  (-4 <= d <= 0 -> Rabs (e - exp d) <= exp_err * exp d) ->
  999998 / 1000000 * exp t <= e <= 1000002 / 1000000 * exp t.
Proof.
  unfold u32, exp_err. intros Ht Hd He.
  rewrite (Rabs_left1 t) in Hd by lra.
  pose proof (Rabs_le_elim _ _ Hd) as B.
  assert (R : -4 <= d <= 0) by lra.
  apply He, Rabs_le_elim in R.
  assert (N : Rabs (d - t) <= / 8388608) by (apply Rabs_le; lra).
  destruct (exp_near _ N) as [N1 N2].
  assert (X : exp d = exp t * exp (d - t))
    by (rewrite <- exp_plus; f_equal; ring).
  pose proof (exp_pos t) as Pt. pose proof (exp_pos (d - t)) as Pd.
  set (z := exp (d - t)) in *. set (y := exp t) in *. set (w := exp d) in *.
  assert (L : y * (1 - / 8388608) <= w)
    by (rewrite X; apply Rmult_le_compat_l; lra).
  assert (U : w * (1 - / 8388608) <= y).
  { rewrite X. replace y with (y * 1) at 2 by ring. rewrite Rmult_assoc.
    apply Rmult_le_compat_l; lra. }
  lra.
Qed.

(** The quotient of two perturbed quantities. *)
Lemma ratio_bounds lo hi c q T e S s r :
  0 < lo -> 0 < hi -> 0 < c < 1 ->
  0 <= q -> 0 < T ->
  lo * (q * T) <= e <= hi * (q * T) ->
  lo * T <= S <= hi * T ->
  (1 - c) * S <= s <= (1 + c) * S ->
  r * s = e ->
  lo * q <= r * (hi * (1 + c)) /\ r * (lo * (1 - c)) <= hi * q.
Proof.
  intros Hlo Hhi Hc Hq HT He HS Hs Hr.
  assert (PqT : 0 <= q * T) by (apply Rmult_le_pos; lra).
  assert (PlqT : 0 <= lo * (q * T)) by (apply Rmult_le_pos; lra).
  assert (PlT : 0 < lo * T) by (apply Rmult_lt_0_compat; lra).
  assert (PS : 0 < S) by lra.
  assert (PcS : 0 < (1 - c) * S) by (apply Rmult_lt_0_compat; lra).
  assert (Ps : 0 < s) by lra.
  assert (Pr : 0 <= r).
  { apply Rmult_le_reg_r with s; [exact Ps|]. rewrite Hr. lra. }
  split.
  - apply Rmult_le_reg_r with T; [exact HT|].
    assert (A2 : r * s <= r * ((1 + c) * S))
      by (apply Rmult_le_compat_l; lra).
    assert (A3 : r * ((1 + c) * S) <= r * ((1 + c) * (hi * T))).
    { apply Rmult_le_compat_l; [exact Pr|].
      apply Rmult_le_compat_l; lra. }
    replace (lo * q * T) with (lo * (q * T)) by ring.
    replace (r * (hi * (1 + c)) * T) with (r * ((1 + c) * (hi * T))) by ring.
    lra.
  - apply Rmult_le_reg_r with (lo * T); [exact PlT|].
    assert (Plc : 0 <= lo * (1 - c)) by (apply Rmult_le_pos; lra).
    assert (A1 : r * (lo * T) <= r * S)
      by (apply Rmult_le_compat_l; lra).
    assert (A2 : r * ((1 - c) * S) <= r * s)
      by (apply Rmult_le_compat_l; lra).
    assert (A3 : lo * (r * s) <= lo * (hi * (q * T)))
      by (apply Rmult_le_compat_l; lra).
    assert (A4 : (1 - c) * (r * (lo * T)) <= (1 - c) * (r * S))
      by (apply Rmult_le_compat_l; lra).
    assert (A5 : lo * (r * ((1 - c) * S)) <= lo * (r * s))
      by (apply Rmult_le_compat_l; lra).
    replace (r * (lo * (1 - c)) * (lo * T))
      with (lo * ((1 - c) * (r * (lo * T)))) by ring.
    replace (hi * q * (lo * T)) with (lo * (hi * (q * T))) by ring.
    apply Rle_trans with (lo * (r * s)); [|exact A3].
    apply Rmult_le_compat_l; [lra|].
    apply Rle_trans with (r * ((1 - c) * S)); [|exact A2].
    replace (r * ((1 - c) * S)) with ((1 - c) * (r * S)) by ring.
    exact A4.
Qed.

Lemma exp_minus_2 : / 9 <= exp (-2).
Proof.
  pose proof exp_le_3 as H3. pose proof (exp_pos 1) as P1.
  pose proof (exp_pos (-2)) as P2.
  assert (E : exp 1 * exp 1 * exp (-2) = 1).
  { rewrite <- !exp_plus. replace (1 + 1 + -2) with 0 by ring. apply exp_0. }
  assert (A : exp 1 * exp 1 <= 3 * 3)
    by (apply Rmult_le_compat; lra).
  assert (B : exp 1 * exp 1 * exp (-2) <= 3 * 3 * exp (-2))
    by (apply Rmult_le_compat_r; lra).
  lra.
Qed.

Lemma exp_le t u : t <= u -> exp t <= exp u.
Proof.
  intros [H| ->]; [left; now apply exp_increasing | right; reflexivity].
Qed.

Lemma sum_R_le_length l :
  Forall (fun v => v <= 1) l -> sum_R l <= INR (List.length l).
Proof.
  induction 1 as [|v l Hv _ IH]; cbn [List.length];
    rewrite ?sum_R_nil, ?sum_R_cons, ?S_INR; cbn [INR]; lra.
Qed.

Lemma INR_le_8 n : (n <= 8)%nat -> INR n <= 8.
Proof.
  intros H. apply le_INR in H. replace 8 with (INR 8); [exact H|].
  cbn [INR]. ring.
Qed.

Lemma Forall2_map_same {A B C} (P : B -> C -> Prop) (f : A -> B) (g : A -> C) l :
  (forall a, In a l -> P (f a) (g a)) -> Forall2 P (map f l) (map g l).
Proof.
  induction l as [|a l IH]; intros H; cbn [map]; constructor.
  - apply H. now left.
  - apply IH. intros b Hb. apply H. now right.
Qed.

(** *** The distribution computed by [softmax] *)

Section Analysis.
Variable np : numpy32.
Hypothesis Hnp : ieee32 np.
Variable x : list Q.
Hypothesis Hne : x <> [].
Hypothesis Hlen : (List.length x <= 8)%nat.

Local Abbreviation m := (Q2R (max_Q x)).
Local Abbreviation ex := (fun y : Q => np_exp np (np_sub np (Q2R y) m)).
Local Abbreviation es := (map ex x).

Lemma softmax_as_map :
  softmax np x = map (fun y => np_div np (ex y) (np_sum np es)) x.
Proof. unfold softmax. now rewrite !map_map. Qed.

Lemma softmax_length : List.length (softmax np x) = List.length x.
Proof. unfold softmax. now rewrite !length_map. Qed.

Lemma exps_nonneg : Forall (fun v => 0 <= v) es.
Proof.
  apply Forall_forall. intros v Hv. apply in_map_iff in Hv as [y [<- _]].
  apply (exp_nonneg np Hnp).
Qed.

(** The largest score is shifted to exactly 0. *)
Lemma exp_at_max : 1 - exp_err <= ex (max_Q x).
Proof.
  pose proof (sub_ok np Hnp m m) as H.
  replace (m - m) with 0 in H by ring. rewrite Rabs_R0, Rmult_0_r in H.
  apply Rabs_le_elim in H.
  assert (E : np_sub np m m = 0) by lra. cbv beta. rewrite E.
  assert (R0 : -4 <= 0 <= 0) by lra.
  pose proof (exp_ok np Hnp 0 R0) as H0. rewrite exp_0 in H0.
  apply Rabs_le_elim in H0. lra.
Qed.

Lemma exps_sum_pos : 0 < sum_R es.
Proof.
  assert (H : ex (max_Q x) <= sum_R es).
  { apply sum_R_ge_in; [exact exps_nonneg|].
    apply (in_map ex), max_Q_in, Hne. }
  pose proof exp_at_max. unfold exp_err in *. lra.
Qed.

Lemma np_sum_bounds :
  (1 - 1 / 2000000) * sum_R es <= np_sum np es <= (1 + 1 / 2000000) * sum_R es.
Proof.
  assert (L : (List.length es <= 8)%nat) by now rewrite length_map.
  pose proof (sum_ok np Hnp es exps_nonneg L) as H.
  apply Rabs_le_elim in H. pose proof exps_sum_pos as P.
  pose proof (INR_le_8 _ L) as N. pose proof (pos_INR (List.length es)) as N0.
  set (n := INR (List.length es)) in *. set (S := sum_R es) in *.
  assert (A : n * u32 * S <= 8 * u32 * S).
  { apply Rmult_le_compat_r; [lra|]. apply Rmult_le_compat_r; [|exact N].
    unfold u32. lra. }
  unfold u32 in *. lra.
Qed.

Lemma np_sum_pos : 0 < np_sum np es.
Proof. pose proof np_sum_bounds. pose proof exps_sum_pos. lra. Qed.

Lemma softmax_nonneg : Forall (fun p => 0 <= p) (softmax np x).
Proof.
  rewrite softmax_as_map. apply Forall_forall. intros p Hp.
  apply in_map_iff in Hp as [y [<- _]].
  apply (div_ok np Hnp); [apply (exp_nonneg np Hnp) | exact np_sum_pos].
Qed.

Lemma softmax_sum : Rabs (sum_R (softmax np x) - 1) <= 1 / 1000000.
Proof.
  rewrite softmax_as_map.
  pose proof np_sum_pos as Ps. pose proof np_sum_bounds as Bs.
  pose proof exps_sum_pos as PS.
  set (s := np_sum np es) in *.
  assert (N : Rabs (sum_R (map (fun y => np_div np (ex y) s) x)
                    - sum_R (map (fun y => ex y * / s) x))
              <= u32 * sum_R (map (fun y => ex y * / s) x)
                 + INR (List.length x) * tiny32).
  { apply sum_R_near. intros y _.
    apply (div_ok np Hnp); [apply (exp_nonneg np Hnp) | exact Ps]. }
  pose proof (sum_R_scale ex (/ s) x) as Sc. cbv beta in Sc, N.
  rewrite Sc in N. clear Sc.
  apply Rabs_le_elim in N.
  pose proof (INR_le_8 _ Hlen) as N8. pose proof (pos_INR (List.length x)) as N0.
  set (S := sum_R es) in *. set (n := INR (List.length x)) in *.
  set (r := S * / s) in *.
  assert (Pis : 0 < / s) by now apply Rinv_0_lt_compat.
  assert (E1 : s * / s = 1) by (field; lra).
  assert (R1 : r * (1 - 1 / 2000000) <= 1).
  { assert (X : (1 - 1 / 2000000) * S * / s <= s * / s)
      by (apply Rmult_le_compat_r; lra).
    replace (r * (1 - 1 / 2000000)) with ((1 - 1 / 2000000) * S * / s)
      by (unfold r; ring).
    lra. }
  assert (R2 : 1 <= r * (1 + 1 / 2000000)).
  { assert (X : s * / s <= (1 + 1 / 2000000) * S * / s)
      by (apply Rmult_le_compat_r; lra).
    replace (r * (1 + 1 / 2000000)) with ((1 + 1 / 2000000) * S * / s)
      by (unfold r; ring).
    lra. }
  assert (T8 : n * tiny32 <= 8 * tiny32)
    by (apply Rmult_le_compat_r; [unfold tiny32; lra | exact N8]).
  unfold u32, tiny32 in *. apply Rabs_le. lra.
Qed.

(** For cosine scores every entry is the exact softmax entry, up to a
    hundred-thousandth of it. *)
Lemma softmax_close : cosines x -> close_to (softmax np x) (softmax_spec x).
Proof.
  intros Hcos. rewrite softmax_as_map. unfold softmax_spec, close_to.
  apply Forall2_map_same. intros y Hy.
  pose proof np_sum_pos as Ps. pose proof np_sum_bounds as Bs.
  set (s := np_sum np es) in *.
  unfold cosines in Hcos. rewrite Forall_forall in Hcos.
  assert (Hm : -1 <= m <= 1) by (apply Hcos, max_Q_in, Hne).
  (* every shifted score is in [-2, 0] *)
  assert (Rng : forall z, In z x -> -2 <= Q2R z - m <= 0).
  { intros z Hz. pose proof (Hcos z Hz). pose proof (max_Q_ge x z Hz). lra. }
  assert (Ent : forall z, In z x ->
            999998 / 1000000 * exp (Q2R z - m) <= ex z
            <= 1000002 / 1000000 * exp (Q2R z - m)).
  { intros z Hz. apply (exp_entry _ (np_sub np (Q2R z) m)).
    - now apply Rng.
    - apply (sub_ok np Hnp).
    - apply (exp_ok np Hnp). }
  pose proof (sum_R_between ex (fun z => exp (Q2R z - m)) _ _ x Ent) as BS.
  set (T := sum_R (map (fun z => exp (Q2R z - m)) x)) in *.
  set (Z := sum_R (map (fun z => exp (Q2R z)) x)).
  assert (PZ : 0 < Z) by (apply (sum_exp_pos Q2R), Hne).
  assert (PT : 0 < T) by (apply (sum_exp_pos (fun z => Q2R z - m)), Hne).
  pose proof (exp_pos m) as Pm.
  assert (TZ : T = Z * / exp m).
  { unfold T, Z. rewrite <- sum_R_scale. f_equal. apply map_ext. intros z.
    unfold Rminus. now rewrite exp_plus, exp_Ropp. }
  set (q := exp (Q2R y) / Z).
  assert (Pq : 0 < q)
    by (unfold q; apply Rdiv_lt_0_compat; [apply exp_pos | exact PZ]).
  assert (QT : q * T = exp (Q2R y - m)).
  { rewrite TZ. unfold q, Rminus. rewrite exp_plus, exp_Ropp. field. lra. }
  (* the exact entry is at least 1/72 *)
  assert (T8 : T <= 8).
  { apply Rle_trans with (INR (List.length x)); [|now apply INR_le_8].
    unfold T. rewrite <- (length_map (fun z => exp (Q2R z - m)) x).
    apply sum_R_le_length, Forall_forall. intros v Hv.
    apply in_map_iff in Hv as [z [<- Hz]]. rewrite <- exp_0.
    apply exp_le. now apply Rng. }
  assert (Q72 : / 72 <= q).
  { pose proof exp_minus_2 as E2.
    assert (E9 : exp (-2) <= q * T)
      by (rewrite QT; apply exp_le; now apply Rng).
    assert (q * T <= q * 8) by (apply Rmult_le_compat_l; lra). lra. }
  pose proof (Ent y Hy) as Ey. cbv beta in Ey. rewrite <- QT in Ey.
  set (e := np_exp np (np_sub np (Q2R y) m)) in *.
  assert (Pe : 0 <= e) by apply (exp_nonneg np Hnp).
  destruct (div_ok np Hnp e s Pe Ps) as [_ D]. apply Rabs_le_elim in D.
  set (p := np_div np e s) in *.
  assert (Hr : e / s * s = e) by (field; lra).
  set (r := e / s) in *.
  destruct (ratio_bounds (999998 / 1000000) (1000002 / 1000000) (1 / 2000000)
              q T e (sum_R es) s r) as [B1 B2]; try lra; try assumption.
  unfold u32, tiny32 in *. split; [lra|]. apply Rabs_le. lra.
Qed.

End Analysis.

(** *** The fixed priors *)

Lemma prior_facts l :
  forallb (Qle_bool 0) l = true ->
  Qle_bool (999999 # 1000000) (fold_right Qplus 0%Q l) = true ->
  Qle_bool (fold_right Qplus 0%Q l) (1000001 # 1000000) = true ->
  Forall (fun p => 0 <= p) (map Q2R l)
  /\ Rabs (sum_R (map Q2R l) - 1) <= 1 / 1000000.
Proof.
  intros H0 H1 H2. split.
  - apply Forall_forall. intros p Hp. apply in_map_iff in Hp as [q [<- Hq]].
    rewrite forallb_forall in H0. apply H0, Qle_bool_iff, Qle_Rle in Hq.
    unfold Q2R at 1 in Hq. cbn in Hq. lra.
  - rewrite sum_R_Q2R. apply Qle_bool_iff, Qle_Rle in H1, H2.
    unfold Q2R at 1 in H1. unfold Q2R at 2 in H2. cbn in H1, H2.
    apply Rabs_le. lra.
Qed.

Lemma exact_numpy_ok : ieee32 exact_numpy.
Proof.
  constructor; cbn.
  - intros a b. replace (a - b - (a - b)) with 0 by ring. rewrite Rabs_R0.
    pose proof (Rabs_pos (a - b)). unfold u32. nra.
  - intros y. left. apply exp_pos.
  - intros y _. replace (exp y - exp y) with 0 by ring. rewrite Rabs_R0.
    pose proof (exp_pos y). unfold exp_err. nra.
  - intros l Hl _. replace (sum_R l - sum_R l) with 0 by ring.
    rewrite Rabs_R0. pose proof (sum_R_nonneg l Hl).
    pose proof (pos_INR (List.length l)).
    apply Rmult_le_pos; [apply Rmult_le_pos; [assumption | unfold u32; lra]
                        | assumption].
  - intros a b Ha Hb.
    assert (Q : 0 <= a / b).
    { unfold Rdiv. apply Rmult_le_pos; [exact Ha|].
      left. now apply Rinv_0_lt_compat. }
    split; [exact Q|]. replace (a / b - a / b) with 0 by ring.
    rewrite Rabs_R0. unfold u32, tiny32. lra.
Qed.

(** C6.  The daypart distribution has 4 entries and the tone distribution
    5, with or without a fingerprint; no entry is negative; and the
    entries of each add up to 1 within a millionth.  This holds for the
    float32 arithmetic of [softmax] taken by its contract and for the
    binary64 literals of the fixed priors; the sum is the exact sum of
    the returned values.  With a fingerprint [v], each distribution is
    [softmax] (which shifts by the maximum) of the vector of the
    similarities [c . v] to every centroid [c] of its vocabulary, one
    entry per label; when these similarities are cosines, every entry is
    positive and within a hundred-thousandth, relatively, of the entry of
    the exact softmax of that vector: no category is dropped. *)
Theorem C6_distributions :
  forall np embed v_embed,
    ieee32 np -> embed_rows embed ->
    let dp := daypart_probs_from_semantics np embed v_embed in
    let tp := tone_probs_from_semantics np embed v_embed in
    List.length dp = 4%nat /\ List.length tp = 5%nat
    /\ Forall (fun p => 0 <= p) dp /\ Forall (fun p => 0 <= p) tp
    /\ Rabs (sum_R dp - 1) <= 1 / 1000000
    /\ Rabs (sum_R tp - 1) <= 1 / 1000000
    /\ (forall v, v_embed = Some v ->
          let sd := map (fun c => dot c v) (embed DAYPART_LABELS) in
          let st := map (fun c => dot c v) (embed TONE_LABELS_DESC) in
          dp = softmax np sd /\ tp = softmax np st
          /\ (cosines sd -> close_to dp (softmax_spec sd))
          /\ (cosines st -> close_to tp (softmax_spec st))).
Proof.
  intros np embed v_embed Hnp Hrows dp tp.
  unfold dp, tp, daypart_probs_from_semantics, tone_probs_from_semantics.
  destruct v_embed as [v|].
  - unfold matvec.
    set (sd := map (fun c => dot c v) (embed DAYPART_LABELS)).
    set (st := map (fun c => dot c v) (embed TONE_LABELS_DESC)).
    assert (L4 : List.length sd = 4%nat)
      by (unfold sd; rewrite length_map, Hrows; reflexivity).
    assert (L5 : List.length st = 5%nat)
      by (unfold st; rewrite length_map, Hrows; reflexivity).
    assert (N4 : sd <> []) by (intros C; rewrite C in L4; discriminate).
    assert (N5 : st <> []) by (intros C; rewrite C in L5; discriminate).
    assert (B4 : (List.length sd <= 8)%nat) by lia.
    assert (B5 : (List.length st <= 8)%nat) by lia.
    rewrite !softmax_length.
    split; [exact L4|]. split; [exact L5|].
    split; [now apply softmax_nonneg|]. split; [now apply softmax_nonneg|].
    split; [now apply softmax_sum|]. split; [now apply softmax_sum|].
    intros v' E. injection E as <-. cbv zeta. fold sd st.
    split; [reflexivity|]. split; [reflexivity|].
    split; intros Hc; now apply softmax_close.
  - destruct (prior_facts DAYPART_PRIOR) as [D1 D2];
      [vm_compute; reflexivity ..|].
    destruct (prior_facts TONE_PRIOR) as [T1 T2];
      [vm_compute; reflexivity ..|].
    split; [reflexivity|]. split; [reflexivity|].
    split; [exact D1|]. split; [exact T1|].
    split; [exact D2|]. split; [exact T2|].
    intros v C. discriminate C.
Qed.

(** The toy provider with the fingerprint [1]: the similarities are the
    lengths of the four daypart labels, in hundredths; and the fixed tone
    prior. *)
Lemma C6_distributions_witness :
  close_to (daypart_probs_from_semantics exact_numpy toy_embed (Some [1%Q]))
           (softmax_spec [44 # 100; 39 # 100; 44 # 100; 59 # 100]%Q)
  /\ Rabs (sum_R (tone_probs_from_semantics exact_numpy toy_embed None) - 1)
     <= 1 / 1000000.
Proof.
  assert (Hrows : embed_rows toy_embed) by (intros ts; apply length_map).
  split.
  - pose proof (C6_distributions exact_numpy toy_embed (Some [1%Q])
                  exact_numpy_ok Hrows) as H.
    cbv zeta in H. destruct H as [_ [_ [_ [_ [_ [_ H]]]]]].
    destruct (H [1%Q] eq_refl) as [_ [_ [H1 _]]].
    assert (E : map (fun c => dot c [1%Q]) (toy_embed DAYPART_LABELS)
                = [44 # 100; 39 # 100; 44 # 100; 59 # 100]%Q)
      by (vm_compute; reflexivity).
    rewrite E in H1. apply H1.
    repeat (constructor; [unfold Q2R; cbn; lra|]). constructor.
  - pose proof (C6_distributions exact_numpy toy_embed None
                  exact_numpy_ok Hrows) as H.
    cbv zeta in H. destruct H as [_ [_ [_ [_ [_ [H _]]]]]]. exact H.
Defined.

End SoftmaxFacts.

(* ================================================================== *)
(** * Part III.  Further properties of the scripts                     *)
(* ================================================================== *)

(** ** Canonical text, tags and numeric tokens *)

Module TextFacts.
Import Py Xml PyFacts.

Lemma rstrip_idem s : rstrip (rstrip s) = rstrip s.
Proof.
  induction s as [|c r IH]; [reflexivity|].
  destruct (isspace c) eqn:E.
  - rewrite (rstrip_cons_space c r E). destruct (rstrip r) as [|x y] eqn:R;
      [reflexivity|].
    rewrite (rstrip_cons_space c _ E), IH. reflexivity.
  - rewrite (rstrip_cons_nonspace c r E), (rstrip_cons_nonspace c _ E), IH.
    reflexivity.
Qed.

Lemma collapse_true_head r x y :
  collapse_from true r = String x y -> isspace x = false.
Proof.
  intros H. apply (lstrip_head (collapse_from true r) x y).
  rewrite lstrip_collapse, <- H.
  clear H. induction r as [|c r IH]; [reflexivity|]. simpl.
  destruct (isspace c) eqn:E; [exact IH|]. simpl. now rewrite E.
Qed.

Lemma collapse_true_false y :
  (forall x z, y = String x z -> isspace x = false) ->
  collapse_from true y = collapse_from false y.
Proof.
  destruct y as [|x z]; [reflexivity|]. intros H. simpl.
  now rewrite (H x z eq_refl).
Qed.

Lemma collapse_idem b s :
  collapse_from false (collapse_from b s) = collapse_from b s.
Proof.
  revert b. induction s as [|c r IH]; intros b; [reflexivity|]. simpl.
  destruct (isspace c) eqn:E.
  - destruct b; [apply IH|].
    change (collapse_from false (String " " (collapse_from true r)))
      with (String " " (collapse_from true (collapse_from true r))).
    f_equal. rewrite collapse_true_false; [apply IH|].
    intros x z. apply collapse_true_head.
  - simpl. rewrite E. f_equal. apply IH.
Qed.

Lemma collapse_keeps_end b w :
  rstrip w = w -> rstrip (collapse_from b w) = collapse_from b w.
Proof.
  revert b. induction w as [|c r IH]; intros b H; [reflexivity|].
  destruct (isspace c) eqn:E.
  - rewrite (rstrip_cons_space c r E) in H.
    destruct (rstrip r) as [|x y] eqn:R; [discriminate|].
    injection H as H.
    assert (Hr : rstrip r = r) by congruence.
    assert (Hne : collapse_from true r <> EmptyString).
    { intros C. assert (L : lstrip (collapse_from true r) = EmptyString)
        by now rewrite C.
      apply collapse_blank in L. apply rstrip_empty_iff in L. congruence. }
    simpl. rewrite E. specialize (IH true H). destruct b; [exact IH|].
    rewrite rstrip_cons_space by reflexivity. rewrite IH.
    destruct (collapse_from true r); [congruence | reflexivity].
  - rewrite (rstrip_cons_nonspace c r E) in H. injection H as H.
    simpl. rewrite E. rewrite (rstrip_cons_nonspace c _ E), (IH false H).
    reflexivity.
Qed.

(** Collapsing and trimming commute. *)
Lemma clean_as_collapse s : strip (collapse_ws s) = collapse_ws (strip s).
Proof.
  unfold strip, collapse_ws.
  rewrite lstrip_collapse, rstrip_collapse.
  apply collapse_keeps_end, rstrip_idem.
Qed.

Lemma collapse_only_spaces b s :
  filter_chars (fun c => isspace c && negb (Ascii.eqb c " ")) (collapse_from b s)
  = EmptyString.
Proof.
  revert b. induction s as [|c r IH]; intros b; [reflexivity|]. simpl.
  destruct (isspace c) eqn:E.
  - destruct b; [apply IH|]. simpl. apply IH.
  - simpl. rewrite E. simpl. apply IH.
Qed.

Lemma collapse_no_double b s : contains "  " (collapse_from b s) = false.
Proof.
  revert b. induction s as [|c r IH]; intros b; [reflexivity|]. simpl.
  destruct (isspace c) eqn:E.
  - destruct b; [apply IH|].
    cbn [contains starts_with]. rewrite (IH true), orb_false_r.
    destruct (collapse_from true r) as [|x y] eqn:C; [reflexivity|].
    apply collapse_true_head in C.
    destruct (Ascii.eqb_spec " " x) as [<-|_]; [discriminate C | reflexivity].
  - cbn [contains starts_with]. rewrite (IH false), orb_false_r.
    destruct (Ascii.eqb_spec " " c) as [<-|_]; [discriminate E | reflexivity].
Qed.

(** X1.  The canonical text [re.sub(r"\s+", " ", s).strip()]: cleaning it
    again changes nothing, it neither starts nor ends with white space,
    its only white space is the space character, and it has no two
    spaces in a row.  It is the text of every row of the four scripts. *)
Theorem X1_canonical_text :
  forall s,
    strip (collapse_ws (strip (collapse_ws s))) = strip (collapse_ws s)
    /\ lstrip (strip (collapse_ws s)) = strip (collapse_ws s)
    /\ rstrip (strip (collapse_ws s)) = strip (collapse_ws s)
    /\ collapse_ws (strip (collapse_ws s)) = strip (collapse_ws s)
    /\ filter_chars (fun c => isspace c && negb (Ascii.eqb c " "))
                    (strip (collapse_ws s)) = EmptyString
    /\ contains "  " (strip (collapse_ws s)) = false
    /\ (forall node, ImportKjv.extract_plain_text node
                     = strip (collapse_ws (concat_all (itertext node))))
    /\ (forall o nm c v, ImportKjvUsfx.text (ImportKjvUsfx.make_row o nm c v s)
                         = strip (collapse_ws s)).
Proof.
  intros s.
  assert (I : collapse_ws (strip (collapse_ws s)) = strip (collapse_ws s)).
  { rewrite (clean_as_collapse s). unfold collapse_ws. apply collapse_idem. }
  split; [rewrite clean_strip; unfold collapse_ws; now rewrite collapse_idem|].
  split; [apply lstrip_strip|].
  split; [unfold strip; apply rstrip_idem|].
  split; [exact I|].
  split; [rewrite clean_as_collapse; apply collapse_only_spaces|].
  split; [rewrite clean_as_collapse; apply collapse_no_double|].
  split; reflexivity.
Qed.

Lemma after_brace_free t : free_of "}" t -> after_brace t = None.
Proof.
  induction t as [|c r IH]; [reflexivity|]. intros H.
  apply free_of_cons in H as [E H]. simpl. rewrite E. now apply IH.
Qed.

Lemma after_brace_app ns r :
  free_of "}" ns -> after_brace (ns ++ String "}" r) = Some r.
Proof.
  induction ns as [|c ns IH]; intros H; [reflexivity|].
  apply free_of_cons in H as [E H]. simpl. rewrite E. now apply IH.
Qed.

Lemma localname_prefixed ns name :
  free_of "}" ns -> localname ("{" ++ ns ++ "}" ++ name) = name.
Proof.
  intros H. unfold localname.
  change ("{" ++ ns ++ "}" ++ name)%string
    with (String "{" (ns ++ String "}" name)).
  cbn [after_brace]. change (Ascii.eqb "{" "}") with false. cbn iota.
  now rewrite after_brace_app.
Qed.

(** X2.  [localname] removes a namespace prefix [{ns}] and leaves a tag
    without a closing brace as it is. *)
Theorem X2_localname :
  (forall ns name, free_of "}" ns ->
      localname ("{" ++ ns ++ "}" ++ name) = name)
  /\ (forall t, free_of "}" t -> localname t = t).
Proof.
  split; [exact localname_prefixed|].
  intros t H. unfold localname. now rewrite after_brace_free.
Qed.

(** The OSIS namespace, and a tag without one. *)
Lemma X2_localname_witness :
  localname "{http://www.bibletechnologies.net/2003/OSIS/namespace}verse" = "verse"
  /\ localname "verse" = "verse".
Proof.
  destruct X2_localname as [A B]. split.
  - apply (A "http://www.bibletechnologies.net/2003/OSIS/namespace" "verse").
    reflexivity.
  - apply B. reflexivity.
Defined.

Lemma filter_chars_app p a b :
  filter_chars p (a ++ b) = (filter_chars p a ++ filter_chars p b)%string.
Proof.
  induction a as [|c a IH]; [reflexivity|]. simpl.
  destruct (p c); simpl; now rewrite IH.
Qed.

Lemma filter_chars_idem p s : filter_chars p (filter_chars p s) = filter_chars p s.
Proof.
  induction s as [|c s IH]; [reflexivity|]. simpl.
  destruct (p c) eqn:E; [simpl; rewrite E, IH; reflexivity | exact IH].
Qed.

Lemma append_empty_r (s : string) : (s ++ "")%string = s.
Proof. induction s; simpl; congruence. Qed.

(** X3.  [int(re.sub(r"\D", "", s) or "0")] reads the digits of a token
    and nothing else: a number written in decimal is read back whatever
    digit-free text surrounds it, and a token without digits gives 0. *)
Theorem X3_digits_of_token :
  (forall x n y,
      strip_nondigits x = EmptyString -> strip_nondigits y = EmptyString ->
      digits_or_zero (x ++ str_of_nat n ++ y) = n)
  /\ (forall s, strip_nondigits s = EmptyString -> digits_or_zero s = 0)
  /\ (forall s, digits_or_zero (strip_nondigits s) = digits_or_zero s).
Proof.
  split; [|split].
  - intros x n y Hx Hy. unfold digits_or_zero, strip_nondigits in *.
    rewrite !filter_chars_app, Hx, Hy, append_empty_r. cbn [append].
    apply digits_or_zero_str.
  - intros s H. unfold digits_or_zero. rewrite H. reflexivity.
  - intros s. unfold digits_or_zero, strip_nondigits.
    now rewrite filter_chars_idem.
Qed.

(** The tokens [ch12] and [v.]. *)
Lemma X3_digits_of_token_witness :
  digits_or_zero ("ch" ++ str_of_nat 12 ++ "") = 12 /\ digits_or_zero "v." = 0.
Proof.
  destruct X3_digits_of_token as [A [B _]]. split.
  - apply A; reflexivity.
  - apply B. reflexivity.
Defined.

End TextFacts.

(** ** Rows of the streaming extractor *)

Module UsfxRows.
Import Py Xml Books ImportKjvUsfx UsfxInvariants PyFacts UsfxFacts.

Lemma osis_has_name u o :
  dict_get USFX_TO_OSIS u = Some o ->
  exists nm, dict_get OSIS_TO_NAME o = Some nm.
Proof.
  intros H. apply dict_get_In in H.
  assert (A : forallb (fun p => match dict_get OSIS_TO_NAME (snd p) with
                                | Some _ => true | None => false end)
                USFX_TO_OSIS = true) by (vm_compute; reflexivity).
  rewrite forallb_forall in A. specialize (A _ H). cbn [snd] in A.
  destruct (dict_get OSIS_TO_NAME o) as [nm|]; [now exists nm | discriminate].
Qed.

Lemma capture_fields st name o :
  current_book_code (capture st name o) = current_book_code st
  /\ current_book_name (capture st name o) = current_book_name st
  /\ current_osis_book (capture st name o) = current_osis_book st
  /\ current_chapter (capture st name o) = current_chapter st
  /\ current_verse (capture st name o) = current_verse st.
Proof.
  unfold capture, append_if_text. destruct (capturing st name); [|tauto].
  destruct o as [s|]; [|tauto]. destruct (_ && _); simpl; tauto.
Qed.

Lemma capture_state_ok st name o : state_ok st -> state_ok (capture st name o).
Proof.
  intros [B [C [V K]]].
  destruct (capture_fields st name o) as [F1 [F2 [F3 [F4 F5]]]].
  unfold state_ok, book_ok. rewrite F1, F2, F3, F4, F5.
  repeat split; auto using capture_ok.
Qed.

Lemma initial_state_ok : state_ok initial.
Proof.
  unfold state_ok, book_ok, positive_or_none. simpl.
  repeat split; auto. constructor.
Qed.

Lemma positive_of_ltb n : (0 <? n) = true -> positive_or_none (Some n).
Proof. destruct n; [discriminate|]. right. now exists n. Qed.

Lemma step_state_ok st ev : state_ok st -> state_ok (fst (step st ev)).
Proof.
  intros H. destruct ev as [[|] e]; unfold step.
  - destruct (String.eqb _ "book" && is_none _) eqn:Eb.
    { destruct H as [B [C [V K]]]. cbn [fst].
      unfold state_ok, book_ok, buffer_ok.
      cbn [current_book_code current_book_name current_osis_book
           current_chapter current_verse buffer].
      split; [|split; [exact C|split; [exact V|exact K]]].
      unfold lookup_osis. destruct (dict_get (attrib e) "id") as [u|]; [|now left].
      destruct (dict_get USFX_TO_OSIS u) as [o|] eqn:Hu; [|now left].
      right. exists u, o. destruct (usfx_table_ok _ _ Hu) as [Hne _].
      cbn [truthy_str]. rewrite Hne. auto. }
    destruct (mem_str _ ["c"; "chapter"]).
    { destruct (0 <? _) eqn:Ec; [|exact H].
      destruct H as [B [C [V K]]]. cbn [fst].
      unfold state_ok, book_ok, buffer_ok.
      cbn [current_book_code current_book_name current_osis_book
           current_chapter current_verse buffer].
      split; [exact B|]. split; [now apply positive_of_ltb|].
      split; [now left | constructor]. }
    destruct (mem_str _ ["v"; "verse"]).
    { destruct (0 <? _) eqn:Ev; cbn [fst]; apply capture_state_ok; [|exact H].
      destruct H as [B [C [V K]]].
      unfold state_ok, book_ok, buffer_ok.
      cbn [current_book_code current_book_name current_osis_book
           current_chapter current_verse buffer].
      split; [exact B|]. split; [exact C|].
      split; [now apply positive_of_ltb | constructor]. }
    cbn [fst]. now apply capture_state_ok.
  - destruct (String.eqb _ "book"); cbn [fst];
      [apply initial_state_ok | now apply capture_state_ok].
Qed.

Lemma exec_state_ok st evs : state_ok st -> state_ok (fst (exec st evs)).
Proof.
  revert st. induction evs as [|ev evs IH]; intros st H; simpl; [exact H|].
  pose proof (step_state_ok st ev H) as H1. destruct (step st ev) as [s1 o1].
  specialize (IH s1 H1). destruct (exec s1 evs); exact IH.
Qed.

Lemma verse_id_parts o c v :
  free_of "." o ->
  split_on "." (o ++ "." ++ str_of_nat c ++ "." ++ str_of_nat v)
  = [o; str_of_nat c; str_of_nat v].
Proof.
  intros Ho.
  change ("." ++ str_of_nat c ++ "." ++ str_of_nat v)%string
    with (String "." (str_of_nat c ++ String "." (str_of_nat v))).
  rewrite (split_on_app _ _ _ Ho).
  rewrite split_on_app by (apply str_of_nat_free; reflexivity).
  rewrite split_on_free by (apply str_of_nat_free; reflexivity).
  reflexivity.
Qed.

Lemma length_nonempty s : s <> EmptyString -> 0 < String.length s.
Proof. destruct s; [congruence | simpl; lia]. Qed.

Lemma flush_rows_ok st r : state_ok st -> In r (flush st) -> row_ok r.
Proof.
  intros [B [C [V K]]] Hin.
  destruct (flush_spec st r K Hin) as [_ [_ [_ Ht]]].
  unfold flush in Hin.
  destruct (current_verse st) as [v|] eqn:Ev; [|contradiction].
  destruct (buffer st) as [|s buf]; [contradiction|].
  destruct (current_osis_book st) as [[|a b]|] eqn:Eo; try contradiction.
  destruct (current_chapter st) as [[|c]|] eqn:Ec; try contradiction.
  destruct Hin as [<-|[]].
  destruct B as [B|[u [o [B1 [B2 [B3 B4]]]]]]; [congruence|].
  rewrite Eo in B3. injection B3 as <-.
  destruct V as [V|[v' V]]; [discriminate|]. injection V as ->.
  destruct (osis_has_name _ _ B2) as [nm Hnm].
  destruct (usfx_table_ok _ _ B2) as [_ Hfree].
  assert (Edef : dict_get_default OSIS_TO_NAME (String a b) (String a b) = nm)
    by (unfold dict_get_default; now rewrite Hnm).
  exists u, (String a b), nm, (S c), (S v').
  rewrite B4, Edef in *. unfold make_row in *.
  cbn [osis_id translation book chapter verse ref_display text char_count
       fmt_opt] in *.
  split; [exact B2|]. split; [exact Hnm|]. split; [lia|]. split; [lia|].
  split; [reflexivity|]. split; [now apply verse_id_parts|].
  split; [reflexivity|]. split; [reflexivity|]. split; [reflexivity|].
  split; [reflexivity|]. split; [reflexivity|]. split; [exact Ht|].
  split; [reflexivity|]. apply length_nonempty. exact Ht.
Qed.

Lemma exec_rows_ok st evs r :
  state_ok st -> In r (snd (exec st evs)) -> row_ok r.
Proof.
  revert st. induction evs as [|ev evs IH]; intros st Hok; simpl; [intros []|].
  pose proof (step_state_ok st ev Hok) as H1.
  pose proof (step_out st ev r) as H2.
  destruct (step st ev) as [s1 o1]. simpl in *.
  specialize (IH s1 H1). destruct (exec s1 evs) as [s2 o2]. simpl in *.
  intros Hin. apply in_app_or in Hin as [Hin|Hin]; [|now apply IH].
  destruct (H2 Hin) as [_ Hf]. eapply flush_rows_ok; [|exact Hf].
  destruct ev as [[|] e]; simpl; [exact Hok | now apply capture_state_ok].
Qed.

(** X4.  Whatever the document, every row yielded by [parse_usfx_stream]
    belongs to a book of the table [USFX_TO_OSIS] and carries its display
    name (never a raw code), has a positive chapter and verse, the
    identifier [Book.Chapter.Verse] (which splits back into these three
    parts), the translation [KJV], and a non-empty text with
    [char_count = len(text) > 0]. *)
Theorem X4_stream_rows_well_formed :
  forall root r, In r (parse_usfx_stream root) -> row_ok r.
Proof.
  intros root r. unfold parse_usfx_stream, run.
  apply exec_rows_ok, initial_state_ok.
Qed.

(** The only row of a document with a paragraph, a verse marker without
    a number and a chapter marker numbered 0. *)
Lemma X4_stream_rows_well_formed_witness :
  map (fun r => (osis_id r, text r)) (parse_usfx_stream doc_odd_markers)
  = [("Gen.3.1", "Now the serpent was more subtil than any beast")]
  /\ Forall row_ok (parse_usfx_stream doc_odd_markers).
Proof.
  split; [reflexivity|]. apply Forall_forall. intros r Hr.
  exact (X4_stream_rows_well_formed doc_odd_markers r Hr).
Defined.

End UsfxRows.

(** ** The three DOM extractors side by side *)

Module DomFacts.
Import Py Xml Books PyFacts CrossFacts OsisSamples.

Lemma yielded_patch v id :
  ImportKjv.yielded (ImportKjvOsis.verse_row v id)
  = filter (fun r => nonempty (ImportKjv.text r))
           (ImportKjv.yielded (ImportKjv.verse_row v id)).
Proof.
  unfold ImportKjvOsis.verse_row, ImportKjv.verse_row.
  destruct (_ <? 3); [reflexivity|].
  change (ImportKjvOsis.extract_plain_text v) with (ImportKjv.extract_plain_text v).
  cbn [ImportKjv.yielded filter ImportKjv.text].
  destruct (nonempty (ImportKjv.extract_plain_text v)); reflexivity.
Qed.

(** X5.  On a document whose tags carry no namespace, the patch
    extractor of [import_kjv_osis.py] yields exactly the rows of the
    one-pass extractor of [import_kjv.py] whose text is not empty, in the
    same order. *)
Theorem X5_patch_rows_are_nonempty_import_rows :
  forall root,
    (forall e, In e (iter root) -> after_brace (tag e) = None) ->
    ImportKjvOsis.parse_osis root
    = filter (fun r => nonempty (ImportKjv.text r)) (ImportKjv.parse_osis root).
Proof.
  intros root H.
  unfold ImportKjvOsis.parse_osis, ImportKjv.parse_osis,
    ImportKjvOsis.select_verses, ImportKjv.select_verses.
  rewrite !flat_map_flat_map, filter_flat_map.
  apply flat_map_ext_in. intros e He.
  unfold localname. rewrite (H e He).
  destruct (String.eqb (tag e) "verse"); [|reflexivity].
  destruct (dict_get (attrib e) "osisID") as [i|]; [|reflexivity].
  cbn [flat_map]. rewrite !app_nil_r. apply yielded_patch.
Qed.

(** The sample with a signed chapter, lettered tokens, a short
    identifier and a blank verse. *)
Lemma X5_patch_rows_are_nonempty_import_rows_witness :
  map ImportKjv.osis_id (ImportKjv.parse_osis doc_odd_ids)
  = ["Gen.-3.1"; "Gen.ch2.v1b"; "Gen.1.2"]
  /\ map ImportKjv.osis_id (ImportKjvOsis.parse_osis doc_odd_ids)
     = ["Gen.-3.1"; "Gen.ch2.v1b"].
Proof.
  split; [reflexivity|].
  rewrite (X5_patch_rows_are_nonempty_import_rows doc_odd_ids); [reflexivity|].
  intros e He. simpl in He.
  repeat (destruct He as [<-|He]; [reflexivity|]). destruct He.
Defined.

Lemma namespaced_not_verse t : after_brace t <> None -> String.eqb t "verse" = false.
Proof.
  intros H. destruct (String.eqb_spec t "verse") as [->|_]; [|reflexivity].
  exfalso. apply H. reflexivity.
Qed.

(** X6.  The XPath [//verse[@osisID]] of [import_kjv.py] and of the ETL
    script matches no element that is in a namespace: on a document all of
    whose tags are namespaced, as OSIS files are, both yield nothing.  The
    XPath of [import_kjv_osis.py] goes by local name: it yields the row of
    a namespaced verse with a three-part identifier and a non-empty
    text. *)
Theorem X6_namespaced_documents :
  forall root,
    (forall e, In e (iter root) -> after_brace (tag e) <> None) ->
    ImportKjv.parse_osis root = []
    /\ Etl.parse_osis root = []
    /\ (forall v ns id,
          In v (iter root) ->
          free_of "}" ns -> tag v = ("{" ++ ns ++ "}verse")%string ->
          dict_get (attrib v) "osisID" = Some id ->
          3 <= List.length (split_on "." id) ->
          ImportKjvOsis.extract_plain_text v <> EmptyString ->
          exists r, In r (ImportKjvOsis.parse_osis root)
                    /\ ImportKjv.osis_id r = id
                    /\ ImportKjv.text r = ImportKjvOsis.extract_plain_text v).
Proof.
  intros root H.
  assert (S0 : ImportKjv.select_verses root = []).
  { unfold ImportKjv.select_verses. revert H.
    induction (iter root) as [|e l IH]; intros H; [reflexivity|].
    cbn [flat_map]. rewrite (namespaced_not_verse _ (H e (or_introl eq_refl))).
    apply IH. intros e' He'. apply H. now right. }
  split; [unfold ImportKjv.parse_osis; now rewrite S0|].
  split; [unfold Etl.parse_osis; now rewrite S0|].
  intros v ns id Hv Hns Htag Hid Hlen Htext.
  assert (L : (List.length (split_on "." id) <? 3) = false)
    by (apply Nat.ltb_ge; exact Hlen).
  apply nonempty_true in Htext.
  eexists. split; [|split].
  - unfold ImportKjvOsis.parse_osis. apply in_flat_map. exists (v, id). split.
    + unfold ImportKjvOsis.select_verses. apply in_flat_map. exists v.
      split; [exact Hv|]. rewrite Htag.
      change ("{" ++ ns ++ "}verse")%string with ("{" ++ ns ++ "}" ++ "verse")%string.
      rewrite (TextFacts.localname_prefixed ns "verse" Hns).
      cbn. rewrite Hid. now left.
    + unfold ImportKjvOsis.verse_row. rewrite L, Htext. cbn. left. reflexivity.
  - reflexivity.
  - reflexivity.
Qed.

(** The namespaced sample. *)
Lemma X6_namespaced_documents_witness :
  ImportKjv.parse_osis doc_namespaced = []
  /\ map ImportKjv.text (ImportKjvOsis.parse_osis doc_namespaced)
     = ["In the beginning"].
Proof.
  split; [|reflexivity].
  apply (X6_namespaced_documents doc_namespaced).
  intros e He. simpl in He.
  repeat (destruct He as [<-|He]; [discriminate|]). destruct He.
Defined.

Lemma space_not_digit c : isspace c = true -> isdigit c = false.
Proof. destruct c as [[] [] [] [] [] [] [] []]; vm_compute; congruence. Qed.

Lemma digits_lstrip s : strip_nondigits (lstrip s) = strip_nondigits s.
Proof.
  induction s as [|c r IH]; [reflexivity|]. simpl.
  destruct (isspace c) eqn:E; [|reflexivity].
  unfold strip_nondigits in *. simpl. now rewrite (space_not_digit c E).
Qed.

Lemma digits_rstrip s : strip_nondigits (rstrip s) = strip_nondigits s.
Proof.
  induction s as [|c r IH]; [reflexivity|].
  unfold strip_nondigits in *.
  destruct (isspace c) eqn:E.
  - rewrite (rstrip_cons_space c r E). cbn [filter_chars].
    rewrite (space_not_digit c E), <- IH.
    destruct (rstrip r); [reflexivity|]. cbn [filter_chars].
    now rewrite (space_not_digit c E).
  - rewrite (rstrip_cons_nonspace c r E). cbn [filter_chars]. now rewrite IH.
Qed.

Lemma digits_strip s : strip_nondigits (strip s) = strip_nondigits s.
Proof. unfold strip. now rewrite digits_rstrip, digits_lstrip. Qed.

Lemma digits_or_zero_alt s :
  digits_or_zero s = int_of_digits (strip_nondigits s).
Proof.
  unfold digits_or_zero. destruct (strip_nondigits s); reflexivity.
Qed.

Lemma sign_split t :
  exists neg body,
    match t with
    | String "-" r => (true, r)
    | String "+" r => (false, r)
    | _ => (false, t)
    end = (neg, body)
    /\ strip_nondigits body = strip_nondigits t.
Proof.
  destruct t as [|a r]; [exists false, EmptyString; auto|].
  destruct a as [[] [] [] [] [] [] [] []];
    eexists _, _; (split; [reflexivity|]); reflexivity.
Qed.

(** [int] and the digit fallback read the same number, up to the sign. *)
Lemma int_of_str_abs tok z :
  int_of_str tok = Some z -> Z.abs z = Z.of_nat (digits_or_zero tok).
Proof.
  unfold int_of_str. destruct (sign_split (strip tok)) as [neg [body [E Hd]]].
  rewrite E. destruct (int_body_ok false body); [|discriminate].
  intros [= <-]. rewrite Hd, digits_strip, digits_or_zero_alt.
  destruct neg; lia.
Qed.

Lemma etl_row_of_import v id :
  match Etl.verse_row v id, ImportKjv.verse_row v id with
  | Some a, Some b =>
      Etl.osis_id a = ImportKjv.osis_id b
      /\ Etl.book a = ImportKjv.book b
      /\ Etl.verse a = ImportKjv.verse b
      /\ Etl.text a = ImportKjv.text b
      /\ Z.abs (Etl.chapter a) = Z.of_nat (ImportKjv.chapter b)
  | None, None => True
  | _, _ => False
  end.
Proof.
  unfold Etl.verse_row, ImportKjv.verse_row.
  destruct (_ <? 3); [exact I|].
  cbn [Etl.osis_id Etl.book Etl.verse Etl.text Etl.chapter ImportKjv.osis_id
       ImportKjv.book ImportKjv.verse ImportKjv.text ImportKjv.chapter].
  repeat split.
  destruct (int_of_str (nth 1 (split_on "." id) EmptyString)) as [z|] eqn:E.
  - now apply int_of_str_abs.
  - lia.
Qed.

(** What the two extractors are compared on. *)
Lemma etl_rows_of_import l :
  map (fun a => (Etl.osis_id a, Etl.book a, Z.abs (Etl.chapter a), Etl.verse a,
                 Etl.text a))
      (flat_map (fun '(v, i) => ImportKjv.yielded (Etl.verse_row v i)) l)
  = map (fun b => (ImportKjv.osis_id b, ImportKjv.book b,
                   Z.of_nat (ImportKjv.chapter b), ImportKjv.verse b,
                   ImportKjv.text b))
        (flat_map (fun '(v, i) => ImportKjv.yielded (ImportKjv.verse_row v i)) l).
Proof.
  induction l as [|[v i] l IH]; [reflexivity|].
  cbn [flat_map]. rewrite !map_app, IH. f_equal.
  pose proof (etl_row_of_import v i) as H.
  destruct (Etl.verse_row v i) as [a|], (ImportKjv.verse_row v i) as [b|];
    try contradiction; [|reflexivity].
  destruct H as [H1 [H2 [H3 [H4 H5]]]]. cbn [ImportKjv.yielded map].
  now rewrite H1, H2, H3, H4, H5.
Qed.

(** X7.  The DOM extractor of the ETL script and the one of
    [import_kjv.py] yield rows for the same verse elements, in the same
    order, with the same identifier, book, verse and text; the chapter of
    the ETL row is [int()] of the token, which equals the digits read by
    [import_kjv.py] up to the sign (a token [-3] gives -3 in one and 3 in
    the other), and no [ValueError] escapes. *)
Theorem X7_etl_rows_match_import_rows :
  forall root,
    map (fun a => (Etl.osis_id a, Etl.book a, Z.abs (Etl.chapter a), Etl.verse a,
                   Etl.text a))
        (Etl.parse_osis root)
    = map (fun b => (ImportKjv.osis_id b, ImportKjv.book b,
                     Z.of_nat (ImportKjv.chapter b), ImportKjv.verse b,
                     ImportKjv.text b))
          (ImportKjv.parse_osis root).
Proof. intros root. apply etl_rows_of_import. Qed.

End DomFacts.

(** ** The safety patterns as whole-word tests *)

Module SafetyWords.
Import Py Etl WholeWord SafetyFacts.

Lemma isword_lower c : isword (lower_char c) = isword c.
Proof. destruct c as [[] [] [] [] [] [] [] []]; vm_compute; reflexivity. Qed.

Lemma lower_lower c : lower_char (lower_char c) = lower_char c.
Proof. destruct c as [[] [] [] [] [] [] [] []]; vm_compute; reflexivity. Qed.

Lemma isword_lower_opt o : isword_opt (lower_opt o) = isword_opt o.
Proof. destruct o; [apply isword_lower | reflexivity]. Qed.

Lemma head_lower s : head_char (lower s) = lower_opt (head_char s).
Proof. destruct s; reflexivity. Qed.

Lemma match_literal_lower p :
  forall s before,
    match_literal p (lower s) (lower_opt before)
    = option_map (fun lr => (lower_opt (fst lr), lower (snd lr)))
                 (match_literal p s before).
Proof.
  induction p as [|a p IH]; intros s before; [reflexivity|].
  destruct s as [|b s]; [reflexivity|]. cbn [lower match_literal].
  rewrite lower_lower. destruct (Ascii.eqb _ _); [|reflexivity].
  apply (IH s (Some b)).
Qed.

Lemma match_at_lower before s alt :
  match_at (lower_opt before) (lower s) alt = match_at before s alt.
Proof.
  unfold match_at, word_boundary.
  rewrite head_lower, !isword_lower_opt, match_literal_lower.
  destruct (match_literal alt s before) as [[l r]|]; [|reflexivity].
  cbn [option_map fst snd]. now rewrite head_lower, !isword_lower_opt.
Qed.

Lemma existsb_pointwise {A} (f g : A -> bool) l :
  (forall x, f x = g x) -> existsb f l = existsb g l.
Proof.
  intros H. induction l as [|x l IH]; simpl; [reflexivity|]. now rewrite H, IH.
Qed.

Lemma search_lower alts s :
  forall before,
    search_from alts (lower_opt before) (lower s) = search_from alts before s.
Proof.
  induction s as [|c s IH]; intros before.
  - cbn [lower search_from]. f_equal. apply existsb_pointwise.
    intros alt. apply (match_at_lower before EmptyString alt).
  - cbn [lower search_from]. f_equal.
    + apply existsb_pointwise. intros alt.
      apply (match_at_lower before (String c s) alt).
    + apply (IH (Some c)).
Qed.

(** X8.  The safety flags ignore the letter case: two texts that are
    equal once lower-cased get the same flags. *)
Theorem X8_safety_ignores_case :
  forall s1 s2, lower s1 = lower s2 -> safety_flags s1 = safety_flags s2.
Proof.
  intros s1 s2 H.
  assert (R : forall alts, re_search alts s1 = re_search alts s2).
  { intros alts. unfold re_search.
    rewrite <- (search_lower alts s1 None), <- (search_lower alts s2 None).
    now rewrite H. }
  unfold safety_flags. now rewrite !R.
Qed.

(** "WOE unto the Hypocrite" and its lower-case form. *)
Lemma X8_safety_ignores_case_witness :
  safety_flags "WOE unto the Hypocrite" = safety_flags "woe unto the hypocrite"
  /\ harsh_rebuke (safety_flags "WOE unto the Hypocrite") = true.
Proof.
  split; [|reflexivity].
  apply X8_safety_ignores_case. reflexivity.
Defined.

Lemma last_lower s : last_char (lower s) = lower_opt (last_char s).
Proof.
  induction s as [|c s IH]; [reflexivity|].
  cbn [lower]. rewrite !last_char_cons, IH.
  destruct (last_char s); reflexivity.
Qed.

Lemma head_of_lower w alt :
  lower w = lower alt -> isword_opt (head_char w) = isword_opt (head_char alt).
Proof.
  intros H. rewrite <- (isword_lower_opt (head_char w)), <- head_lower, H.
  now rewrite head_lower, isword_lower_opt.
Qed.

Lemma last_of_lower w alt :
  lower w = lower alt -> isword_opt (last_char w) = isword_opt (last_char alt).
Proof.
  intros H. rewrite <- (isword_lower_opt (last_char w)), <- last_lower, H.
  now rewrite last_lower, isword_lower_opt.
Qed.

Lemma last_or_cons b w before : last_or (String b w) before = last_or w (Some b).
Proof. unfold last_or. rewrite last_char_cons. destruct (last_char w); reflexivity. Qed.

Lemma match_literal_inv p :
  forall s before last post,
    match_literal p s before = Some (last, post) ->
    exists w, s = (w ++ post)%string /\ lower w = lower p /\ last = last_or w before.
Proof.
  induction p as [|a p IH]; intros s before last post H.
  - cbn [match_literal] in H. injection H as <- <-. now exists EmptyString.
  - destruct s as [|b s]; [discriminate H|]. cbn [match_literal] in H.
    destruct (Ascii.eqb (lower_char a) (lower_char b)) eqn:E; [|discriminate H].
    apply Ascii.eqb_eq in E.
    destruct (IH _ _ _ _ H) as [w [-> [Hl ->]]]. exists (String b w).
    split; [reflexivity|]. split.
    + cbn [lower]. now rewrite E, Hl.
    + symmetry. apply last_or_cons.
Qed.

Lemma match_literal_complete p :
  forall w post before,
    lower w = lower p ->
    match_literal p (w ++ post) before = Some (last_or w before, post).
Proof.
  induction p as [|a p IH]; intros w post before H.
  - destruct w; [reflexivity | discriminate H].
  - destruct w as [|b w]; [discriminate H|]. cbn [lower] in H.
    injection H as Hc Hw. cbn [append match_literal].
    rewrite <- Hc, Ascii.eqb_refl, last_or_cons. now apply IH.
Qed.

Lemma search_from_inv alts :
  forall s before,
    search_from alts before s = true ->
    exists alt pre rest,
      In alt alts /\ s = (pre ++ rest)%string
      /\ match_at (last_or pre before) rest alt = true.
Proof.
  assert (Here : forall s before,
            existsb (match_at before s) alts = true ->
            exists alt pre rest,
              In alt alts /\ s = (pre ++ rest)%string
              /\ match_at (last_or pre before) rest alt = true).
  { intros s before H. apply existsb_exists in H as [alt [Hin Hm]].
    exists alt, EmptyString, s. auto. }
  induction s as [|c s IH]; intros before H; cbn [search_from] in H;
    apply orb_true_iff in H as [H|H]; try (now apply Here).
  destruct (IH _ H) as [alt [pre [rest [Hin [-> Hm]]]]].
  exists alt, (String c pre), rest. split; [exact Hin|]. split; [reflexivity|].
  now rewrite last_or_cons.
Qed.

Lemma head_app_word w post :
  isword_opt (head_char w) = true -> head_char (w ++ post) = head_char w.
Proof. destruct w; [discriminate | reflexivity]. Qed.

Lemma last_or_word w before :
  isword_opt (last_char w) = true -> last_or w before = last_char w.
Proof. unfold last_or. destruct (last_char w); [reflexivity | discriminate]. Qed.

(** A pattern whose keywords begin and end with a word character finds
    exactly the whole-word occurrences of its keywords. *)
Lemma search_whole_word alts s :
  forallb word_ended alts = true ->
  re_search alts s = true <-> exists alt, In alt alts /\ whole_word alt s.
Proof.
  intros Hall. rewrite forallb_forall in Hall. split.
  - intros H. apply search_from_inv in H as [alt [pre [rest [Hin [-> Hm]]]]].
    exists alt. split; [exact Hin|].
    apply Hall in Hin. apply andb_true_iff in Hin as [Hh Hl].
    unfold match_at in Hm. apply andb_true_iff in Hm as [Hb Hm].
    destruct (match_literal alt rest (last_or pre None)) as [[last post]|] eqn:E;
      [|discriminate Hm].
    apply match_literal_inv in E as [w [-> [Hw ->]]].
    rewrite <- (head_of_lower _ _ Hw) in Hh. rewrite <- (last_of_lower _ _ Hw) in Hl.
    rewrite (head_app_word _ _ Hh) in Hb. rewrite (last_or_word _ _ Hl) in Hm.
    unfold word_boundary in Hb, Hm. rewrite Hh in Hb. rewrite Hl in Hm.
    exists pre, w, post. split; [reflexivity|]. split; [exact Hw|]. split.
    + unfold last_or in Hb. destruct (last_char pre); cbn [isword_opt] in *;
        [destruct (isword a); [discriminate Hb | reflexivity] | reflexivity].
    + destruct (isword_opt (head_char post)); [discriminate Hm | reflexivity].
  - intros [alt [Hin [pre [w [post [-> [Hw [Hpre Hpost]]]]]]]].
    unfold re_search. apply search_after_prefix.
    apply (search_here _ _ _ alt Hin).
    apply Hall in Hin. apply andb_true_iff in Hin as [Hh Hl].
    rewrite <- (head_of_lower _ _ Hw) in Hh. rewrite <- (last_of_lower _ _ Hw) in Hl.
    unfold match_at. rewrite (match_literal_complete alt w post _ Hw).
    rewrite (head_app_word _ _ Hh), (last_or_word _ _ Hl).
    unfold word_boundary. rewrite Hh, Hl, Hpost.
    destruct (last_char pre); cbn [isword_opt] in *; [rewrite Hpre|]; reflexivity.
Qed.

(** X9.  Each safety pattern finds exactly the whole-word occurrences of
    its keywords: a flag is set if and only if the text contains one of the
    pattern's keywords, in any letter case, with no letter, digit or
    underscore right before it and none right after it. *)
Theorem X9_safety_whole_words :
  forall s,
    (violence (safety_flags s) = true
       <-> exists alt, In alt RE_VIOLENCE /\ whole_word alt s)
    /\ (sexual (safety_flags s) = true
          <-> exists alt, In alt RE_SEXUAL /\ whole_word alt s)
    /\ (harsh_rebuke (safety_flags s) = true
          <-> exists alt, In alt RE_REBUKE /\ whole_word alt s)
    /\ (slavery (safety_flags s) = true
          <-> exists alt, In alt RE_SLAVERY /\ whole_word alt s).
Proof.
  intros s. unfold safety_flags. cbn [violence sexual harsh_rebuke slavery].
  split; [|split; [|split]]; apply search_whole_word; reflexivity.
Qed.

(** "Put up thy Sword." *)
Lemma X9_safety_whole_words_witness :
  violence (safety_flags "Put up thy Sword.") = true
  /\ exists alt, In alt RE_VIOLENCE /\ whole_word alt "Put up thy Sword.".
Proof.
  split; [vm_compute; reflexivity|].
  apply (X9_safety_whole_words "Put up thy Sword."). vm_compute. reflexivity.
Defined.

Lemma all_chars_app p a b :
  all_chars p (a ++ b) = all_chars p a && all_chars p b.
Proof.
  induction a as [|c a IH]; [reflexivity|].
  cbn [append all_chars]. now rewrite IH, andb_assoc.
Qed.

Lemma all_word_last s :
  all_chars isword s = true -> isword_opt (last_char s) = false -> s = EmptyString.
Proof.
  induction s as [|c s IH]; intros A L; [reflexivity|]. exfalso.
  cbn [all_chars] in A. apply andb_true_iff in A as [Ac As].
  rewrite last_char_cons in L. destruct (last_char s) eqn:E.
  - specialize (IH As L). subst s. discriminate E.
  - cbn [isword_opt] in L. congruence.
Qed.

Lemma all_word_head s :
  all_chars isword s = true -> isword_opt (head_char s) = false -> s = EmptyString.
Proof.
  destruct s as [|c s]; intros A H; [reflexivity|]. exfalso.
  cbn [all_chars] in A. apply andb_true_iff in A as [Ac _].
  cbn [head_char isword_opt] in H. congruence.
Qed.

Lemma one_word alts s :
  forallb word_ended alts = true ->
  all_chars isword s = true ->
  re_search alts s = true <-> In (lower s) (map lower alts).
Proof.
  intros Hall Hs. rewrite (search_whole_word alts s Hall). split.
  - intros [alt [Hin [pre [w [post [E [Hw [Hpre Hpost]]]]]]]].
    rewrite E in Hs. rewrite !all_chars_app in Hs.
    apply andb_true_iff in Hs as [Hp Hs]. apply andb_true_iff in Hs as [_ Hq].
    rewrite (all_word_last _ Hp Hpre), (all_word_head _ Hq Hpost) in E.
    cbn [append] in E. rewrite TextFacts.append_empty_r in E. subst s.
    rewrite Hw. now apply in_map.
  - intros H. apply in_map_iff in H as [alt [E Hin]]. exists alt.
    split; [exact Hin|]. exists EmptyString, s, EmptyString.
    cbn [append]. rewrite TextFacts.append_empty_r. auto.
Qed.

(** X10.  On a text that is a single word (letters, digits and
    underscores only) a flag is set only when the word itself, in lower
    case, is one of the keywords: a keyword never matches inside a longer
    word, so the stems [adulter] and [prostitut] do not flag
    [adultery] or [prostitute]. *)
Theorem X10_one_word_texts :
  forall s,
    all_chars isword s = true ->
    (violence (safety_flags s) = true <-> In (lower s) RE_VIOLENCE)
    /\ (sexual (safety_flags s) = true <-> In (lower s) RE_SEXUAL)
    /\ (harsh_rebuke (safety_flags s) = true <-> In (lower s) RE_REBUKE)
    /\ (slavery (safety_flags s) = true <-> In (lower s) RE_SLAVERY).
Proof.
  intros s Hs. unfold safety_flags. cbn [violence sexual harsh_rebuke slavery].
  split; [|split; [|split]].
  - apply (one_word RE_VIOLENCE s); [reflexivity | exact Hs].
  - apply (one_word RE_SEXUAL s); [reflexivity | exact Hs].
  - apply (one_word RE_REBUKE s); [reflexivity | exact Hs].
  - apply (one_word RE_SLAVERY s); [reflexivity | exact Hs].
Qed.

(** [Adultery] is not flagged, [Lust] is. *)
Lemma X10_one_word_texts_witness :
  sexual (safety_flags "Adultery") = false
  /\ (sexual (safety_flags "Lust") = true <-> In "lust" RE_SEXUAL).
Proof.
  split; [reflexivity|].
  apply (X10_one_word_texts "Lust"). reflexivity.
Defined.

End SafetyWords.

(** ** Tagging without and with a fingerprint *)

Module TaggingFacts.
Import Py Etl Tagging ThemeFacts.

Lemma starts_with_lower_inv needle :
  forall s, starts_with needle (lower s) = true ->
            exists w post, s = (w ++ post)%string /\ lower w = needle.
Proof.
  induction needle as [|a p IH]; intros s H.
  - now exists EmptyString, s.
  - destruct s as [|b s]; [discriminate H|]. cbn [lower starts_with] in H.
    apply andb_true_iff in H as [E H]. apply Ascii.eqb_eq in E.
    destruct (IH s H) as [w [post [-> Hw]]].
    exists (String b w), post. split; [reflexivity|].
    cbn [lower]. now rewrite <- E, Hw.
Qed.

Lemma starts_with_lower w :
  forall post, starts_with (lower w) (lower (w ++ post)) = true.
Proof.
  induction w as [|c w IH]; intros post; [reflexivity|].
  cbn [append lower starts_with]. now rewrite Ascii.eqb_refl, IH.
Qed.

Lemma contains_here needle hay :
  starts_with needle hay = true -> contains needle hay = true.
Proof. intros H. destruct hay; cbn [contains]; now rewrite H. Qed.

Lemma contains_lower needle s :
  contains needle (lower s) = true
  <-> exists pre w post, s = (pre ++ w ++ post)%string /\ lower w = needle.
Proof.
  split.
  - induction s as [|c s IH]; cbn [lower contains]; intros H;
      apply orb_true_iff in H as [H|H].
    + apply (starts_with_lower_inv needle EmptyString) in H as [w [post [E Hw]]].
      now exists EmptyString, w, post.
    + discriminate H.
    + apply (starts_with_lower_inv needle (String c s)) in H as [w [post [E Hw]]].
      now exists EmptyString, w, post.
    + destruct (IH H) as [pre [w [post [-> Hw]]]].
      now exists (String c pre), w, post.
  - intros [pre [w [post [-> <-]]]].
    induction pre as [|c pre IH]; cbn [append].
    + apply contains_here, starts_with_lower.
    + cbn [lower contains]. rewrite IH. apply orb_true_r.
Qed.

Lemma any_in_mentions kws text :
  any_in kws (lower text) = true <-> mentions kws text.
Proof.
  unfold any_in, mentions. rewrite existsb_exists. split.
  - intros [kw [Hin H]]. apply contains_lower in H as [pre [w [post [E Hw]]]].
    exists pre, w, post. split; [exact E|]. now rewrite Hw.
  - intros [pre [w [post [E Hin]]]]. exists (lower w). split; [exact Hin|].
    apply contains_lower. now exists pre, w, post.
Qed.

Lemma or2_mentions a b text :
  contains a (lower text) || contains b (lower text) = true
  <-> mentions [a; b] text.
Proof.
  rewrite <- any_in_mentions. unfold any_in. cbn [existsb].
  now rewrite orb_false_r.
Qed.

Lemma or3_mentions a b c text :
  contains a (lower text) || contains b (lower text) || contains c (lower text) = true
  <-> mentions [a; b; c] text.
Proof.
  rewrite <- any_in_mentions. unfold any_in. cbn [existsb].
  now rewrite orb_false_r, orb_assoc.
Qed.

Lemma In_mem l L : mem_str l L = true -> In l L.
Proof.
  unfold mem_str. intros H. apply existsb_exists in H as [x [Hin E]].
  apply String.eqb_eq in E. now subst.
Qed.

Ltac split_cases :=
  repeat match goal with
         | H : _ \/ _ |- _ => destruct H
         | H : _ /\ _ |- _ => destruct H
         | H : False |- _ => destruct H
         | H : String _ _ = String _ _ |- _ => discriminate H
         | H : false = true |- _ => discriminate H
         end.

(** The labels picked from the four keyword tests, by cases on the tests. *)
Lemma theme_picks_facts b1 b2 b3 b4 :
  let picks :=
    push_if b4 "wisdom"
      (push_if b3 "trust" (push_if b2 "hope" (push_if b1 "comfort" []))) in
  let r := firstn 3 (match picks with [] => ["comfort"] | _ => picks end) in
  (1 <= List.length r <= 3)
  /\ NoDup r
  /\ (forall l, In l r -> In l theme_names)
  /\ (In "hope" r <-> b2 = true)
  /\ (In "trust" r <-> b3 = true)
  /\ (In "comfort" r <-> b1 = true \/ ~ (b2 = true \/ b3 = true \/ b4 = true))
  /\ (In "wisdom" r <-> b4 = true /\ ~ (b1 = true /\ b2 = true /\ b3 = true)).
Proof.
  destruct b1, b2, b3, b4; cbv [push_if app firstn List.length];
    (split; [lia|]);
    (split; [repeat constructor; cbn [In]; intuition discriminate|]);
    (split; [intros l Hl; apply In_mem; cbn [In] in Hl;
             repeat (destruct Hl as [<-|Hl]; [reflexivity|]); destruct Hl|]);
    cbn [In]; repeat split; intros; split_cases;
    try reflexivity; try (left; reflexivity); auto 10; intuition discriminate.
Qed.

(** X11.  Without a fingerprint the themes come from keywords looked
    for as substrings of the lower-cased text: [hope] and [trust] are
    returned exactly when one of their keywords occurs; [comfort] when
    one of its keywords occurs or when no keyword occurs at all;
    [wisdom] when one of its keywords occurs, unless the three other
    labels are already there.  The result has 1 to 3 distinct labels of
    the theme vocabulary, and the centroid cache is left as it was. *)
Theorem X11_theme_keywords :
  forall embed argsort cache text,
    let r := fst (theme_tags_from_semantics embed argsort cache None text 3) in
    snd (theme_tags_from_semantics embed argsort cache None text 3) = cache
    /\ (1 <= List.length r <= 3)
    /\ NoDup r
    /\ (forall l, In l r -> In l theme_names)
    /\ (In "hope" r <-> mentions HOPE_WORDS text)
    /\ (In "trust" r <-> mentions TRUST_WORDS text)
    /\ (In "comfort" r <->
        mentions COMFORT_WORDS text
        \/ ~ (mentions HOPE_WORDS text \/ mentions TRUST_WORDS text
              \/ mentions WISDOM_WORDS text))
    /\ (In "wisdom" r <->
        mentions WISDOM_WORDS text
        /\ ~ (mentions COMFORT_WORDS text /\ mentions HOPE_WORDS text
              /\ mentions TRUST_WORDS text)).
Proof.
  intros embed argsort cache text r.
  pose proof (any_in_mentions COMFORT_WORDS text) as H1.
  pose proof (or2_mentions "hope" "promise" text) as H2.
  pose proof (or3_mentions "trust" "refuge" "shield" text) as H3.
  pose proof (or2_mentions "wisdom" "understanding" text) as H4.
  fold HOPE_WORDS in H2. fold TRUST_WORDS in H3. fold WISDOM_WORDS in H4.
  split; [reflexivity|].
  rewrite <- H1, <- H2, <- H3, <- H4.
  apply (theme_picks_facts
           (any_in COMFORT_WORDS (lower text))
           (contains "hope" (lower text) || contains "promise" (lower text))
           (contains "trust" (lower text) || contains "refuge" (lower text)
            || contains "shield" (lower text))
           (contains "wisdom" (lower text) || contains "understanding" (lower text))).
Qed.

(** "He is my REFUGE and my shield": comfort and trust. *)
Lemma X11_theme_keywords_witness :
  fst (theme_tags_from_semantics toy_embed argsort_stable None None
         "He is my REFUGE and my shield" 3) = ["comfort"; "trust"]
  /\ In "trust" (fst (theme_tags_from_semantics toy_embed argsort_stable None None
                        "He is my REFUGE and my shield" 3)).
Proof.
  split; [vm_compute; reflexivity|].
  pose proof (X11_theme_keywords toy_embed argsort_stable None
                "He is my REFUGE and my shield") as H.
  cbv zeta in H. destruct H as [_ [_ [_ [_ [_ [H _]]]]]]. apply H.
  exists "He is my ", "REFUGE", " and my shield". split; [reflexivity|].
  vm_compute. auto.
Defined.


Lemma NoDup_map_nth (names : list string) (l : list nat) :
  NoDup names -> NoDup l -> (forall i, In i l -> i < List.length names) ->
  NoDup (map (fun i => nth i names EmptyString) l).
Proof.
  intros Hn Hl Hb. induction Hl as [|i l Hi Hl IH]; cbn [map]; constructor.
  - intros C. apply in_map_iff in C as [j [E Hj]]. apply Hi.
    assert (j = i); [|now subst].
    apply (proj1 (NoDup_nth names EmptyString) Hn);
      [apply Hb; now right | apply Hb; now left | exact E].
  - apply IH. intros j Hj. apply Hb. now right.
Qed.

Lemma mood_picks_facts b1 b2 b3 b4 :
  let picks :=
    push_if b4 "hopeful"
      (push_if b3 "grateful" (push_if b2 "tired" (push_if b1 "anxious" []))) in
  let r := firstn 2 (match picks with [] => ["hopeful"] | _ => picks end) in
  (1 <= List.length r <= 2)
  /\ NoDup r
  /\ (forall l, In l r -> In l MOODS)
  /\ (In "anxious" r <-> b1 = true)
  /\ (In "tired" r <-> b2 = true)
  /\ (In "grateful" r <-> b3 = true /\ ~ (b1 = true /\ b2 = true))
  /\ (In "hopeful" r <->
      (b4 = true /\ ~ (b1 = true /\ b2 = true) /\ ~ (b1 = true /\ b3 = true)
       /\ ~ (b2 = true /\ b3 = true))
      \/ ~ (b1 = true \/ b2 = true \/ b3 = true \/ b4 = true)).
Proof.
  destruct b1, b2, b3, b4; cbv [push_if app firstn List.length];
    (split; [lia|]);
    (split; [repeat constructor; cbn [In]; intuition discriminate|]);
    (split; [intros l Hl; apply In_mem; cbn [In] in Hl;
             repeat (destruct Hl as [<-|Hl]; [reflexivity|]); destruct Hl|]);
    cbn [In]; repeat split; intros; split_cases;
    try reflexivity; try (left; reflexivity); auto 10; intuition discriminate.
Qed.


(** X12.  Without a fingerprint the moods come from keywords looked for
    as substrings of the lower-cased text, in the order [anxious],
    [tired], [grateful], [hopeful], cut to two: [anxious] and [tired] are
    returned exactly when one of their keywords occurs, [grateful] when
    one of its keywords occurs and the two before it are not both there,
    [hopeful] when one of its keywords occurs and at most one earlier
    label is there, or when no keyword occurs at all.  The result has 1
    or 2 distinct labels of the mood list. *)
Theorem X12_mood_keywords :
  forall embed argsort text,
    let r := mood_tags_from_semantics embed argsort None text 2 in
    (1 <= List.length r <= 2)
    /\ NoDup r
    /\ (forall l, In l r -> In l MOODS)
    /\ (In "anxious" r <-> mentions ANXIOUS_WORDS text)
    /\ (In "tired" r <-> mentions TIRED_WORDS text)
    /\ (In "grateful" r <->
        mentions GRATEFUL_WORDS text
        /\ ~ (mentions ANXIOUS_WORDS text /\ mentions TIRED_WORDS text))
    /\ (In "hopeful" r <->
        (mentions HOPEFUL_WORDS text
         /\ ~ (mentions ANXIOUS_WORDS text /\ mentions TIRED_WORDS text)
         /\ ~ (mentions ANXIOUS_WORDS text /\ mentions GRATEFUL_WORDS text)
         /\ ~ (mentions TIRED_WORDS text /\ mentions GRATEFUL_WORDS text))
        \/ ~ (mentions ANXIOUS_WORDS text \/ mentions TIRED_WORDS text
              \/ mentions GRATEFUL_WORDS text \/ mentions HOPEFUL_WORDS text)).
Proof.
  intros embed argsort text r.
  pose proof (any_in_mentions ANXIOUS_WORDS text) as H1.
  pose proof (or2_mentions "weary" "rest" text) as H2.
  pose proof (or2_mentions "praise" "thanks" text) as H3.
  pose proof (or2_mentions "hope" "joy" text) as H4.
  fold TIRED_WORDS in H2. fold GRATEFUL_WORDS in H3. fold HOPEFUL_WORDS in H4.
  rewrite <- H1, <- H2, <- H3, <- H4.
  apply (mood_picks_facts
           (any_in ANXIOUS_WORDS (lower text))
           (contains "weary" (lower text) || contains "rest" (lower text))
           (contains "praise" (lower text) || contains "thanks" (lower text))
           (contains "hope" (lower text) || contains "joy" (lower text))).
Qed.

(** "Come unto me, all ye that labour ... and I will give you Rest." *)
Lemma X12_mood_keywords_witness :
  mood_tags_from_semantics toy_embed argsort_stable None
    "and I will give you Rest" 2 = ["tired"]
  /\ In "tired" (mood_tags_from_semantics toy_embed argsort_stable None
                   "and I will give you Rest" 2).
Proof.
  split; [vm_compute; reflexivity|].
  pose proof (X12_mood_keywords toy_embed argsort_stable
                "and I will give you Rest") as H.
  cbv zeta in H. destruct H as [_ [_ [_ [_ [H _]]]]]. apply H.
  exists "and I will give you ", "Rest", EmptyString. split; [reflexivity|].
  vm_compute. auto.
Defined.

(** X13.  With a fingerprint, [mood_tags_from_semantics] scores the nine
    mood descriptions and returns the names of the two best-scoring
    ones, best first; there is no score floor, so the result always has
    exactly two distinct names of the mood list.  The names cut from the
    descriptions are the entries of [MOODS]. *)
Theorem X13_mood_tags :
  forall embed argsort v text,
    embed_rows embed -> argsort_ok argsort ->
    let sims := matvec (embed MOOD_LABELS) v in
    let top := firstn 2 (rev (argsort sims)) in
    let r := mood_tags_from_semantics embed argsort (Some v) text 2 in
    map before_colon MOOD_LABELS = MOODS
    /\ r = map (fun i => nth i MOODS EmptyString) top
    /\ List.length r = 2
    /\ NoDup r
    /\ (forall l, In l r -> In l MOODS)
    /\ NoDup top
    /\ (forall i, In i top -> i < 9)
    /\ StronglySorted (fun a b => (b <= a)%Q) (map (score sims) top)
    /\ (forall i j, In i top -> j < 9 -> ~ In j top ->
                    (score sims j <= score sims i)%Q).
Proof.
  intros embed argsort v text Hrows Hsort sims top r.
  assert (Ls : List.length sims = 9)
    by (unfold sims; rewrite length_matvec, Hrows; reflexivity).
  destruct (top_k_spec argsort sims 2 Hsort) as [T1 [T2 [T3 [T4 T5]]]];
    [rewrite Ls; lia|]. fold top in T1, T2, T3, T4, T5. rewrite Ls in T3, T5.
  assert (N : map before_colon MOOD_LABELS = MOODS) by reflexivity.
  assert (R : r = map (fun i => nth i MOODS EmptyString) top) by reflexivity.
  split; [exact N|]. split; [exact R|].
  split; [rewrite R, length_map; exact T1|].
  split; [rewrite R; apply NoDup_map_nth; auto;
          repeat constructor; cbn [In]; intuition discriminate|].
  split.
  { intros l Hl. rewrite R in Hl. apply in_map_iff in Hl as [i [<- Hi]].
    apply nth_In. now apply T3. }
  split; [exact T2|]. split; [exact T3|]. split; [exact T4 | exact T5].
Qed.

Lemma X13_mood_tags_witness :
  mood_tags_from_semantics toy_embed argsort_stable (Some [1%Q]) "text" 2
  = ["anxious"; "tired"].
Proof.
  destruct (X13_mood_tags toy_embed argsort_stable [1%Q] "text") as [_ [R _]].
  - intros ts. apply length_map.
  - apply argsort_stable_ok.
  - etransitivity; [exact R|]. vm_compute. reflexivity.
Defined.

End TaggingFacts.

(** ** The annotation of a batch *)

Module BatchFacts.
Import Py Etl ThemeFacts.

Lemma themes_cached embed argsort cache v text :
  cache_ok embed cache ->
  theme_tags_from_semantics embed argsort cache v text 3
  = (fst (theme_tags_from_semantics embed argsort None v text 3),
     match v with
     | Some _ => Some (fst (build_tag_centroids embed None))
     | None => cache
     end).
Proof.
  intros Hc. destruct v as [v|]; [|reflexivity].
  unfold theme_tags_from_semantics.
  rewrite (build_cached embed cache Hc). reflexivity.
Qed.

Lemma annotate_cached np embed argsort cache v text :
  cache_ok embed cache ->
  annotate np embed argsort cache v text
  = (fst (annotate np embed argsort None v text),
     match v with
     | Some _ => Some (fst (build_tag_centroids embed None))
     | None => cache
     end).
Proof.
  intros Hc. unfold annotate. rewrite (themes_cached embed argsort cache v text Hc).
  destruct (theme_tags_from_semantics embed argsort None v text 3). reflexivity.
Qed.

Lemma annotate_all_built np embed argsort vecs texts :
  forall i,
    snd (annotate_all np embed argsort
           (Some (fst (build_tag_centroids embed None))) vecs i texts)
    = Some (fst (build_tag_centroids embed None)).
Proof.
  induction texts as [|t texts IH]; intros i; [reflexivity|].
  cbn [annotate_all]. rewrite annotate_cached by (right; reflexivity).
  match goal with
  | |- context [match ?v with Some _ => Some ?b | None => Some ?b end] =>
      replace (match v with Some _ => Some b | None => Some b end) with (Some b)
        by (destruct v; reflexivity)
  end.
  specialize (IH (S i)).
  destruct (annotate_all np embed argsort _ vecs (S i) texts). exact IH.
Qed.

Lemma annotate_all_spec np embed argsort vecs texts :
  forall cache i,
    cache_ok embed cache ->
    let out := annotate_all np embed argsort cache vecs i texts in
    List.length (fst out) = List.length texts
    /\ cache_ok embed (snd out)
    /\ (vecs = None -> snd out = cache)
    /\ (vecs <> None -> texts <> [] ->
        snd out = Some (fst (build_tag_centroids embed None)))
    /\ (forall k t,
          nth_error texts k = Some t ->
          nth_error (fst out) k
          = Some (fst (annotate np embed argsort None
                         match vecs with
                         | Some vs => Some (nth (i + k) vs [])
                         | None => None
                         end t))).
Proof.
  induction texts as [|t texts IH]; intros cache i Hc out.
  - cbn in out. unfold out. cbn [fst snd List.length].
    split; [reflexivity|]. split; [exact Hc|]. split; [reflexivity|].
    split; [intros _ C; now elim C|]. intros [|k] t0 H; discriminate H.
  - unfold out. cbn [annotate_all].
    set (v := match vecs with Some vs => Some (nth i vs []) | None => None end).
    rewrite (annotate_cached np embed argsort cache v t Hc).
    set (cache1 := match v with
                   | Some _ => Some (fst (build_tag_centroids embed None))
                   | None => cache
                   end).
    assert (Hc1 : cache_ok embed cache1)
      by (unfold cache1; destruct v; [right; reflexivity | exact Hc]).
    assert (B : vecs <> None ->
                snd (annotate_all np embed argsort cache1 vecs (S i) texts)
                = Some (fst (build_tag_centroids embed None))).
    { intros E. unfold cache1, v. destruct vecs as [vs|]; [|now elim E].
      apply annotate_all_built. }
    specialize (IH cache1 (S i) Hc1). cbv zeta in IH.
    destruct (annotate_all np embed argsort cache1 vecs (S i) texts) as [r cache2].
    cbn [fst snd] in *. destruct IH as [I1 [I2 [I3 [I4 I5]]]].
    split; [cbn [List.length]; now rewrite I1|]. split; [exact I2|].
    split; [|split].
    + intros E. rewrite (I3 E). unfold cache1, v. now rewrite E.
    + intros E _. now apply B.
    + intros [|k] t0 H; cbn [nth_error] in *.
      * injection H as ->. now rewrite Nat.add_0_r.
      * rewrite (I5 _ _ H). now rewrite Nat.add_succ_r.
Qed.


(** X14.  [process_annotations] builds one annotation per text, in
    order.  The annotation of the i-th text is the one a call with an
    empty centroid cache would build from that text and its own
    fingerprint row (none when embeddings are off): neither the state of
    the cache nor the texts before it change it.  The cache stays valid;
    it is left as it was when embeddings are off, and holds the centroid
    table after any non-empty batch when they are on. *)
Theorem X14_annotation_batch :
  forall np embed argsort cache texts use_embeddings,
    embed_rows embed -> cache_ok embed cache ->
    let out := process_annotations np embed argsort cache texts use_embeddings in
    List.length (fst out) = List.length texts
    /\ (forall i t,
          nth_error texts i = Some t ->
          nth_error (fst out) i
          = Some (fst (annotate np embed argsort None
                         (if use_embeddings
                          then nth_error (embed texts) i
                          else None) t)))
    /\ cache_ok embed (snd out)
    /\ (use_embeddings = false -> snd out = cache)
    /\ (use_embeddings = true -> texts <> [] ->
        snd out = Some (fst (build_tag_centroids embed None))).
Proof.
  intros np embed argsort cache texts b Hrows Hc out.
  unfold out, process_annotations.
  set (vecs := if b then Some (embed texts) else None).
  destruct (annotate_all_spec np embed argsort vecs texts cache 0 Hc)
    as [A1 [A2 [A3 [A4 A5]]]].
  split; [exact A1|]. split; [|split; [exact A2|split]].
  - intros i t H. rewrite (A5 i t H). cbn [Nat.add]. do 3 f_equal.
    unfold vecs. destruct b; [|reflexivity].
    assert (Hi : i < List.length (embed texts)).
    { rewrite Hrows. apply nth_error_Some. congruence. }
    destruct (nth_error (embed texts) i) as [x|] eqn:E.
    + now rewrite (nth_error_nth _ _ _ E).
    + apply nth_error_None in E. lia.
  - intros ->. now apply A3.
  - intros -> Hne. apply A4; [discriminate | exact Hne].
Qed.

Lemma X14_annotation_batch_witness :
  List.length
    (fst (process_annotations exact_numpy toy_embed argsort_stable None
            ["Fear not"; "Rejoice evermore"] true)) = 2
  /\ snd (process_annotations exact_numpy toy_embed argsort_stable None
            ["Fear not"; "Rejoice evermore"] false) = None.
Proof.
  pose proof (X14_annotation_batch exact_numpy toy_embed argsort_stable None
                ["Fear not"; "Rejoice evermore"] true) as H1.
  pose proof (X14_annotation_batch exact_numpy toy_embed argsort_stable None
                ["Fear not"; "Rejoice evermore"] false) as H2.
  cbv zeta in H1, H2.
  assert (Hr : embed_rows toy_embed) by (intros ts; apply length_map).
  assert (Hc : cache_ok toy_embed None) by (left; reflexivity).
  destruct (H1 Hr Hc) as [L _]. destruct (H2 Hr Hc) as [_ [_ [_ [K _]]]].
  split; [exact L | exact (K eq_refl)].
Defined.

End BatchFacts.

(** ** The batches of [main] *)

Module EtlMainFacts.
Import Py Xml Etl EtlMain.

Lemma upserts_app a b : upserts (a ++ b) = upserts a ++ upserts b.
Proof. apply flat_map_app. Qed.

Lemma batches_app a b : batches (a ++ b) = batches a ++ batches b.
Proof. apply flat_map_app. Qed.

Lemma commits_app a b : commits (a ++ b) = commits a + commits b.
Proof. unfold commits. now rewrite filter_app, length_app. Qed.

Lemma fold_files cs files :
  forall st,
    fold_left (visit_file cs) files st
    = fold_left (visit_pair cs) (all_rows files) st.
Proof.
  induction files as [|[tr [root|]] files IH]; intros st; [reflexivity| |].
  - unfold all_rows. cbn [flat_map fold_left snd fst].
    rewrite fold_left_app. fold (all_rows files). rewrite <- IH. f_equal.
    unfold visit_file. cbn [snd fst].
    generalize (parse_osis root) as rows. intros rows. revert st.
    induction rows as [|r rows IHr]; intros st; [reflexivity|].
    cbn [map fold_left]. now rewrite IHr.
  - unfold all_rows. cbn [flat_map fold_left snd fst app]. apply IH.
Qed.

Lemma visit_pair_eq cs q log tr r :
  visit_pair cs (q, log) (tr, r)
  = if (cs <=? Z.of_nat (List.length (batch_texts q) + 1))%Z
    then ({| batch_texts := []; batch_meta := [] |},
          (log ++ [UpsertVerse tr r])
          ++ [ProcessAnnotations (batch_texts q ++ [text r])
                (batch_meta q ++ [(tr, osis_id r, r)]); Commit])
    else ({| batch_texts := batch_texts q ++ [text r];
             batch_meta := batch_meta q ++ [(tr, osis_id r, r)] |},
          log ++ [UpsertVerse tr r]).
Proof.
  unfold visit_pair, visit. cbn [fst snd]. rewrite length_app. reflexivity.
Qed.

Lemma loop_spec cs rows :
  forall q log,
    batch_texts q = texts_of (batch_meta q) ->
    (Z.of_nat (List.length (batch_meta q)) < Z.max 1 cs)%Z ->
    let st := fold_left (visit_pair cs) rows (q, log) in
    upserts (snd st) = upserts log ++ rows
    /\ batch_texts (fst st) = texts_of (batch_meta (fst st))
    /\ (Z.of_nat (List.length (batch_meta (fst st))) < Z.max 1 cs)%Z
    /\ exists new,
         batches (snd st) = batches log ++ new
         /\ Forall (full_batch (Z.to_nat (Z.max 1 cs))) new
         /\ commits (snd st) = commits log + List.length new
         /\ List.concat (map snd new) ++ batch_meta (fst st)
            = batch_meta q ++ map meta_of rows.
Proof.
  induction rows as [|[tr r] rows IH]; intros q log Hq Hl st.
  - unfold st. cbn [fold_left fst snd map]. rewrite !app_nil_r.
    split; [reflexivity|]. split; [exact Hq|]. split; [exact Hl|].
    exists []. cbn. rewrite !app_nil_r, Nat.add_0_r. auto.
  - unfold st. cbn [fold_left]. rewrite visit_pair_eq.
    destruct (cs <=? Z.of_nat (List.length (batch_texts q) + 1))%Z eqn:E.
    + apply Z.leb_le in E.
      assert (Ln : List.length (batch_meta q ++ [(tr, osis_id r, r)])
                   = Z.to_nat (Z.max 1 cs)).
      { rewrite length_app. cbn [List.length].
        rewrite Hq in E. unfold texts_of in E. rewrite length_map in E. lia. }
      edestruct (IH {| batch_texts := []; batch_meta := [] |}
                   ((log ++ [UpsertVerse tr r])
                    ++ [ProcessAnnotations (batch_texts q ++ [text r])
                          (batch_meta q ++ [(tr, osis_id r, r)]); Commit]))
        as [I1 [I2 [I3 [new [I4 [I5 [I6 I7]]]]]]];
        [reflexivity | cbn; lia |].
      split; [|split; [exact I2|split; [exact I3|]]].
      * rewrite I1, !upserts_app. cbn. rewrite app_nil_r, <- app_assoc. reflexivity.
      * exists ((batch_texts q ++ [text r], batch_meta q ++ [(tr, osis_id r, r)])
                :: new).
        split; [rewrite I4, !batches_app; cbn; rewrite ?app_nil_r, <- ?app_assoc; reflexivity|].
        split.
        { constructor; [|exact I5]. split; [|exact Ln]. cbn [fst snd].
          unfold texts_of. rewrite map_app, Hq. reflexivity. }
        split.
        { rewrite I6, !commits_app. cbn. lia. }
        cbn [map List.concat snd]. rewrite <- app_assoc, I7.
        cbn. rewrite <- app_assoc. reflexivity.
    + apply Z.leb_gt in E.
      edestruct (IH {| batch_texts := batch_texts q ++ [text r];
                       batch_meta := batch_meta q ++ [(tr, osis_id r, r)] |}
                   (log ++ [UpsertVerse tr r]))
        as [I1 [I2 [I3 [new [I4 [I5 [I6 I7]]]]]]].
      * cbn [batch_texts batch_meta]. unfold texts_of.
        rewrite map_app, Hq. reflexivity.
      * cbn [batch_meta]. rewrite length_app. cbn [List.length].
        rewrite Hq in E. unfold texts_of in E. rewrite length_map in E. lia.
      * split; [|split; [exact I2|split; [exact I3|]]].
        { rewrite I1, upserts_app. cbn. rewrite <- app_assoc. reflexivity. }
        exists new.
        split; [rewrite I4, !batches_app; cbn; rewrite ?app_nil_r, <- ?app_assoc; reflexivity|].
        split; [exact I5|]. split.
        { rewrite I6, commits_app. cbn. lia. }
        rewrite I7. cbn [batch_meta map]. rewrite <- app_assoc. reflexivity.
Qed.


Lemma In_removelast {A} (l : list A) x : In x (removelast l) -> In x l.
Proof.
  induction l as [|a l IH]; [intros []|].
  destruct l as [|b l]; [intros []|].
  change (removelast (a :: b :: l)) with (a :: removelast (b :: l)).
  intros [->|H]; [now left | right; now apply IH].
Qed.

(** The log of the loop, batch by batch: the finished batches as
    blocks, then the upserts of the rows still queued. *)
Lemma loop_blocks cs rows :
  forall pend log0,
    (Z.of_nat (List.length pend) < Z.max 1 cs)%Z ->
    exists bs pend',
      fold_left (visit_pair cs) rows (queue_of pend, log0 ++ map upsert_of pend)
      = (queue_of pend', log0 ++ flat_map block bs ++ map upsert_of pend')
      /\ List.concat bs ++ pend' = pend ++ rows
      /\ Forall (fun b => List.length b = Z.to_nat (Z.max 1 cs)) bs
      /\ (Z.of_nat (List.length pend') < Z.max 1 cs)%Z.
Proof.
  induction rows as [|[tr r] rows IH]; intros pend log0 Hl.
  - exists [], pend. cbn [fold_left flat_map List.concat app].
    rewrite app_nil_r. auto.
  - cbn [fold_left]. rewrite visit_pair_eq.
    cbn [queue_of batch_texts batch_meta]. rewrite length_map.
    set (x := (tr, r)).
    assert (Ex : (map (fun y => text (snd y)) pend ++ [text r]
                  = map (fun y => text (snd y)) (pend ++ [x]))
                 /\ (map meta_of pend ++ [(tr, osis_id r, r)]
                     = map meta_of (pend ++ [x]))
                 /\ (map upsert_of pend ++ [UpsertVerse tr r]
                     = map upsert_of (pend ++ [x])))
      by (rewrite !map_app; auto).
    destruct Ex as [E1 [E2 E3]]. rewrite E1, E2, <- (app_assoc log0), E3.
    destruct (cs <=? Z.of_nat (List.length pend + 1))%Z eqn:E.
    + apply Z.leb_le in E.
      destruct (IH [] ((log0 ++ map upsert_of (pend ++ [x]))
                       ++ [ProcessAnnotations
                             (map (fun y => text (snd y)) (pend ++ [x]))
                             (map meta_of (pend ++ [x])); Commit]))
        as [bs [pend' [F [C [L P]]]]]; [cbn; lia|].
      cbn [map] in F. rewrite app_nil_r in F.
      change {| batch_texts := []; batch_meta := [] |} with (queue_of []).
      rewrite F. exists ((pend ++ [x]) :: bs), pend'.
      split; [|split; [|split]].
      * cbn [flat_map]. unfold block. now rewrite <- !app_assoc.
      * cbn [List.concat]. rewrite <- !app_assoc, C. reflexivity.
      * constructor; [|exact L]. rewrite length_app. cbn [List.length]. lia.
      * exact P.
    + apply Z.leb_gt in E.
      destruct (IH (pend ++ [x]) log0) as [bs [pend' [F [C [L P]]]]].
      { rewrite length_app. cbn [List.length]. lia. }
      change {| batch_texts := map (fun y => text (snd y)) (pend ++ [x]);
                batch_meta := map meta_of (pend ++ [x]) |}
        with (queue_of (pend ++ [x])).
      rewrite F. exists bs, pend'.
      split; [reflexivity|]. split; [|split; assumption].
      rewrite C, <- app_assoc. reflexivity.
Qed.

Lemma main_counts :
  forall commit_size files,
    let log := main commit_size files in
    let n := Z.to_nat (Z.max 1 commit_size) in
    upserts log = all_rows files
    /\ List.concat (map snd (batches log)) = map meta_of (all_rows files)
    /\ (forall b, In b (batches log) ->
                  fst b = texts_of (snd b) /\ 1 <= List.length (snd b) <= n)
    /\ (forall b, In b (removelast (batches log)) -> List.length (snd b) = n)
    /\ commits log = List.length (batches log).
Proof.
  intros cs files log n. unfold log, main. rewrite fold_files.
  destruct (loop_spec cs (all_rows files)
              {| batch_texts := []; batch_meta := [] |} [])
    as [I1 [I2 [I3 [new [I4 [I5 [I6 I7]]]]]]]; [reflexivity | cbn; lia |].
  destruct (fold_left (visit_pair cs) (all_rows files)
              ({| batch_texts := []; batch_meta := [] |}, [])) as [q lg].
  cbn [fst snd upserts batches commits flat_map filter List.length
       batch_meta app] in *.
  fold (upserts lg) in *. fold (batches lg) in *. fold (commits lg) in *.
  assert (Hn : 1 <= n) by (unfold n; lia).
  rewrite Forall_forall in I5.
  destruct (batch_texts q) as [|t ts] eqn:Et.
  - assert (Em : batch_meta q = [])
      by (destruct (batch_meta q); [reflexivity | discriminate I2]).
    rewrite Em, app_nil_r in I7.
    split; [exact I1|]. split; [rewrite I4; exact I7|].
    split; [|split].
    + intros b Hb. rewrite I4 in Hb. destruct (I5 b Hb) as [F1 F2].
      split; [exact F1 | fold n in F2; lia].
    + intros b Hb. rewrite I4 in Hb.
      apply (I5 b), In_removelast, Hb.
    + rewrite I6, I4. reflexivity.
  - rewrite upserts_app, batches_app, commits_app, I4. cbn.
    rewrite app_nil_r. fold (upserts lg). rewrite I1.
    split; [reflexivity|].
    split; [rewrite map_app, concat_app; cbn; rewrite app_nil_r; exact I7|].
    assert (Lq : 1 <= List.length (batch_meta q) <= n).
    { assert (List.length (batch_meta q) = S (List.length ts)).
      { unfold texts_of in I2.
        rewrite <- (length_map (fun m => text (snd m))), <- I2. reflexivity. }
      unfold n. lia. }
    split; [|split].
    + intros b Hb. apply in_app_or in Hb as [Hb|[<-|[]]].
      * destruct (I5 b Hb) as [F1 F2]. split; [exact F1 | fold n in F2; lia].
      * cbn [fst snd]. split; [exact I2 | exact Lq].
    + intros b Hb. rewrite removelast_last in Hb. apply (I5 b Hb).
    + fold (commits lg). rewrite I6, length_app. cbn. lia.
Qed.

Lemma main_blocks :
  forall commit_size files,
    let log := main commit_size files in
    let n := Z.to_nat (Z.max 1 commit_size) in
    exists bs,
      log = flat_map block bs
      /\ List.concat bs = all_rows files
      /\ (forall b, In b bs -> 1 <= List.length b <= n)
      /\ (forall b, In b (removelast bs) -> List.length b = n).
Proof.
  intros cs files log n.
  unfold log, main. rewrite fold_files.
  destruct (loop_blocks cs (all_rows files) [] []) as [bs [pend [F [C [L P]]]]];
    [cbn; lia|].
  cbn [map app] in F, C. change (queue_of []) with
    {| batch_texts := []; batch_meta := [] |} in F. rewrite F.
  assert (Hn : 1 <= n) by (unfold n; lia).
  rewrite Forall_forall in L. fold n in L.
  cbn [queue_of batch_texts batch_meta app].
  destruct pend as [|x pend]; cbn [map].
  - exists bs. cbn [map] in *. rewrite !app_nil_r in *.
    split; [reflexivity|]. split; [exact C|]. split.
    + intros b Hb. rewrite (L b Hb). lia.
    + intros b Hb. apply L, In_removelast, Hb.
  - exists (bs ++ [x :: pend]). rewrite flat_map_app. cbn [flat_map].
    rewrite app_nil_r. split.
    + unfold block. cbn [map]. now rewrite <- !app_assoc.
    + split; [rewrite concat_app; cbn; now rewrite app_nil_r|]. split.
      * intros b Hb. apply in_app_or in Hb as [Hb|[<-|[]]].
        { rewrite (L b Hb). lia. }
        { cbn [List.length] in *. unfold n. lia. }
      * intros b Hb. rewrite removelast_last in Hb. now apply L.
Qed.

(** X15.  [main] writes every parsed row once, in order, and hands
    every written row to [process_annotations] exactly once, in the same
    order: the batches, put end to end, are the rows of all the files
    (a batch runs on across translations).  In each batch the text list
    and the meta list are in step.  With [n] the commit size, or 1 when
    the commit size is below 1, every batch but the last holds exactly
    [n] rows and the last holds 1 to [n]; each batch is followed by one
    commit and there is no other commit.  The whole log is made of one
    block per batch, in order: the verse upserts of the rows of the
    batch, then [process_annotations] on these rows, then the commit. *)
Theorem X15_main_batches :
  forall commit_size files,
    let log := main commit_size files in
    let n := Z.to_nat (Z.max 1 commit_size) in
    upserts log = all_rows files
    /\ List.concat (map snd (batches log)) = map meta_of (all_rows files)
    /\ (forall b, In b (batches log) ->
                  fst b = texts_of (snd b) /\ 1 <= List.length (snd b) <= n)
    /\ (forall b, In b (removelast (batches log)) -> List.length (snd b) = n)
    /\ commits log = List.length (batches log)
    /\ (exists bs,
          log = flat_map block bs
          /\ List.concat bs = all_rows files
          /\ (forall b, In b bs -> 1 <= List.length b <= n)
          /\ (forall b, In b (removelast bs) -> List.length b = n)).
Proof.
  intros cs files log n.
  destruct (main_counts cs files) as [A1 [A2 [A3 [A4 A5]]]].
  repeat (split; [assumption|]). apply main_blocks.
Qed.

(** Three verses with a commit size of 2: a batch of two and one of one. *)
Lemma X15_main_batches_witness :
  map (fun b => List.length (snd b)) (batches (main 2 [("KJV", Some three_verses)]))
  = [2; 1]
  /\ commits (main 2 [("KJV", Some three_verses)]) = 2
  /\ map (fun b => List.length (snd b))
         (batches (main 0 [("KJV", Some three_verses); ("WEB", None)]))
     = [1; 1; 1].
Proof.
  split; [vm_compute; reflexivity|]. split; [|vm_compute; reflexivity].
  destruct (X15_main_batches 2 [("KJV", Some three_verses)])
    as [_ [_ [_ [_ [H _]]]]].
  etransitivity; [exact H|]. vm_compute. reflexivity.
Defined.

End EtlMainFacts.

(** ** The table after an import *)

Module VersesFacts.
Import Py Verses.

Lemma same_key_iff a b : same_key a b = true <-> key a = key b.
Proof.
  unfold same_key, key. rewrite andb_true_iff, !String.eqb_eq. split.
  - intros [-> ->]. reflexivity.
  - intros H. injection H as -> ->. auto.
Qed.

Lemma same_key_false a b : same_key a b = false <-> key a <> key b.
Proof.
  rewrite <- same_key_iff. destruct (same_key a b); split; congruence.
Qed.

Lemma same_key_sym a b : same_key a b = same_key b a.
Proof.
  unfold same_key.
  now rewrite (String.eqb_sym (osis_id a)), (String.eqb_sym (translation a)).
Qed.

Lemma same_key_left a b c : key a = key b -> same_key a c = same_key b c.
Proof. unfold same_key, key. intros H. injection H as -> ->. reflexivity. Qed.

Lemma reference_key a b : reference a = reference b -> key a = key b.
Proof.
  unfold reference, key. intros H. injection H as -> -> _ _ _ _. reflexivity.
Qed.

Lemma overwrite_keeps : keeps_reference overwrite.
Proof. intros l x. reflexivity. Qed.

Lemma patch_keeps : keeps_reference patch.
Proof. intros l x. unfold patch. destruct (text_is_empty l); reflexivity. Qed.

Lemma no_key_iff tbl x :
  existsb (fun l => same_key l x) tbl = false <-> ~ In (key x) (map key tbl).
Proof.
  split.
  - intros H C. apply in_map_iff in C as [l [E Hl]].
    assert (existsb (fun l => same_key l x) tbl = true); [|congruence].
    apply existsb_exists. exists l. split; [exact Hl|]. now apply same_key_iff.
  - intros H. destruct (existsb _ tbl) eqn:E; [|reflexivity]. exfalso. apply H.
    apply existsb_exists in E as [l [Hl E]]. apply same_key_iff in E.
    rewrite <- E. now apply in_map.
Qed.

Section Execute.
Variable f : line -> line -> line.
Hypothesis Hf : keeps_reference f.

Lemma f_key l x : key (f l x) = key l.
Proof. apply reference_key, Hf. Qed.

Lemma execute_absent tbl x :
  ~ In (key x) (map key tbl) -> execute f tbl x = tbl ++ [x].
Proof.
  induction tbl as [|l tbl IH]; intros H; [reflexivity|].
  cbn [execute app]. destruct (same_key l x) eqn:E.
  - exfalso. apply H. left. now apply same_key_iff.
  - f_equal. apply IH. intros C. apply H. now right.
Qed.

(** On a table that has the key, the statement updates in place. *)
Lemma execute_present tbl x :
  unique tbl -> In (key x) (map key tbl) ->
  execute f tbl x = map (fun l => if same_key l x then f l x else l) tbl.
Proof.
  induction tbl as [|l tbl IH]; intros U Hin; [destruct Hin|].
  cbn [execute map]. inversion U as [|? ? Hn U']; subst.
  destruct (same_key l x) eqn:E.
  - f_equal. rewrite <- (map_id tbl) at 1. apply map_ext_in. intros l' Hl'.
    destruct (same_key l' x) eqn:E'; [|reflexivity]. exfalso. apply Hn.
    apply same_key_iff in E, E'. rewrite E, <- E'. now apply in_map.
  - f_equal. apply IH; [exact U'|]. destruct Hin as [Hin|Hin]; [|exact Hin].
    apply same_key_false in E. congruence.
Qed.

Lemma key_dec tbl x : In (key x) (map key tbl) \/ ~ In (key x) (map key tbl).
Proof.
  destruct (existsb (fun l => same_key l x) tbl) eqn:E.
  - left. apply existsb_exists in E as [l [Hl E]]. apply same_key_iff in E.
    rewrite <- E. now apply in_map.
  - right. now apply no_key_iff.
Qed.

Lemma execute_keys tbl x :
  unique tbl ->
  (In (key x) (map key tbl) /\ map key (execute f tbl x) = map key tbl)
  \/ (~ In (key x) (map key tbl)
      /\ map key (execute f tbl x) = map key tbl ++ [key x]).
Proof.
  intros U. destruct (key_dec tbl x) as [H|H]; [left | right]; split; auto.
  - rewrite (execute_present tbl x U H), map_map. apply map_ext.
    intros l. destruct (same_key l x); [apply f_key | reflexivity].
  - rewrite (execute_absent tbl x H), map_app. reflexivity.
Qed.

Lemma execute_unique tbl x : unique tbl -> unique (execute f tbl x).
Proof.
  intros U. destruct (execute_keys tbl x U) as [[_ E]|[H E]];
    unfold unique; rewrite E; [exact U|].
  apply (Permutation.Permutation_NoDup (l := key x :: map key tbl)).
  - apply Permutation.Permutation_cons_append.
  - now constructor.
Qed.

Lemma execute_has_key tbl x k :
  unique tbl -> In k (map key tbl) \/ k = key x ->
  In k (map key (execute f tbl x)).
Proof.
  intros U H. destruct (execute_keys tbl x U) as [[P E]|[P E]]; rewrite E.
  - destruct H as [H| ->]; assumption.
  - apply in_or_app. destruct H as [H| ->]; [now left | right; now left].
Qed.

(** The lines of the table after one statement. *)
Lemma execute_In tbl x l' :
  unique tbl -> In l' (execute f tbl x) ->
  (In l' tbl /\ same_key l' x = false)
  \/ (exists l, In l tbl /\ same_key l x = true /\ l' = f l x)
  \/ (l' = x /\ ~ In (key x) (map key tbl)).
Proof.
  intros U H. destruct (key_dec tbl x) as [P|P].
  - rewrite (execute_present tbl x U P) in H.
    apply in_map_iff in H as [l [E Hl]]. destruct (same_key l x) eqn:K.
    + right. left. exists l. auto.
    + left. subst l'. auto.
  - rewrite (execute_absent tbl x P) in H. apply in_app_or in H as [H|[<-|[]]].
    + left. split; [exact H|]. apply same_key_false. intros C. apply P.
      rewrite <- C. now apply in_map.
    + right. right. auto.
Qed.

(** A line keeps its place, and the columns outside the [set] clauses. *)
Lemma execute_place tbl x i l :
  nth_error tbl i = Some l ->
  exists l', nth_error (execute f tbl x) i = Some l'
             /\ reference l' = reference l
             /\ (l' = l \/ (same_key l x = true /\ l' = f l x)).
Proof.
  revert i. induction tbl as [|a tbl IH]; intros [|i] H; try discriminate H;
    cbn [nth_error execute] in *.
  - injection H as ->. destruct (same_key l x) eqn:E; cbn [nth_error].
    + exists (f l x). split; [reflexivity|]. split; [apply Hf | auto].
    + exists l. auto.
  - destruct (same_key a x); cbn [nth_error].
    + exists l. auto.
    + now apply IH.
Qed.

Lemma fold_unique xs : forall tbl, unique tbl -> unique (fold_left (execute f) xs tbl).
Proof.
  induction xs as [|x xs IH]; intros tbl U; [exact U|].
  cbn [fold_left]. apply IH, execute_unique, U.
Qed.

Lemma fold_has_keys xs :
  forall tbl k,
    unique tbl -> In k (map key tbl) \/ In k (map key xs) ->
    In k (map key (fold_left (execute f) xs tbl)).
Proof.
  induction xs as [|x xs IH]; intros tbl k U H; cbn [fold_left].
  - destruct H as [H|[]]. exact H.
  - apply IH; [now apply execute_unique|].
    destruct H as [H|[H|H]]; [left | left | right; exact H];
      apply execute_has_key; auto.
Qed.

Lemma fold_place xs :
  forall tbl i l,
    nth_error tbl i = Some l ->
    exists l', nth_error (fold_left (execute f) xs tbl) i = Some l'
               /\ reference l' = reference l.
Proof.
  induction xs as [|x xs IH]; intros tbl i l H; cbn [fold_left].
  - exists l. auto.
  - destruct (execute_place tbl x i l H) as [l1 [H1 [R1 _]]].
    destruct (IH _ _ _ H1) as [l2 [H2 R2]]. exists l2. split; [exact H2|].
    congruence.
Qed.

End Execute.

(** *** [UPSERT_SQL] *)

Lemma overwrite_twice l x y : overwrite (overwrite l x) y = overwrite l y.
Proof. reflexivity. Qed.

Lemma overwrite_self x : overwrite x x = x.
Proof. destruct x. reflexivity. Qed.

Lemma settled_snoc xs x l :
  settled (xs ++ [x]) l = if same_key x l then overwrite l x else settled xs l.
Proof.
  unfold settled, last_for. rewrite rev_app_distr. cbn [rev app find].
  destruct (same_key x l); reflexivity.
Qed.

Lemma settled_key xs l : key (settled xs l) = key l.
Proof. unfold settled. destruct (last_for xs l); reflexivity. Qed.

(** Every line of the table after the rows is as the rows leave it. *)
Lemma fold_settled xs :
  forall tbl,
    unique tbl ->
    forall l, In l (fold_left UPSERT_SQL xs tbl) -> settled xs l = l.
Proof.
  induction xs as [|x xs IH] using rev_ind; intros tbl U l H; [reflexivity|].
  rewrite fold_left_app in H. cbn [fold_left] in H.
  assert (U' : unique (fold_left UPSERT_SQL xs tbl))
    by (apply fold_unique; [exact overwrite_keeps | exact U]).
  rewrite settled_snoc.
  apply (execute_In overwrite _ _ _ U') in H
    as [[H E]|[[l0 [H [E ->]]]|[-> _]]].
  - rewrite same_key_sym, E. now apply (IH tbl).
  - rewrite same_key_sym.
    rewrite (same_key_left (overwrite l0 x) l0 x eq_refl), E. reflexivity.
  - assert (E : same_key x x = true) by now apply same_key_iff.
    rewrite E. apply overwrite_self.
Qed.

(** On a table that has all the keys, the rows update in place. *)
Lemma fold_in_place xs :
  forall tbl,
    unique tbl -> (forall x, In x xs -> In (key x) (map key tbl)) ->
    fold_left UPSERT_SQL xs tbl = map (settled xs) tbl.
Proof.
  induction xs as [|x xs IH] using rev_ind; intros tbl U Hk.
  - cbn [fold_left]. symmetry. apply map_id.
  - rewrite fold_left_app. cbn [fold_left].
    rewrite (IH tbl U) by (intros y Hy; apply Hk, in_or_app; now left).
    unfold UPSERT_SQL. rewrite (execute_present overwrite).
    + rewrite map_map. apply map_ext. intros l. rewrite settled_snoc.
      rewrite (same_key_left (settled xs l) l x (settled_key xs l)).
      rewrite (same_key_sym x l). destruct (same_key l x); [|reflexivity].
      unfold settled. destruct (last_for xs l); reflexivity.
    + unfold unique. rewrite map_map.
      rewrite (map_ext _ key (fun l => settled_key xs l)). exact U.
    + rewrite map_map. rewrite (map_ext _ key (fun l => settled_key xs l)).
      apply Hk, in_or_app. right. now left.
Qed.

Lemma rerun_same xs tbl :
  unique tbl ->
  fold_left UPSERT_SQL xs (fold_left UPSERT_SQL xs tbl)
  = fold_left UPSERT_SQL xs tbl.
Proof.
  intros U.
  assert (U' : unique (fold_left UPSERT_SQL xs tbl))
    by (apply fold_unique; [exact overwrite_keeps | exact U]).
  rewrite (fold_in_place xs _ U').
  - rewrite <- (map_id (fold_left UPSERT_SQL xs tbl)) at 2.
    apply map_ext_in. intros l Hl. apply (fold_settled xs tbl U l Hl).
  - intros x Hx. apply (fold_has_keys overwrite overwrite_keeps); [exact U|].
    right. now apply in_map.
Qed.


Lemma upsert_columns xs tbl :
  unique tbl ->
  let tbl' := fold_left UPSERT_SQL xs tbl in
  (forall i l, nth_error tbl i = Some l ->
               exists l', nth_error tbl' i = Some l' /\ reference l' = reference l)
  /\ (forall x, In x xs -> exists l', In l' tbl' /\ key l' = key x)
  /\ (forall l' x, In l' tbl' -> last_for xs l' = Some x ->
                   text l' = text x /\ char_count l' = char_count x
                   /\ word_count l' = word_count x).
Proof.
  intros U tbl'. split; [|split].
  - intros i l H. apply (fold_place overwrite overwrite_keeps xs tbl i l H).
  - intros x Hx.
    assert (K : In (key x) (map key tbl')).
    { apply (fold_has_keys overwrite overwrite_keeps); [exact U|].
      right. now apply in_map. }
    apply in_map_iff in K as [l' [E Hl]]. exists l'. auto.
  - intros l' x Hl Hx. pose proof (fold_settled xs tbl U l' Hl) as S.
    unfold settled in S. rewrite Hx in S. rewrite <- S. auto.
Qed.

(** X16.  Running an import again on the table it has produced changes
    nothing: with the unique key [(osis_id, translation)], [main] of
    [import_kjv_usfx.py] and of [import_kjv.py] keep the keys unique and
    are idempotent. *)
Theorem X16_import_rerun :
  forall root tbl,
    unique tbl ->
    unique (usfx_main root tbl)
    /\ usfx_main root (usfx_main root tbl) = usfx_main root tbl
    /\ unique (kjv_main root tbl)
    /\ kjv_main root (kjv_main root tbl) = kjv_main root tbl.
Proof.
  intros root tbl U. unfold usfx_main, kjv_main.
  split; [apply fold_unique; [exact overwrite_keeps | exact U]|].
  split; [now apply rerun_same|].
  split; [apply fold_unique; [exact overwrite_keeps | exact U]|].
  now apply rerun_same.
Qed.

Lemma X16_import_rerun_witness :
  usfx_main ImportKjvUsfx.doc_note (usfx_main ImportKjvUsfx.doc_note [])
  = usfx_main ImportKjvUsfx.doc_note []
  /\ List.length (usfx_main ImportKjvUsfx.doc_note []) = 1.
Proof.
  split; [|vm_compute; reflexivity].
  apply (X16_import_rerun ImportKjvUsfx.doc_note []). constructor.
Defined.

(** X17.  What the upsert of [import_kjv_usfx.py] and [import_kjv.py]
    changes: a line that is in the table keeps its place and its
    [book], [chapter], [verse] and [ref_display], whatever the rows
    carry; every written row has a line with its key; and the [text],
    [char_count] and [word_count] of a line are those of the last row
    with its key. *)
Theorem X17_upsert_columns :
  forall root tbl,
    unique tbl ->
    (forall i l, nth_error tbl i = Some l ->
                 (exists l', nth_error (usfx_main root tbl) i = Some l'
                             /\ reference l' = reference l)
                 /\ (exists l', nth_error (kjv_main root tbl) i = Some l'
                                /\ reference l' = reference l))
    /\ (forall r, In r (ImportKjvUsfx.written root) ->
                  exists l', In l' (usfx_main root tbl)
                             /\ key l' = key (line_of_usfx r))
    /\ (forall r, In r (ImportKjv.parse_osis root) ->
                  exists l', In l' (kjv_main root tbl)
                             /\ key l' = key (line_of_osis r))
    /\ (forall l' x,
          In l' (usfx_main root tbl) ->
          last_for (map line_of_usfx (ImportKjvUsfx.written root)) l' = Some x ->
          text l' = text x /\ char_count l' = char_count x
          /\ word_count l' = word_count x)
    /\ (forall l' x,
          In l' (kjv_main root tbl) ->
          last_for (map line_of_osis (ImportKjv.parse_osis root)) l' = Some x ->
          text l' = text x /\ char_count l' = char_count x
          /\ word_count l' = word_count x).
Proof.
  intros root tbl U.
  destruct (upsert_columns (map line_of_usfx (ImportKjvUsfx.written root)) tbl U)
    as [A1 [A2 A3]].
  destruct (upsert_columns (map line_of_osis (ImportKjv.parse_osis root)) tbl U)
    as [B1 [B2 B3]].
  split; [intros i l H; split; [apply (A1 i l H) | apply (B1 i l H)]|].
  split; [intros r Hr; apply A2; now apply in_map|].
  split; [intros r Hr; apply B2; now apply in_map|].
  split; [exact A3 | exact B3].
Qed.


Lemma sample_unique : unique sample_table.
Proof.
  unfold unique. cbn. repeat constructor; cbn; intuition discriminate.
Qed.

(** The line of [Gen.1.1] keeps its older book name and gets the new
    text. *)
Lemma X17_upsert_columns_witness :
  (exists l', nth_error (usfx_main ImportKjvUsfx.doc_note sample_table) 0 = Some l'
              /\ reference l' = reference sample_line)
  /\ map text (usfx_main ImportKjvUsfx.doc_note sample_table)
     = [Some "In the beginning bold more"; Some "  "].
Proof.
  split; [|vm_compute; reflexivity].
  exact (proj1 (proj1 (X17_upsert_columns ImportKjvUsfx.doc_note sample_table
                         sample_unique) 0 sample_line eq_refl)).
Defined.

(** *** [UPSERT_IF_EMPTY] *)

Lemma execute_exact f tbl x i l :
  unique tbl -> nth_error tbl i = Some l ->
  nth_error (execute f tbl x) i = Some (if same_key l x then f l x else l).
Proof.
  intros U H. destruct (key_dec tbl x) as [P|P].
  - rewrite (execute_present f tbl x U P).
    rewrite nth_error_map, H. reflexivity.
  - rewrite (execute_absent f tbl x P).
    rewrite nth_error_app1 by (apply nth_error_Some; congruence).
    rewrite H. f_equal.
    destruct (same_key l x) eqn:E; [|reflexivity]. exfalso. apply P.
    apply same_key_iff in E. rewrite <- E. apply in_map.
    now apply nth_error_In in H.
Qed.

Lemma patch_nonempty l x : text_is_empty l = false -> patch l x = l.
Proof. intros H. unfold patch. now rewrite H. Qed.

(** A line with a text is left alone by the whole run. *)
Lemma patch_fold_keeps xs :
  forall tbl i l,
    unique tbl -> nth_error tbl i = Some l -> text_is_empty l = false ->
    nth_error (fold_left UPSERT_IF_EMPTY xs tbl) i = Some l.
Proof.
  induction xs as [|x xs IH]; intros tbl i l U H E; [exact H|].
  cbn [fold_left]. apply IH; [apply execute_unique; [exact patch_keeps | exact U]| |exact E].
  unfold UPSERT_IF_EMPTY. rewrite (execute_exact patch tbl x i l U H).
  rewrite (patch_nonempty l x E). now destruct (same_key l x).
Qed.

(** An empty line takes the columns of the first row with its key. *)
Lemma patch_fold_first xs :
  forall tbl i l x,
    unique tbl -> Forall (fun y => text_is_empty y = false) xs ->
    nth_error tbl i = Some l -> text_is_empty l = true ->
    find (fun y => same_key y l) xs = Some x ->
    nth_error (fold_left UPSERT_IF_EMPTY xs tbl) i = Some (overwrite l x).
Proof.
  induction xs as [|y xs IH]; intros tbl i l x U F H E Hx; [discriminate Hx|].
  inversion F as [|? ? Fy Fxs]; subst.
  assert (U' : unique (UPSERT_IF_EMPTY tbl y))
    by (apply execute_unique; [exact patch_keeps | exact U]).
  pose proof (execute_exact patch tbl y i l U H) as P.
  cbn [fold_left find] in *. rewrite (same_key_sym y l) in Hx.
  destruct (same_key l y) eqn:K.
  - injection Hx as <-. apply patch_fold_keeps; [exact U'| |].
    + unfold UPSERT_IF_EMPTY. rewrite P. unfold patch. now rewrite E.
    + exact Fy.
  - apply IH; auto.
Qed.

Lemma patch_all_filled xs :
  forall tbl,
    unique tbl -> Forall (fun y => text_is_empty y = false) xs ->
    forall l', In l' (fold_left UPSERT_IF_EMPTY xs tbl) ->
               In (key l') (map key xs) -> text_is_empty l' = false.
Proof.
  induction xs as [|x xs IH] using rev_ind; intros tbl U F l' H K; [destruct K|].
  apply Forall_app in F as [Fxs Fx]. inversion Fx as [|? ? Ex _]; subst.
  rewrite fold_left_app in H. cbn [fold_left] in H.
  assert (U' : unique (fold_left UPSERT_IF_EMPTY xs tbl))
    by (apply fold_unique; [exact patch_keeps | exact U]).
  apply (execute_In patch _ _ _ U') in H as [[H E]|[[l0 [H [E ->]]]|[-> _]]].
  - apply (IH tbl U Fxs l' H). rewrite map_app in K.
    apply in_app_or in K as [K|[K|[]]]; [exact K|].
    apply same_key_false in E. congruence.
  - unfold patch. destruct (text_is_empty l0) eqn:E0; [exact Ex | exact E0].
  - exact Ex.
Qed.

Lemma patch_rerun xs tbl :
  unique tbl -> Forall (fun y => text_is_empty y = false) xs ->
  fold_left UPSERT_IF_EMPTY xs (fold_left UPSERT_IF_EMPTY xs tbl)
  = fold_left UPSERT_IF_EMPTY xs tbl.
Proof.
  intros U F. set (T := fold_left UPSERT_IF_EMPTY xs tbl).
  assert (UT : unique T)
    by (apply fold_unique; [exact patch_keeps | exact U]).
  assert (KT : forall x, In x xs -> In (key x) (map key T)).
  { intros x Hx. apply (fold_has_keys patch patch_keeps); [exact U|].
    right. now apply in_map. }
  assert (FT : forall l', In l' T -> In (key l') (map key xs) ->
                          text_is_empty l' = false)
    by (apply patch_all_filled; assumption).
  assert (G : forall ys, (forall y, In y ys -> In y xs) ->
                         fold_left UPSERT_IF_EMPTY ys T = T).
  { induction ys as [|y ys IHy]; intros Hs; [reflexivity|].
    cbn [fold_left].
    assert (E : UPSERT_IF_EMPTY T y = T).
    { unfold UPSERT_IF_EMPTY.
      rewrite (execute_present patch T y UT) by (apply KT, Hs; now left).
      rewrite <- (map_id T) at 2. apply map_ext_in. intros l Hl.
      destruct (same_key l y) eqn:K; [|reflexivity].
      apply patch_nonempty, FT; [exact Hl|].
      apply same_key_iff in K. rewrite K. apply in_map, Hs. now left. }
    rewrite E. apply IHy. intros z Hz. apply Hs. now right. }
  apply G. auto.
Qed.

(** The rows of the patch script have a text that [trim] leaves non-empty. *)
Lemma strip_not_trimmed s :
  nonempty (strip s) = true -> (String.length (trim (strip s)) =? 0) = false.
Proof.
  intros H. pose proof (PyFacts.lstrip_strip s) as L.
  destruct (strip s) as [|c r] eqn:E; [discriminate H|].
  assert (Hc : isspace c = false) by (apply (PyFacts.lstrip_head _ _ _ L)).
  assert (Sc : is_space c = false).
  { unfold is_space. destruct (Ascii.eqb c " ") eqn:K; [|reflexivity].
    apply Ascii.eqb_eq in K. subst c. discriminate Hc. }
  unfold trim. cbn [ltrim]. rewrite Sc. cbn [rtrim]. rewrite Sc.
  destruct (rtrim r); reflexivity.
Qed.

Lemma patch_rows_filled root :
  Forall (fun y => text_is_empty y = false)
         (map line_of_osis (ImportKjvOsis.parse_osis root)).
Proof.
  apply Forall_forall. intros y Hy. apply in_map_iff in Hy as [r [<- Hr]].
  unfold ImportKjvOsis.parse_osis in Hr. apply in_flat_map in Hr as [[v i] [_ Hr]].
  unfold ImportKjvOsis.verse_row in Hr.
  destruct (List.length (split_on "." i) <? 3); [destruct Hr|].
  destruct (nonempty (ImportKjvOsis.extract_plain_text v)) eqn:E;
    cbn [negb ImportKjv.yielded In] in Hr; [|destruct Hr].
  destruct Hr as [<-|[]]. unfold text_is_empty, line_of_osis.
  cbn [text ImportKjv.text]. now apply strip_not_trimmed.
Qed.

(** X18.  The patch of [import_kjv_osis.py] only fills gaps.  A line
    whose text is not empty (not NULL and not made of spaces only) is
    left exactly as it is; an empty line keeps its place, its [book],
    [chapter], [verse] and [ref_display], and takes the text and counts
    of the first row with its key; after the run no line with the key of
    a row is empty, and a second run changes nothing. *)
Theorem X18_patch_if_empty :
  forall root tbl,
    unique tbl ->
    let rows := map line_of_osis (ImportKjvOsis.parse_osis root) in
    unique (osis_main root tbl)
    /\ (forall i l, nth_error tbl i = Some l -> text_is_empty l = false ->
                    nth_error (osis_main root tbl) i = Some l)
    /\ (forall i l x, nth_error tbl i = Some l -> text_is_empty l = true ->
                      find (fun y => same_key y l) rows = Some x ->
                      nth_error (osis_main root tbl) i = Some (overwrite l x))
    /\ (forall l', In l' (osis_main root tbl) -> In (key l') (map key rows) ->
                   text_is_empty l' = false)
    /\ osis_main root (osis_main root tbl) = osis_main root tbl.
Proof.
  intros root tbl U rows. pose proof (patch_rows_filled root) as F.
  unfold osis_main. fold rows in F |- *.
  split; [apply fold_unique; [exact patch_keeps | exact U]|].
  split; [intros i l H E; now apply patch_fold_keeps|].
  split; [intros i l x H E Hx; now apply patch_fold_first|].
  split; [now apply patch_all_filled | now apply patch_rerun].
Qed.

(** The blank line of [Gen.1.2] is filled, the line of [Gen.1.1] with
    its text is kept. *)
Lemma X18_patch_if_empty_witness :
  nth_error (osis_main ImportKjv.doc_blank_verse sample_table) 0 = Some sample_line
  /\ map text (osis_main ImportKjv.doc_blank_verse sample_table)
     = [Some "old"; Some "And the earth"].
Proof.
  split; [|vm_compute; reflexivity].
  apply (X18_patch_if_empty ImportKjv.doc_blank_verse sample_table sample_unique);
    reflexivity.
Defined.

End VersesFacts.

(** ** Milestones and containers *)

Module ContainerFacts.
Import Py Xml Books ImportKjvUsfx CrossDialect Containers PyFacts UsfxFacts CrossFacts.

Lemma marker_number_attr t n x ch tl :
  digits_or_zero (marker_number (Element t [("number", str_of_nat n)] x ch tl)) = n.
Proof.
  unfold marker_number. cbn [attrib dict_get].
  change (String.eqb "id" "number") with false.
  change (String.eqb "number" "number") with true. cbn iota.
  destruct (str_of_nat n) eqn:E; rewrite <- ?E; [|apply digits_or_zero_str].
  pose proof (str_of_nat_nonempty n) as H. rewrite E in H. discriminate H.
Qed.

Lemma step_verse_start st n t :
  0 < n ->
  step st (Start, Element "verse" [("number", str_of_nat n)] t [] None)
  = (capture {| current_book_code := current_book_code st;
                current_book_name := current_book_name st;
                current_osis_book := current_osis_book st;
                current_chapter := current_chapter st;
                current_verse := Some n; buffer := [] |} "verse" t,
     flush st).
Proof.
  intros Hn. unfold step. rewrite marker_number_attr.
  destruct n; [lia | reflexivity].
Qed.

Lemma step_verse_end st a x ch :
  step st (End, Element "verse" a x ch None) = (st, []).
Proof. unfold step. cbn [Xml.tail]. rewrite capture_none. reflexivity. Qed.

Lemma step_chapter_start st n ch :
  0 < n ->
  step st (Start, Element "chapter" [("number", str_of_nat n)] None ch None)
  = ({| current_book_code := current_book_code st;
        current_book_name := current_book_name st;
        current_osis_book := current_osis_book st;
        current_chapter := Some n; current_verse := None; buffer := [] |},
     flush st).
Proof.
  intros Hn. unfold step. rewrite marker_number_attr.
  destruct n; [lia | reflexivity].
Qed.

Lemma step_chapter_end st a x ch :
  step st (End, Element "chapter" a x ch None) = (st, []).
Proof. unfold step. cbn [Xml.tail]. rewrite capture_none. reflexivity. Qed.

Lemma exec_container_verse code nm o c cur buf v :
  plain_verse v = true -> 0 < vs_num v ->
  exec (mkState code nm o (Some (S c)) cur buf) (iterparse (container_verse v))
  = (mkState code nm o (Some (S c)) (Some (vs_num v))
       (if nonempty (strip (vs_text v)) then [vs_text v] else []),
     flush (mkState code nm o (Some (S c)) cur buf)).
Proof.
  intros Hp Hn. unfold container_verse, plain_verse in *.
  destruct (vs_inline v); [clear Hp | discriminate].
  cbn [flat_map iterparse app].
  rewrite exec_cons, (step_verse_start _ _ _ Hn).
  cbn [current_book_code current_book_name current_osis_book current_chapter].
  rewrite exec_cons, step_verse_end. cbn [exec].
  destruct (vs_num v) as [|n]; [lia|].
  rewrite capture_open by reflexivity. rewrite !app_nil_r.
  unfold text_node, append_if_text.
  destruct (nonempty (strip (vs_text v))) eqn:E.
  - pose proof (strip_nonempty_arg _ E) as T. rewrite T. cbn iota.
    rewrite T, E. reflexivity.
  - destruct (nonempty (vs_text v)) eqn:T; cbn iota; [rewrite T, E|]; reflexivity.
Qed.

Lemma exec_container_verses code nm a b c vs :
  forallb plain_verse vs = true ->
  forallb (fun v => 0 <? vs_num v) vs = true ->
  forall cur buf, exists cur' buf' out,
    exec (mkState code nm (Some (String a b)) (Some (S c)) cur buf)
         (flat_map iterparse (map container_verse vs))
    = (mkState code nm (Some (String a b)) (Some (S c)) cur' buf', out)
    /\ out ++ flush (mkState code nm (Some (String a b)) (Some (S c)) cur' buf')
       = flush (mkState code nm (Some (String a b)) (Some (S c)) cur buf)
         ++ flat_map (usfx_rows_verse (String a b) nm (S c)) vs.
Proof.
  induction vs as [|v vs IH]; intros Hp Hn cur buf.
  - exists cur, buf, []. split; [reflexivity|]. simpl. now rewrite app_nil_r.
  - simpl in Hp, Hn. apply andb_true_iff in Hp as [Hp Hps].
    apply andb_true_iff in Hn as [Hn Hns]. apply Nat.ltb_lt in Hn.
    cbn [map flat_map]. rewrite exec_app.
    rewrite (exec_container_verse _ _ _ _ _ _ _ Hp Hn).
    destruct (IH Hps Hns (Some (vs_num v))
                (if nonempty (strip (vs_text v)) then [vs_text v] else []))
      as [cur' [buf' [out [E1 E2]]]].
    rewrite E1. exists cur', buf'. eexists. split; [reflexivity|].
    rewrite <- app_assoc, E2, flush_open. reflexivity.
Qed.

Lemma exec_container_chapters code nm a b cs :
  forallb (fun c => (0 <? cs_num c)
                    && forallb (fun v => 0 <? vs_num v) (cs_verses c)) cs = true ->
  forallb (fun c => forallb plain_verse (cs_verses c)) cs = true ->
  forall ch cur buf, exists ch' cur' buf' out,
    exec (mkState code nm (Some (String a b)) ch cur buf)
         (flat_map iterparse (map container_chapter cs))
    = (mkState code nm (Some (String a b)) ch' cur' buf', out)
    /\ out ++ flush (mkState code nm (Some (String a b)) ch' cur' buf')
       = flush (mkState code nm (Some (String a b)) ch cur buf)
         ++ flat_map (fun c => flat_map (usfx_rows_verse (String a b) nm (cs_num c))
                                        (cs_verses c)) cs.
Proof.
  induction cs as [|c cs IH]; intros Hn Hp ch cur buf.
  - exists ch, cur, buf, []. split; [reflexivity|]. simpl. now rewrite app_nil_r.
  - simpl in Hp, Hn. apply andb_true_iff in Hp as [Hp Hps].
    apply andb_true_iff in Hn as [Hn Hns]. apply andb_true_iff in Hn as [Hc Hv].
    apply Nat.ltb_lt in Hc.
    cbn [map flat_map]. rewrite exec_app.
    unfold container_chapter at 1. cbn [iterparse].
    rewrite exec_cons, (step_chapter_start _ _ _ Hc).
    cbn [current_book_code current_book_name current_osis_book].
    rewrite exec_app.
    destruct (cs_num c) as [|n] eqn:En; [lia|].
    destruct (exec_container_verses code nm a b n _ Hp Hv None [])
      as [cur1 [buf1 [o1 [E1 E2]]]].
    rewrite E1. rewrite exec_cons, step_chapter_end. cbn [exec].
    destruct (IH Hns Hps (Some (S n)) cur1 buf1) as [ch' [cur' [buf' [o2 [E3 E4]]]]].
    rewrite E3. exists ch', cur', buf'. eexists. split; [reflexivity|].
    cbn [app]. rewrite !app_nil_r, <- !app_assoc, E4.
    rewrite (app_assoc o1), E2. cbn [flush current_verse app].
    reflexivity.
Qed.

Lemma exec_container_book b :
  same_book b = true -> positive_numbers b = true ->
  forallb (fun c => forallb plain_verse (cs_verses c)) (bs_chapters b) = true ->
  exec initial (iterparse (container_book b)) = (initial, usfx_rows_book b).
Proof.
  intros Hs Hn Hp. unfold same_book in Hs.
  destruct (dict_get USFX_TO_OSIS (bs_usfx b)) as [o|] eqn:Hu; [|discriminate].
  apply String.eqb_eq in Hs. subst o.
  destruct (usfx_table_ok _ _ Hu) as [Hne _].
  unfold container_book, usfx_rows_book, initial. cbn [iterparse].
  rewrite exec_cons, (step_book_start _ _ _ _ _ _ _ _ _ _ Hu).
  destruct (bs_osis b) as [|x y] eqn:Eo; [discriminate|].
  rewrite exec_app.
  destruct (exec_container_chapters (Some (bs_usfx b))
              (Some (dict_get_default OSIS_TO_NAME (String x y) (String x y)))
              x y _ Hn Hp None None []) as [ch' [cur' [buf' [out [E1 E2]]]]].
  rewrite E1. rewrite exec_cons, step_book_end. cbn [exec app].
  rewrite app_nil_r. unfold initial. f_equal.
  rewrite E2. reflexivity.
Qed.

Lemma exec_container_books bs :
  well_formed bs = true -> plain bs = true ->
  exec initial (flat_map iterparse (map container_book bs))
  = (initial, flat_map usfx_rows_book bs).
Proof.
  induction bs as [|b bs IH]; intros Hw Hp; [reflexivity|].
  simpl in Hw, Hp. apply andb_true_iff in Hw as [Hb Hw].
  apply andb_true_iff in Hb as [Hs Hn]. apply andb_true_iff in Hp as [Hpb Hp].
  cbn [map flat_map]. rewrite exec_app, (exec_container_book b Hs Hn Hpb), (IH Hw Hp).
  reflexivity.
Qed.

Lemma stream_containers bs :
  well_formed bs = true -> plain bs = true ->
  parse_usfx_stream (encode_containers bs) = flat_map usfx_rows_book bs.
Proof.
  intros Hw Hp. unfold parse_usfx_stream, run, encode_containers. cbn [iterparse].
  rewrite exec_cons.
  change (step initial (Start, Element "usfx" [] None (map container_book bs) None))
    with (initial, @nil row).
  cbn iota. rewrite exec_app, (exec_container_books bs Hw Hp). cbn.
  now rewrite app_nil_r.
Qed.

(** X19.  The streaming extractor reads verses written as containers
    ([<chapter number="C">] holding [<verse number="V">text</verse>])
    as it reads milestones ([<c id="C"/>], [<v id="V"/>text]): for the
    same plain-text verses, with book ids of the table and positive
    numbers, and when the parser hands over every text complete (the
    file fits one 32 KB read), both files give the same rows, one per
    verse whose text is not blank, in document order. *)
Theorem X19_containers_as_milestones :
  forall shown shown' bs,
    complete shown -> complete shown' ->
    well_formed bs = true -> plain bs = true ->
    parse_usfx_chunked shown (encode_containers bs)
    = parse_usfx_chunked shown' (encode_usfx bs)
    /\ parse_usfx_chunked shown (encode_containers bs)
       = flat_map usfx_rows_book bs.
Proof.
  intros shown shown' bs Hc Hc' Hw Hp.
  rewrite (CrossDialectEquivalence.chunked_complete shown _ Hc),
    (CrossDialectEquivalence.chunked_complete shown' _ Hc').
  rewrite (stream_containers bs Hw Hp), (stream_plain bs Hw Hp).
  split; reflexivity.
Qed.

(** The text of a container verse is read at its start event: when the
    chunk ends before the text does, the verse is lost. *)
Lemma withheld_text_loses_verse :
  parse_usfx_chunked (withheld_at 3)
    (encode_containers
       [mkBook "GEN" "Gen" [mkChapter 1 [mkVerse 1 "In the beginning" []]]])
  = [].
Proof. vm_compute. reflexivity. Qed.

Lemma X19_containers_as_milestones_witness :
  parse_usfx_chunked whole (encode_containers sample_plain)
  = parse_usfx_chunked whole (encode_usfx sample_plain)
  /\ map ImportKjvUsfx.osis_id (parse_usfx_chunked whole (encode_containers sample_plain))
     = ["Gen.1.1"; "Gen.1.3"].
Proof.
  split; [|vm_compute; reflexivity].
  apply (X19_containers_as_milestones whole whole sample_plain);
    first [intros i t; reflexivity | vm_compute; reflexivity].
Defined.

End ContainerFacts.

(** ** The stored annotations *)

Module EtlStoreFacts.
Import Py Etl EtlStore.

Lemma has_key_iff tr id l : has_key tr id l = true <-> stored_key l = (tr, id).
Proof.
  unfold has_key, stored_key. rewrite andb_true_iff, !String.eqb_eq. split.
  - intros [-> ->]. reflexivity.
  - intros H. injection H as -> ->. auto.
Qed.

Lemma lookup_written tbl tr id ann e :
  lookup (upsert_annotation tbl tr id ann e) tr id = Some (mkStored id tr ann e).
Proof.
  unfold lookup. induction tbl as [|l tbl IH]; cbn [upsert_annotation find].
  - assert (E : has_key tr id (mkStored id tr ann e) = true)
      by now apply has_key_iff.
    now rewrite E.
  - destruct (has_key tr id l) eqn:K; cbn [find].
    + pose proof K as K'. apply has_key_iff in K'. unfold stored_key in K'.
      injection K' as E1 E2. rewrite E1, E2.
      assert (E : has_key tr id (mkStored id tr ann e) = true)
        by now apply has_key_iff.
      now rewrite E.
    + rewrite K. exact IH.
Qed.

Lemma lookup_other tbl tr id ann e tr' id' :
  (tr', id') <> (tr, id) ->
  lookup (upsert_annotation tbl tr id ann e) tr' id' = lookup tbl tr' id'.
Proof.
  intros D. unfold lookup. induction tbl as [|l tbl IH]; cbn [upsert_annotation find].
  - destruct (has_key tr' id' (mkStored id tr ann e)) eqn:K; [|reflexivity].
    apply has_key_iff in K. unfold stored_key in K. cbn in K. congruence.
  - destruct (has_key tr id l) eqn:K; cbn [find].
    + apply has_key_iff in K.
      assert (K1 : has_key tr' id' l = false).
      { apply not_true_iff_false. intros C. apply has_key_iff in C. congruence. }
      assert (K2 : has_key tr' id'
                     (mkStored (s_osis_id l) (s_translation l) ann e) = false).
      { apply not_true_iff_false. intros C. apply has_key_iff in C.
        unfold stored_key in K, C. cbn in C. congruence. }
      now rewrite K1, K2.
    + destruct (has_key tr' id' l); [reflexivity | exact IH].
Qed.

Lemma key_in_dec (k : string * string) (ks : list (string * string)) :
  In k ks \/ ~ In k ks.
Proof.
  destruct (in_dec (fun a b : string * string =>
                      ltac:(decide equality; apply string_dec) : {a = b} + {a <> b})
                   k ks); auto.
Qed.

Lemma store_without np embed argsort metas :
  forall cache i tbl,
    let out := fst (annotate_store np embed argsort cache None i metas tbl) in
    (forall m, In m metas ->
               exists l, lookup out (fst (fst m)) (snd (fst m)) = Some l
                         /\ s_embedding l = None)
    /\ (forall tr id, ~ In (tr, id) (map meta_key metas) ->
                      lookup out tr id = lookup tbl tr id).
Proof.
  induction metas as [|[[tr id] r] metas IH]; intros cache i tbl out.
  - split; [intros m []|]. reflexivity.
  - unfold out. cbn [annotate_store].
    destruct (annotate np embed argsort cache None (text r)) as [ann cache1].
    destruct (IH cache1 (S i) (upsert_annotation tbl tr id ann None)) as [I1 I2].
    split.
    + intros m [<-|Hm]; [|now apply I1]. cbn [fst snd].
      destruct (key_in_dec (tr, id) (map meta_key metas)) as [K|K].
      * apply in_map_iff in K as [m' [E Hm']].
        destruct (I1 m' Hm') as [l [L1 L2]]. exists l. split; [|exact L2].
        unfold meta_key in E. injection E as <- <-. exact L1.
      * rewrite (I2 tr id K), lookup_written. eexists. split; reflexivity.
    + intros tr' id' K. cbn [map] in K.
      rewrite I2 by (intros C; apply K; now right).
      apply lookup_other. intros C. apply K. left. unfold meta_key. cbn.
      now symmetry.
Qed.

(** X20.  [upsert_annotation] replaces every column of the line of its
    key, the stored fingerprint included, and touches no other key.  So
    an annotation pass without embeddings leaves, for every verse of the
    batch, a line whose fingerprint is NULL, whatever fingerprint was
    stored before; the lines of other keys stay as they were. *)
Theorem X20_annotations_overwritten :
  (forall tbl tr id ann e,
      lookup (upsert_annotation tbl tr id ann e) tr id
      = Some (mkStored id tr ann e))
  /\ (forall tbl tr id ann e tr' id',
        (tr', id') <> (tr, id) ->
        lookup (upsert_annotation tbl tr id ann e) tr' id' = lookup tbl tr' id')
  /\ (forall np embed argsort cache tbl texts metas,
        let out :=
          fst (process_annotations np embed argsort cache tbl texts metas false) in
        (forall m, In m metas ->
                   exists l, lookup out (fst (fst m)) (snd (fst m)) = Some l
                             /\ s_embedding l = None)
        /\ (forall tr id, ~ In (tr, id) (map meta_key metas) ->
                          lookup out tr id = lookup tbl tr id)).
Proof.
  split; [exact lookup_written|]. split; [exact lookup_other|].
  intros np embed argsort cache tbl texts metas. unfold process_annotations.
  apply store_without.
Qed.

(** The stored fingerprint of John 11:35 is lost by a pass without
    embeddings. *)
Lemma X20_annotations_overwritten_witness :
  s_embedding sample_stored = Some [1%Q]
  /\ exists l,
       lookup (fst (process_annotations exact_numpy toy_embed argsort_stable None
                      [sample_stored] ["Jesus wept."]
                      [("KJV", "John.11.35", sample_row)] false))
              "KJV" "John.11.35" = Some l
       /\ s_embedding l = None.
Proof.
  split; [reflexivity|].
  destruct X20_annotations_overwritten as [_ [_ H]].
  destruct (H exact_numpy toy_embed argsort_stable None [sample_stored]
              ["Jesus wept."]
              [("KJV", "John.11.35", sample_row)]) as [H1 _].
  apply (H1 ("KJV", "John.11.35", sample_row)). now left.
Defined.

End EtlStoreFacts.
